(** * minipix: the image conversion pipeline of [src/lib/imageConversion.ts]

    A shallow embedding of the conversion module (capability probe and its
    cache, quality fraction, the boost transform, colour reduction for PNG,
    the [convertImage] orchestration) together with the properties the
    specification states about them.

    JavaScript numbers are IEEE 754 binary64 values: they are modelled by
    Rocq's primitive floats, whose operations round exactly as the host's
    do.  Bytes of a [Uint8ClampedArray] are integers in [0, 255], modelled
    in [Z].

    The file also embeds the test for accepted input files, the HDR
    detection of [src/lib/hdrDetection.ts] (mime type guess, colour space
    test, the parser that looks for a gain map in a JPEG) and the handlers
    of the hook [src/hooks/useConversionController.ts], as functions on
    the state of the hook. *)

From Stdlib Require Import ZArith List Bool Lia Floats Uint63.
From stdpp Require Import base option list gmap strings.
From Stdlib Require Import Ascii.

#[local] Set Warnings "-inexact-float".
#[local] Open Scope Z_scope.

(* ===================================================================== *)
(** ** JavaScript numbers *)
(* ===================================================================== *)

Module JsNum.

Abbreviation num := PrimFloat.float.

(** [Math.max(a, b)]: NaN when either argument is NaN, [+0] above [-0]. *)
Definition js_max (a b : num) : num :=
  if PrimFloat.is_nan a || PrimFloat.is_nan b then PrimFloat.nan
  else if PrimFloat.ltb a b then b
  else if PrimFloat.ltb b a then a
  else match PrimFloat.classify a with NZero => b | _ => a end.

(** [Math.min(a, b)]: NaN when either argument is NaN, [-0] below [+0]. *)
Definition js_min (a b : num) : num :=
  if PrimFloat.is_nan a || PrimFloat.is_nan b then PrimFloat.nan
  else if PrimFloat.ltb a b then a
  else if PrimFloat.ltb b a then b
  else match PrimFloat.classify a with PZero => b | _ => a end.

(** The number held by a typed-array byte. *)
Definition byteToNum (b : Z) : num := PrimFloat.of_uint63 (Uint63.of_Z b).

(** [floor] of a finite float, read off its mantissa and exponent; zero
    for zeros, infinities and NaN (never reached by [toUint8Clamp]). *)
Definition floorNum (v : num) : Z :=
  match Prim2SF v with
  | S754_finite false m e => Z.shiftl (Z.pos m) e
  | S754_finite true m e => - Z.shiftl (- Z.pos m) e
  | _ => 0
  end.

(** ToUint8Clamp, the conversion applied by a store into a
    [Uint8ClampedArray]: NaN becomes 0, the value is clamped to [0, 255]
    and rounded to the nearest integer, ties to even. *)
Definition toUint8Clamp (v : num) : Z :=
  if PrimFloat.is_nan v then 0
  else if PrimFloat.leb v 0 then 0
  else if PrimFloat.leb 255 v then 255
  else
    let f := floorNum v in
    let half := PrimFloat.add (byteToNum f) 0.5 in
    if PrimFloat.ltb v half then f
    else if PrimFloat.ltb half v then f + 1
    else if Z.even f then f else f + 1.

(** "x lies in the closed interval [lo, hi]" for numbers. *)
Definition between (lo hi x : num) : bool :=
  PrimFloat.leb lo x && PrimFloat.leb x hi.

End JsNum.

Import JsNum.

(* ===================================================================== *)
(** ** Quality fraction and the boost transform *)
(* ===================================================================== *)

(** [qualityToFloat]: [Math.min(1, Math.max(0, quality / 100))]. *)
Definition qualityToFloat (quality : num) : num :=
  js_min 1 (js_max 0 (quality / 100)).

(** [clampByte]: [Math.min(255, Math.max(0, value))]. *)
Definition clampByte (value : num) : num := js_min 255 (js_max 0 value).

Record BoostSettings : Type := mkBoost {
  exposure : num;
  saturation : num;
  contrast : num;
  brightness : num
}.

Definition defaultBoost : BoostSettings :=
  {| exposure := 0; saturation := 1; contrast := 1; brightness := 0 |}.

(** [data[i]] used as a number: a byte of the array, or [undefined]
    (NaN in arithmetic) past its end. *)
Definition readNum (data : list Z) (i : nat) : num :=
  match data !! i with
  | Some b => byteToNum b
  | None => PrimFloat.nan
  end.

(** [data[i] = v] on a [Uint8ClampedArray]: the value is converted by
    ToUint8Clamp; a store past the end is ignored. *)
Definition writeClamped (data : list Z) (i : nat) (v : num) : list Z :=
  <[ i := toUint8Clamp v ]> data.

Section ApplyBoost.

(** The host's exponentiation operator [**] (Number::exponentiate). *)
Variable pow : num -> num -> num.

(** The loop of [applyBoost], [for (let i = 0; i < data.length; i += 4)],
    on the buffer it mutates in place.  [fuel] bounds the iterations. *)
Fixpoint boostLoop (exposureFactor saturation contrast brightness : num)
    (fuel i : nat) (data : list Z) : list Z :=
  match fuel with
  | O => data
  | S fuel' =>
    if decide (i < length data)%nat then
      let r := (readNum data i * exposureFactor)%float in
      let g := (readNum data (i + 1) * exposureFactor)%float in
      let b := (readNum data (i + 2) * exposureFactor)%float in
      let lum := (0.2126 * r + 0.7152 * g + 0.0722 * b)%float in
      let r := (lum + (r - lum) * saturation)%float in
      let g := (lum + (g - lum) * saturation)%float in
      let b := (lum + (b - lum) * saturation)%float in
      let r := ((r - 128) * contrast + 128 + brightness)%float in
      let g := ((g - 128) * contrast + 128 + brightness)%float in
      let b := ((b - 128) * contrast + 128 + brightness)%float in
      let data := writeClamped data i (clampByte r) in
      let data := writeClamped data (i + 1) (clampByte g) in
      let data := writeClamped data (i + 2) (clampByte b) in
      boostLoop exposureFactor saturation contrast brightness fuel' (i + 4) data
    else data
  end.

(** [applyBoost] on the pixel data read from the canvas: the buffer that
    is written back by [putImageData]. *)
Definition applyBoost (boost : BoostSettings) (data : list Z) : list Z :=
  let exposureFactor := pow 2 (exposure boost) in
  let saturation := saturation boost in
  let contrast := contrast boost in
  let brightness := brightness boost in
  boostLoop exposureFactor saturation contrast brightness (length data) 0 data.

End ApplyBoost.

(** The per-channel transform as the specification words it. *)
Module BoostSpec.

Section Formula.
Variable pow : num -> num -> num.
Variable boost : BoostSettings.





End Formula.

End BoostSpec.


(** What one iteration of the loop stores for channel value [v] of a pixel
    whose three colour bytes are [r], [g], [b]. *)
Definition stored (ef sat con bri : num) (r g b v : Z) : Z :=
  let lum := (0.2126 * (byteToNum r * ef) + 0.7152 * (byteToNum g * ef)
              + 0.0722 * (byteToNum b * ef))%float in
  toUint8Clamp (clampByte
    (((lum + (byteToNum v * ef - lum) * sat - 128) * con + 128 + bri)%float)).

(** *** Exhaustive check of the default settings

    With exposure factor 1 and saturation 1 the saturation blend gives back
    the channel it started from, bit for bit, at every one of the 2^24
    colours.  The check runs over the numbers [byte * 1], sharing the
    partial sums of the luma between the colours that have them in common. *)

Definition allBytes : list Z := map Z.of_nat (seq 0 256).

Definition exposed1 (c : Z) : num := (byteToNum c * 1)%float.

Definition blendsBack (lum c : num) : bool :=
  PrimFloat.Leibniz.eqb (lum + (c - lum) * 1)%float c.

Fixpoint blendsBackRow (s r g : num) (bs : list num) : bool :=
  match bs with
  | [] => true
  | b :: bs' =>
    let lum := (s + 0.0722 * b)%float in
    if blendsBack lum r then
      if blendsBack lum g then
        if blendsBack lum b then blendsBackRow s r g bs' else false
      else false
    else false
  end.

Definition blendsBackAll (rs gs bs : list num) : bool :=
  forallb (fun r =>
    let wr := (0.2126 * r)%float in
    forallb (fun g => blendsBackRow (wr + 0.7152 * g)%float r g bs) gs) rs.

(** The contrast stage at contrast 1 and brightness 0, then the store. *)
Definition restoresByte (c : Z) : bool :=
  Z.eqb (toUint8Clamp (clampByte ((exposed1 c - 128) * 1 + 128 + 0)%float)) c.

Definition isByte (b : Z) : Prop := 0 <= b < 256.

(** A buffer as [getImageData] returns it: bytes, four for each pixel. *)
Definition wellFormedPixels (data : list Z) : Prop :=
  Forall isByte data /\ (length data mod 4 = 0)%nat.

(* ===================================================================== *)
(** ** Canvas encoding support and its module-scoped cache *)
(* ===================================================================== *)

(** The host seen by the capability probe: whether a [document] exists,
    and the data URL [canvas.toDataURL(mimeType)] answers to the [n]-th
    query made in this process (a host is free to answer differently from
    one query to the next). *)
Record Host : Type := mkHost {
  hasDocument : bool;
  toDataURL : nat -> string -> string
}.

(** The module state: the [canvasEncodeSupport] map, and the log of the
    host queries made so far (most recent first). *)
Record ModuleState : Type := mkState {
  canvasEncodeSupport : gmap string bool;
  hostQueries : list string
}.

Definition freshModule : ModuleState :=
  {| canvasEncodeSupport := ∅; hostQueries := [] |}.

Definition supportsCanvasEncoding (host : Host) (mimeType : string)
    (st : ModuleState) : bool * ModuleState :=
  if negb (hasDocument host) then (true, st)
  else
    match canvasEncodeSupport st !! mimeType with
    | Some cached => (cached, st)
    | None =>
      let dataUrl := toDataURL host (length (hostQueries st)) mimeType in
      let supported := String.prefix ("data:" ++ mimeType) dataUrl in
      (supported,
       {| canvasEncodeSupport := <[ mimeType := supported ]> (canvasEncodeSupport st);
          hostQueries := mimeType :: hostQueries st |})
    end.

Record OutputFormatSupport : Type := mkSupport {
  jpeg : bool;
  webp : bool;
  png : bool;
  gif : bool
}.

Definition getOutputFormatSupport (host : Host) (st : ModuleState)
    : OutputFormatSupport * ModuleState :=
  let '(j, st) := supportsCanvasEncoding host "image/jpeg" st in
  let '(w, st) := supportsCanvasEncoding host "image/webp" st in
  ({| jpeg := j; webp := w; png := true; gif := true |}, st).

Inductive OutputFormat : Type := Jpeg | Png | Webp | Gif.

Definition getDefaultOutputFormat (host : Host) (st : ModuleState)
    : OutputFormat * ModuleState :=
  let '(support, st) := getOutputFormatSupport host st in
  (if webp support then Webp
   else if jpeg support then Jpeg
   else if png support then Png
   else Gif, st).

(** A process: the calls to [supportsCanvasEncoding] it makes, in order. *)
Fixpoint runProbes (host : Host) (mimes : list string) (st : ModuleState)
    : list bool * ModuleState :=
  match mimes with
  | [] => ([], st)
  | m :: rest =>
    let '(b, st) := supportsCanvasEncoding host m st in
    let '(bs, st) := runProbes host rest st in
    (b :: bs, st)
  end.

(** The cache holds an entry for every query made, and no query was made
    twice. *)
Definition probedOnce (st : ModuleState) : Prop :=
  NoDup (hostQueries st) /\
  forall m, m ∈ hostQueries st -> is_Some (canvasEncodeSupport st !! m).

(** Two hosts used as examples: a browser whose canvas encodes WebP and
    JPEG, and a host without a [document]. *)
Definition browserHost : Host :=
  {| hasDocument := true;
     toDataURL := fun _ mime =>
       if String.eqb mime "image/webp" then "data:image/webp;base64,UklGRg=="
       else if String.eqb mime "image/jpeg" then "data:image/jpeg;base64,/9j/4A=="
       else "data:image/png;base64,iVBORw0KGgo=" |}.

Definition pngOnlyHost : Host :=
  {| hasDocument := true;
     toDataURL := fun _ _ => "data:image/png;base64,iVBORw0KGgo=" |}.

Definition headlessHost : Host :=
  {| hasDocument := false; toDataURL := fun _ _ => "" |}.

(* ===================================================================== *)
(** ** Effects: calls to collaborators, and exceptions *)
(* ===================================================================== *)

Abbreviation Blob := (list Z).

Record ImageData : Type := mkImageData {
  imgWidth : Z;
  imgHeight : Z;
  imgData : list Z
}.

(** The collaborators a conversion may call, as they appear in a trace. *)
Inductive Event : Type :=
| EvLoadImageSource
| EvCreateCanvas
| EvDrawOnCanvas (width height : Z)
| EvGetImageData
| EvConvertGifWithOptions
| EvConvertPng
| EvQuantizePalette (targetColors : Z)
| EvApplyPaletteMapping
| EvUpngEncode (cnum : Z)
| EvApplyBoost
| EvEncodeCanvas (mimeType : string) (quality : num)
| EvCreateObjectURL
| EvConsole
| EvRelease.

(** A computation that logs the collaborators it calls and either returns
    a value or throws an [Error] with a message. *)
Definition Eff (A : Type) : Type := list Event -> (string + A) * list Event.

Definition ret {A} (x : A) : Eff A := fun tr => (inr x, tr).

Definition bind {A B} (m : Eff A) (k : A -> Eff B) : Eff B :=
  fun tr =>
    match m tr with
    | (inl err, tr') => (inl err, tr')
    | (inr x, tr') => k x tr'
    end.

Definition throw {A} (message : string) : Eff A := fun tr => (inl message, tr).

Definition emit (e : Event) : Eff unit := fun tr => (inr tt, tr ++ [e]).

(** [try { body } finally { cleanup }] *)
Definition tryFinally {A} (body : Eff A) (cleanup : Eff unit) : Eff A :=
  fun tr =>
    match body tr with
    | (res, tr') =>
      match cleanup tr' with
      | (inl err, tr'') => (inl err, tr'')
      | (inr _, tr'') => (res, tr'')
      end
    end.

(** [try { body } catch (error) { handler }] *)
Definition tryCatch {A} (body : Eff A) (handler : string -> Eff A) : Eff A :=
  fun tr =>
    match body tr with
    | (inl err, tr') => handler err tr'
    | (inr x, tr') => (inr x, tr')
    end.

Declare Scope eff_scope.
Delimit Scope eff_scope with eff.
Notation "x <- m ;; k" := (bind m (fun x => k))
  (at level 100, m at next level, right associativity) : eff_scope.
Notation "m ;;; k" := (bind m (fun _ => k))
  (at level 100, right associativity) : eff_scope.

(** The events a computation adds to an empty trace, and its outcome. *)
Definition traceOf {A} (m : Eff A) : list Event := snd (m []).
Definition outcomeOf {A} (m : Eff A) : string + A := fst (m []).

(** Quantization and encoding collaborators. *)
Definition isEncodingEvent (e : Event) : bool :=
  match e with
  | EvConvertGifWithOptions | EvConvertPng | EvQuantizePalette _
  | EvApplyPaletteMapping | EvUpngEncode _ | EvEncodeCanvas _ _ => true
  | _ => false
  end.

(* ===================================================================== *)
(** ** Colour reduction and PNG conversion *)
(* ===================================================================== *)

Inductive GifDitheringMode : Type := DitherNone | FloydSteinberg.

Record GifConversionOptions : Type := mkGifOptions {
  gifColorCount : Z;
  gifDithering : GifDitheringMode;
  gifPreserveAlpha : bool;
  gifBackgroundColor : string;
  gifLoopCount : Z
}.

Record PngConversionOptions : Type := mkPngOptions {
  pngColorCount : Z;
  pngReduceColors : bool;
  pngPreserveAlpha : bool;
  pngBackgroundColor : string;
  pngInterlaced : bool
}.

Inductive PaletteFormat : Type := Rgb565 | Rgba4444.

Record QuantizeOptions : Type := mkQuantizeOptions {
  format : PaletteFormat;
  oneBitAlpha : option bool;
  clearAlpha : option bool
}.

(** A palette entry is an array of channel values. *)
Abbreviation PaletteColor := (list Z).

(** The functions imported from [@/lib/gifEncoder], [@/lib/imageUtils] and
    [upng-js]. *)
Class Codecs : Type := mkCodecs {
  quantizePalette : list Z -> Z -> QuantizeOptions -> list PaletteColor;
  applyPaletteMapping : list Z -> list PaletteColor -> PaletteFormat -> list nat;
  convertGifWithOptions : ImageData -> GifConversionOptions -> string + Blob;
  parseHexColor : string -> Z * Z * Z;
  applyBackground : list Z -> Z * Z * Z -> list Z;
  upngEncode : list Z -> Z -> Z -> Z -> bool -> Blob
}.

(** Modelled from the spec: [ensureColorCount] of [@/lib/imageUtils] is not
    among the sources; the specification has a colour count outside
    [2, 256] "clamped to the valid range rather than failing". *)
Definition ensureColorCount (colorCount : Z) : Z :=
  Z.max 2 (Z.min 256 colorCount).

(** A store of a palette channel into a [Uint8ClampedArray]: an integer is
    clamped to [0, 255], [undefined] becomes 0. *)
Definition storeChannel (v : option Z) : Z :=
  match v with
  | Some x => Z.max 0 (Z.min 255 x)
  | None => 0
  end.

(** The loop of [reduceColors] from index [i] on; [None] when
    [palette[indices[i]]] is [undefined] and reading its channel throws. *)
Fixpoint reduceLoop (source : list Z) (palette : list PaletteColor)
    (preserveAlpha : bool) (indices : list nat) (i : nat) (result : list Z)
    : option (list Z) :=
  match indices with
  | [] => Some result
  | index :: rest =>
    match palette !! index with
    | None => None
    | Some paletteColor =>
      let dest := (i * 4)%nat in
      let result := <[ dest := storeChannel (paletteColor !! 0%nat) ]> result in
      let result := <[ (dest + 1)%nat := storeChannel (paletteColor !! 1%nat) ]> result in
      let result := <[ (dest + 2)%nat := storeChannel (paletteColor !! 2%nat) ]> result in
      let a :=
        if preserveAlpha && (3 <? length paletteColor)%nat
        then storeChannel (paletteColor !! 3%nat)
        else if preserveAlpha then storeChannel (source !! (dest + 3)%nat)
        else 255 in
      let result := <[ (dest + 3)%nat := a ]> result in
      reduceLoop source palette preserveAlpha rest (S i) result
    end
  end.

Section PngConversion.

Context {codecs : Codecs}.

#[local] Open Scope eff_scope.

Definition reduceColors (source : list Z) (targetColors : Z) (preserveAlpha : bool)
    : Eff (list Z) :=
  let fmt := if preserveAlpha then Rgba4444 else Rgb565 in
  let opts := {| format := fmt;
                 oneBitAlpha := if preserveAlpha then None else Some true;
                 clearAlpha := Some true |} in
  emit (EvQuantizePalette targetColors) ;;;
  let palette := quantizePalette source targetColors opts in
  emit EvApplyPaletteMapping ;;;
  let indices := applyPaletteMapping source palette fmt in
  let result := replicate (length source) 0 in
  match reduceLoop source palette preserveAlpha indices 0 result with
  | Some result => ret result
  | None => throw "TypeError: Cannot read properties of undefined"
  end.

(** The buffer [processed] of [convertPng]. *)
Definition pngProcessed (imageData : ImageData) (options : PngConversionOptions)
    : Eff (list Z) :=
  let data := imgData imageData in
  let background := parseHexColor (pngBackgroundColor options) in
  let data := if negb (pngPreserveAlpha options)
              then applyBackground data background else data in
  let shouldReduce := pngReduceColors options && (pngColorCount options <? 256) in
  if shouldReduce
  then reduceColors data (ensureColorCount (pngColorCount options))
         (pngPreserveAlpha options)
  else ret data.

Definition convertPng (imageData : ImageData) (options : PngConversionOptions)
    : Eff Blob :=
  processed <- pngProcessed imageData options ;;
  let frameBuffer := processed in
  let colorCount := if pngReduceColors options
                    then ensureColorCount (pngColorCount options) else 0 in
  emit (EvUpngEncode colorCount) ;;;
  ret (upngEncode frameBuffer (imgWidth imageData) (imgHeight imageData)
         colorCount (pngInterlaced options)).

End PngConversion.

(* ===================================================================== *)
(** ** [convertImage] *)
(* ===================================================================== *)

Record File : Type := mkFile {
  fileName : string;
  fileType : string
}.

Inductive ConversionConfig : Type :=
| ConfigJpeg (quality : num)
| ConfigWebp (quality : num)
| ConfigPng (options : PngConversionOptions)
| ConfigGif (options : GifConversionOptions).

Record ConvertImageOptions : Type := mkConvertOptions {
  boost : option BoostSettings
}.

Record ConversionResult : Type := mkResult {
  blob : Blob;
  url : string;
  width : Z;
  height : Z
}.

(** The browser as [convertImage] sees it. *)
Record Browser : Type := mkBrowser {
  (** ["createImageBitmap" in window] *)
  hasCreateImageBitmap : bool;
  (** [createImageBitmap(file)]: the width and height of the bitmap and
      the pixels it draws, or [None] when the promise rejects *)
  createImageBitmap : File -> option (Z * Z * list Z);
  (** an [HTMLImageElement] given the object URL of the file as [src]:
      its natural width and height and the pixels it draws when [onload]
      fires, or [None] when [onerror] does *)
  loadImage : File -> option (Z * Z * list Z);
  (** whether [canvas.getContext("2d")] answers a context *)
  context2d : bool;
  (** whether [ctx.getImageData] answers (it throws otherwise) *)
  readablePixels : bool;
  (** what [canvas.toBlob] hands to its callback *)
  toBlob : list Z -> string -> num -> option Blob;
  createObjectURL : Blob -> string;
  (** the operator [**] *)
  exponentiate : num -> num -> num
}.

(** Whether [loadImageSource] takes its second path, the
    [HTMLImageElement]: there is no [createImageBitmap], or it rejects. *)
Definition viaImageElement (browser : Browser) (file : File) : bool :=
  match (if hasCreateImageBitmap browser
         then createImageBitmap browser file else None) with
  | Some _ => false
  | None => true
  end.

(** The width, the height and the pixels of the source that
    [loadImageSource] answers on either path; [None] when it rejects. *)
Definition decodeImage (browser : Browser) (file : File)
    : option (Z * Z * list Z) :=
  match (if hasCreateImageBitmap browser
         then createImageBitmap browser file else None) with
  | Some bitmap => Some bitmap
  | None => loadImage browser file
  end.

Section ConvertImage.

Context {codecs : Codecs}.
Variable browser : Browser.

#[local] Open Scope eff_scope.

(** [loadImageSource].  The [release] it answers is [bitmap.close()] on
    the first path and [URL.revokeObjectURL(objectUrl)] on the second; a
    call of [release] is the event [EvRelease].  On the second path
    [URL.createObjectURL(file)] is called before the image loads. *)
Definition loadImageSource (file : File) : Eff (Z * Z * list Z) :=
  emit EvLoadImageSource ;;;
  bitmap <- tryCatch
              (if hasCreateImageBitmap browser then
                 match createImageBitmap browser file with
                 | Some bitmap => ret (Some bitmap)
                 | None => throw "createImageBitmap failed"
                 end
               else ret None)
              (fun _ => emit EvConsole ;;; ret None) ;;
  match bitmap with
  | Some bitmap => ret bitmap
  | None =>
    emit EvCreateObjectURL ;;;
    match loadImage browser file with
    | Some img => ret img
    | None => throw "image decoding failed"
    end
  end.

(** The context answered by [drawOnCanvas] is modelled by the pixels drawn
    on the canvas. *)
Definition drawOnCanvas (image : list Z) (width height : Z) : Eff (list Z) :=
  if negb (context2d browser)
  then throw "Impossible de dessiner sur le canvas."
  else emit (EvDrawOnCanvas width height) ;;; ret image.

Definition getImageData (ctx : list Z) (width height : Z) : Eff ImageData :=
  emit EvGetImageData ;;;
  if readablePixels browser
  then ret {| imgWidth := width; imgHeight := height; imgData := ctx |}
  else throw "getImageData failed".

(** [applyBoost(ctx, width, height, boost)] on the canvas. *)
Definition applyBoostOnCanvas (ctx : list Z) (width height : Z)
    (settings : BoostSettings) : Eff (list Z) :=
  emit EvApplyBoost ;;;
  imageData <- getImageData ctx width height ;;
  ret (applyBoost (exponentiate browser) settings (imgData imageData)).

Definition encodeCanvas (canvas : list Z) (mimeType : string) (quality : num)
    : Eff Blob :=
  emit (EvEncodeCanvas mimeType quality) ;;;
  match toBlob browser canvas mimeType quality with
  | Some result => ret result
  | None => throw "Conversion failed."
  end.

Definition objectURL (b : Blob) : Eff string :=
  emit EvCreateObjectURL ;;; ret (createObjectURL browser b).

Definition mimeMap (config : ConversionConfig) : string :=
  match config with
  | ConfigWebp _ => "image/webp"
  | _ => "image/jpeg"
  end.

Definition configQuality (config : ConversionConfig) : num :=
  match config with
  | ConfigJpeg q | ConfigWebp q => q
  | _ => PrimFloat.nan
  end.

Definition convertImage (file : File) (config : ConversionConfig)
    (options : option ConvertImageOptions) : Eff ConversionResult :=
  loaded <- loadImageSource file ;;
  let '(width, height, source) := loaded in
  tryFinally
    (emit EvCreateCanvas ;;;
     ctx <- drawOnCanvas source width height ;;
     if (width =? 0) || (height =? 0)
     then throw "Conversion failed: decoded image has zero dimensions."
     else
       match config with
       | ConfigGif gifOptions =>
         imageData <- tryCatch (getImageData ctx width height)
                        (fun error => emit EvConsole ;;; throw error) ;;
         emit EvConvertGifWithOptions ;;;
         match convertGifWithOptions imageData gifOptions with
         | inl error => throw error
         | inr blob =>
           url <- objectURL blob ;;
           ret {| blob := blob; url := url; width := width; height := height |}
         end
       | ConfigPng pngOptions =>
         imageData <- tryCatch (getImageData ctx width height)
                        (fun error => emit EvConsole ;;; throw error) ;;
         emit EvConvertPng ;;;
         blob <- convertPng imageData pngOptions ;;
         url <- objectURL blob ;;
         ret {| blob := blob; url := url; width := width; height := height |}
       | _ =>
         let mimeType := mimeMap config in
         let qualityValue := qualityToFloat (configQuality config) in
         let settings :=
           match options with
           | Some {| boost := Some b |} => b
           | _ => defaultBoost
           end in
         canvas <- tryCatch (applyBoostOnCanvas ctx width height settings)
                     (fun _ => emit EvConsole ;;; ret ctx) ;;
         (* [encodeCanvas] rejects on a null blob, so the [if (!blob)] that
            follows it in the source never throws *)
         blob <- encodeCanvas canvas mimeType qualityValue ;;
         url <- objectURL blob ;;
         ret {| blob := blob; url := url; width := width; height := height |}
       end)
    (emit EvRelease).

End ConvertImage.

(** An exponentiation exact at the exponents 0 and 1, used as an example. *)
Definition examplePow (base e : num) : num :=
  if PrimFloat.eqb e 0 then 1%float else base.

(** Collaborators used as examples: a one-colour quantizer, a mapper that
    sends every pixel to entry 0, an encoder that answers the buffer. *)
Definition exampleCodecs : Codecs :=
  {| quantizePalette := fun _ _ _ => [[17; 34; 51; 255]];
     applyPaletteMapping := fun source _ _ => replicate (length source / 4)%nat 0%nat;
     convertGifWithOptions := fun imageData _ => inr (imgData imageData);
     parseHexColor := fun _ => (255, 255, 255);
     applyBackground := fun data _ => data;
     upngEncode := fun frame _ _ _ _ => frame |}.

Definition exampleBrowser (w h : Z) : Browser :=
  {| hasCreateImageBitmap := true;
     createImageBitmap := fun _ => Some (w, h, replicate (Z.to_nat (4 * w * h)) 200);
     loadImage := fun _ => None;
     context2d := true;
     readablePixels := true;
     toBlob := fun canvas _ _ => Some canvas;
     createObjectURL := fun _ => "blob:minipix";
     exponentiate := examplePow |}.

(* ===================================================================== *)
(** ** The colour quantizer of the specification *)
(* ===================================================================== *)

Module Quantizer.

(** A pixel of a PixelBuffer: four bytes R, G, B, A. *)
Record Rgba : Type := mkRgba {
  red : Z;
  green : Z;
  blue : Z;
  alpha : Z
}.

Record Options : Type := mkOptions {
  optFormat : PaletteFormat;
  optOneBitAlpha : bool;
  optClearAlpha : bool
}.

(** *** Packed colours *)

(** Alpha on two levels; the specification does not give the threshold,
    the midpoint is taken. *)
Definition alphaBit (a : Z) : Z := if a <? 128 then 0 else 1.

(** 5-6-5 layout; with [oneBitAlpha] the two-level alpha sits above it. *)
Definition pack565 (oneBit : bool) (p : Rgba) : Z :=
  let rgb := Z.lor (Z.lor (Z.shiftl (Z.shiftr (Z.land (red p) 255) 3) 11)
                          (Z.shiftl (Z.shiftr (Z.land (green p) 255) 2) 5))
                   (Z.shiftr (Z.land (blue p) 255) 3) in
  if oneBit then Z.lor (Z.shiftl (alphaBit (alpha p)) 16) rgb else rgb.

(** 4-4-4-4 layout. *)
Definition pack4444 (p : Rgba) : Z :=
  Z.lor (Z.lor (Z.lor (Z.shiftl (Z.shiftr (Z.land (red p) 255) 4) 12)
                      (Z.shiftl (Z.shiftr (Z.land (green p) 255) 4) 8))
               (Z.shiftl (Z.shiftr (Z.land (blue p) 255) 4) 4))
        (Z.shiftr (Z.land (alpha p) 255) 4).

Definition pack (opts : Options) (p : Rgba) : Z :=
  match optFormat opts with
  | Rgb565 => pack565 (optOneBitAlpha opts) p
  | Rgba4444 => pack4444 p
  end.

(** A packed colour decoded back to channel bytes: three channels for the
    5-6-5 layout without alpha, four otherwise. *)
Definition unpack (opts : Options) (key : Z) : PaletteColor :=
  match optFormat opts with
  | Rgb565 =>
    let r := Z.shiftl (Z.land (Z.shiftr key 11) 31) 3 in
    let g := Z.shiftl (Z.land (Z.shiftr key 5) 63) 2 in
    let b := Z.shiftl (Z.land key 31) 3 in
    if optOneBitAlpha opts
    then [r; g; b; if Z.testbit key 16 then 255 else 0]
    else [r; g; b]
  | Rgba4444 =>
    [Z.shiftl (Z.land (Z.shiftr key 12) 15) 4;
     Z.shiftl (Z.land (Z.shiftr key 8) 15) 4;
     Z.shiftl (Z.land (Z.shiftr key 4) 15) 4;
     Z.shiftl (Z.land key 15) 4]
  end.

(** *** Histogram: packed colour to occurrence count, ascending keys *)

Fixpoint bump (key : Z) (hist : list (Z * nat)) : list (Z * nat) :=
  match hist with
  | [] => [(key, 1%nat)]
  | (k, n) :: rest =>
    if key <? k then (key, 1%nat) :: hist
    else if key =? k then (k, S n) :: rest
    else (k, n) :: bump key rest
  end.

Definition histogram (opts : Options) (pixels : list Rgba) : list (Z * nat) :=
  fold_left (fun hist p => bump (pack opts p) hist) pixels [].

(** *** Boxes *)

(** A box: member colours with their frequencies. *)
Abbreviation Box := (list (list Z * nat)).

Definition channelOf (c : nat) (member : PaletteColor * nat) : Z :=
  default 0 (fst member !! c).

Definition population (box : Box) : nat :=
  fold_right (fun member acc => (snd member + acc)%nat) 0%nat box.

Definition channelMin (c : nat) (box : Box) : Z :=
  match box with
  | [] => 0
  | m :: rest => fold_right (fun x acc => Z.min (channelOf c x) acc) (channelOf c m) rest
  end.

Definition channelMax (c : nat) (box : Box) : Z :=
  match box with
  | [] => 0
  | m :: rest => fold_right (fun x acc => Z.max (channelOf c x) acc) (channelOf c m) rest
  end.

Definition channelRange (c : nat) (box : Box) : Z :=
  channelMax c box - channelMin c box.

(** The split axis: the channel with the strictly largest range; on equal
    ranges the fixed priority R, then G, then B, then A. *)
Definition widestChannel (box : Box) : nat :=
  fold_left (fun best c =>
               if channelRange best box <? channelRange c box then c else best)
            [1%nat; 2%nat; 3%nat] 0%nat.

Fixpoint insertBy (c : nat) (m : PaletteColor * nat) (sorted : Box) : Box :=
  match sorted with
  | [] => [m]
  | x :: rest =>
    if channelOf c m <? channelOf c x then m :: sorted
    else x :: insertBy c m rest
  end.

Definition sortBy (c : nat) (box : Box) : Box :=
  fold_right (insertBy c) [] box.

(** Number of leading members holding less than half of the population. *)
Fixpoint medianIndex (half seen : nat) (sorted : Box) : nat :=
  match sorted with
  | [] => 0%nat
  | m :: rest =>
    if (half <=? seen + snd m)%nat then 0%nat
    else S (medianIndex half (seen + snd m)%nat rest)
  end.

(** Where a box with at least two members is cut, so that both parts keep
    at least one member. *)
Definition cutIndex (sorted : Box) : nat :=
  let k := S (medianIndex ((population sorted + 1) / 2)%nat 0%nat sorted) in
  Nat.min k (length sorted - 1)%nat.

Definition splitBox (box : Box) : option (Box * Box) :=
  if (length box <? 2)%nat then None
  else
    let sorted := sortBy (widestChannel box) box in
    let k := cutIndex sorted in
    Some (take k sorted, drop k sorted).

(** The box split next: the most populated one among those with at least
    two members, the first of them on equal populations. *)
Fixpoint nextBox (boxes : list Box) (i : nat) (best : option (nat * nat))
    : option nat :=
  match boxes with
  | [] => fst <$> best
  | box :: rest =>
    let best' :=
      if (length box <? 2)%nat then best
      else match best with
           | Some (_, pop) =>
             if (pop <? population box)%nat then Some (i, population box) else best
           | None => Some (i, population box)
           end in
    nextBox rest (S i) best'
  end.

Definition splitOne (boxes : list Box) : option (list Box) :=
  i ← nextBox boxes 0%nat None;
  box ← boxes !! i;
  halves ← splitBox box;
  Some (take i boxes ++ [fst halves; snd halves] ++ drop (S i) boxes).

Fixpoint reduceBoxes (fuel target : nat) (boxes : list Box) : list Box :=
  match fuel with
  | O => boxes
  | S fuel' =>
    if (length boxes <? target)%nat then
      match splitOne boxes with
      | Some boxes' => reduceBoxes fuel' target boxes'
      | None => boxes
      end
    else boxes
  end.

(** The frequency-weighted average of channel [c], rounded to nearest. *)
Definition weightedAverage (c : nat) (box : Box) : Z :=
  let total := Z.of_nat (population box) in
  let sum := fold_right (fun m acc => channelOf c m * Z.of_nat (snd m) + acc) 0 box in
  if total =? 0 then 0 else (2 * sum + total) / (2 * total).

Definition representative (channels : nat) (box : Box) : PaletteColor :=
  map (fun c => weightedAverage c box) (seq 0 channels).

(** [clearAlpha]: the alpha of a palette entry forced to 255. *)
Definition withClearAlpha (opts : Options) (color : PaletteColor) : PaletteColor :=
  if optClearAlpha opts
  then match color with
       | [r; g; b; _] => [r; g; b; 255]
       | _ => color
       end
  else color.

Definition channelCount (opts : Options) : nat :=
  match optFormat opts with
  | Rgb565 => if optOneBitAlpha opts then 4%nat else 3%nat
  | Rgba4444 => 4%nat
  end.

(** Modelled from the spec: [quantizePalette] of [@/lib/gifEncoder] is not
    among the sources.  Section 4.1 of the specification: a histogram of
    packed colours; when the distinct packed colours are at most
    [targetColors] the palette is exactly those colours, decoded; otherwise
    boxes are split along their widest channel at the frequency-weighted
    median until there are [targetColors] of them, and each box is
    represented by the frequency-weighted average of its members. *)
Definition quantizePalette (pixels : list Rgba) (targetColors : Z) (opts : Options)
    : list PaletteColor :=
  let hist := histogram opts pixels in
  let target := Z.to_nat targetColors in
  if (length hist <=? target)%nat
  then map (fun entry => withClearAlpha opts (unpack opts (fst entry))) hist
  else
    let members : Box := map (fun entry => (unpack opts (fst entry), snd entry)) hist in
    let boxes := reduceBoxes target target [members] in
    map (fun box => withClearAlpha opts (representative (channelCount opts) box)) boxes.

End Quantizer.

(* ===================================================================== *)
(** ** Mime types and accepted input files *)
(* ===================================================================== *)


(** [getMimeType]. *)
Definition getMimeType (format : OutputFormat) : string :=
  match format with
  | Gif => "image/gif"
  | Png => "image/png"
  | Jpeg => "image/jpeg"
  | Webp => "image/webp"
  end.

Definition supportedInputMimeTypes : list string :=
  ["image/jpeg"; "image/jpg"; "image/png"; "image/webp"; "image/gif";
   "image/svg+xml"; "image/x-icon"].

Definition supportedInputExtensions : list string :=
  ["jpeg"; "jpg"; "png"; "gif"; "webp"; "svg"; "ico"].

(** [toLowerCase] on strings of 8-bit characters: the letters A to Z are
    lowered, every other character is kept. *)
Definition lowerChar (c : ascii) : ascii :=
  let n := nat_of_ascii c in
  if (65 <=? n)%nat && (n <=? 90)%nat then ascii_of_nat (n + 32) else c.

Fixpoint toLowerCase (s : string) : string :=
  match s with
  | EmptyString => EmptyString
  | String c rest => String (lowerChar c) (toLowerCase rest)
  end.

(** [s.split(".").pop()]: what follows the last dot, the whole string when
    it has none.  [acc] is the segment read so far. *)
Fixpoint lastSegmentFrom (acc s : string) : string :=
  match s with
  | EmptyString => acc
  | String c rest =>
    if Ascii.eqb c "."%char then lastSegmentFrom EmptyString rest
    else lastSegmentFrom (acc +:+ String c EmptyString) rest
  end.

Definition lastSegment (s : string) : string := lastSegmentFrom EmptyString s.

Definition includesString (l : list string) (s : string) : bool :=
  existsb (String.eqb s) l.

Definition isSupportedInputFile (file : File) : bool :=
  let type := toLowerCase (fileType file) in
  if negb (String.eqb type "") && includesString supportedInputMimeTypes type
  then true
  else
    let extension := toLowerCase (lastSegment (fileName file)) in
    (0 <? String.length extension)%nat &&
    includesString supportedInputExtensions extension.

(* ===================================================================== *)
(** ** Kinds of events in a conversion trace *)
(* ===================================================================== *)

Definition isRelease (e : Event) : bool :=
  match e with EvRelease => true | _ => false end.

Definition isCreateObjectURL (e : Event) : bool :=
  match e with EvCreateObjectURL => true | _ => false end.

Definition isLossyEvent (e : Event) : bool :=
  match e with EvApplyBoost | EvEncodeCanvas _ _ => true | _ => false end.

Definition isPaletteEvent (e : Event) : bool :=
  match e with
  | EvConvertGifWithOptions | EvConvertPng | EvQuantizePalette _
  | EvApplyPaletteMapping | EvUpngEncode _ => true
  | _ => false
  end.


(** The priority [getDefaultOutputFormat] applies to a support record. *)
Definition preferredFormat (support : OutputFormatSupport) : OutputFormat :=
  if webp support then Webp else if jpeg support then Jpeg else Png.

(** The palette and the indices [reduceColors] works with: the answers of
    the quantizer and of the mapper to the calls it makes. *)
Definition reductionPalette {codecs : Codecs} (source : list Z) (targetColors : Z)
    (preserveAlpha : bool) : list PaletteColor :=
  quantizePalette source targetColors
    {| format := if preserveAlpha then Rgba4444 else Rgb565;
       oneBitAlpha := if preserveAlpha then None else Some true;
       clearAlpha := Some true |}.

Definition reductionIndices {codecs : Codecs} (source : list Z) (targetColors : Z)
    (preserveAlpha : bool) : list nat :=
  applyPaletteMapping source (reductionPalette source targetColors preserveAlpha)
    (if preserveAlpha then Rgba4444 else Rgb565).

(* ===================================================================== *)
(** ** HDR detection: [src/lib/hdrDetection.ts] *)
(* ===================================================================== *)

(** [guessMimeType]; [None] is [null]. *)
Definition guessMimeType (file : File) : option string :=
  if negb (String.eqb (fileType file) "") then
    if String.eqb (fileType file) "image/jpg" then Some "image/jpeg"
    else Some (fileType file)
  else
    let extension := toLowerCase (lastSegment (fileName file)) in
    if String.eqb extension "" then None
    else if String.eqb extension "jpg" || String.eqb extension "jpeg"
    then Some "image/jpeg"
    else if String.eqb extension "avif" then Some "image/avif"
    else if String.eqb extension "png" then Some "image/png"
    else if String.eqb extension "webp" then Some "image/webp"
    else if String.eqb extension "gif" then Some "image/gif"
    else if String.eqb extension "svg" then Some "image/svg+xml"
    else if String.eqb extension "ico" then Some "image/x-icon"
    else None.

(** A [VideoColorSpace]: each member may be [null]. *)
Record VideoColorSpace : Type := mkColorSpace {
  primaries : option string;
  transfer : option string
}.

Definition HDR_TRANSFERS : list string := ["smpte2084"; "arib-std-b67"].

(** A string or [null] used as a condition: [null] and the empty string
    are falsy. *)
Definition truthy (s : option string) : bool :=
  match s with
  | Some t => negb (String.eqb t "")
  | None => false
  end.

Definition optionIs (s : option string) (t : string) : bool :=
  match s with
  | Some u => String.eqb u t
  | None => false
  end.

(** [shouldFlagHdr]; the argument is [None] for [undefined]. *)
Definition shouldFlagHdr (colorSpace : option VideoColorSpace) : bool :=
  match colorSpace with
  | None => false
  | Some cs =>
    if existsb (optionIs (transfer cs)) HDR_TRANSFERS then true
    else if optionIs (primaries cs) "bt2020" && truthy (transfer cs)
            && negb (optionIs (transfer cs) "bt709")
    then true
    else false
  end.

Definition APP1 : Z := 225.
Definition APP11 : Z := 235.

Definition MAX_SEGMENT_SCAN : Z := 64 * 1024.

Definition HDR_SIGNATURES : list string :=
  ["hdrgm"; "hdr gain map"; "hdrgainmap"; "gain map 1"; "gain map 2";
   "hdrgainmaptype"; "urn:com:apple:photo:hdrgainmap";
   "com.apple.photo.hdrgainmap"].

(** The character codes of a string. *)
Definition codesOf (s : string) : list Z :=
  map (fun c => Z.of_nat (nat_of_ascii c)) (String.list_ascii_of_string s).

(** [textDecoder.decode(bytes).toLowerCase()], character by character: a
    byte that holds a letter A to Z becomes the code of the small letter.
    Every other byte decodes to a character that lower-casing leaves
    outside the ASCII range or unchanged, so it keeps its code here; the
    signatures searched for are ASCII. *)
Definition lowerByte (b : Z) : Z :=
  if (65 <=? b) && (b <=? 90) then b + 32 else b.

Fixpoint startsWith (needle hay : list Z) : bool :=
  match needle, hay with
  | [], _ => true
  | n :: needle', h :: hay' => (n =? h) && startsWith needle' hay'
  | _ :: _, [] => false
  end.

(** [hay.includes(needle)]. *)
Fixpoint includes (hay needle : list Z) : bool :=
  startsWith needle hay ||
  match hay with
  | [] => false
  | _ :: hay' => includes hay' needle
  end.

(** The scan with a [TextDecoder]:
    [HDR_SIGNATURES.some((sig) => ascii.includes(sig))]. *)
Definition textScan (bytes : list Z) : bool :=
  let ascii := map lowerByte bytes in
  existsb (fun sig => includes ascii (codesOf sig)) HDR_SIGNATURES.

(** [bytes[i] | 0x20]; past the end [undefined | 0x20] is [0x20]. *)
Definition orSpace (bytes : list Z) (i : nat) : Z :=
  Z.lor (default 0 (bytes !! i)) 32.

(** The scan without a [TextDecoder]: the loop
    [for (let i = 0; i <= bytes.length - 5; i++)] looking for "hdrgm". *)
Fixpoint manualScanFrom (fuel i : nat) (bytes : list Z) : bool :=
  match fuel with
  | O => false
  | S fuel' =>
    if (i + 5 <=? length bytes)%nat then
      if (orSpace bytes i =? 104) && (orSpace bytes (i + 1) =? 100)
         && (orSpace bytes (i + 2) =? 114) && (orSpace bytes (i + 3) =? 103)
         && (orSpace bytes (i + 4) =? 109)
      then true
      else manualScanFrom fuel' (i + 1) bytes
    else false
  end.

Definition manualScan (bytes : list Z) : bool :=
  manualScanFrom (length bytes) 0 bytes.

Definition scanBytes (textDecoder : bool) (bytes : list Z) : bool :=
  if textDecoder then textScan bytes else manualScan bytes.

(** [segmentContainsHdrSignature]; [None] is the [RangeError] thrown by
    [new Uint8Array(data, payloadStart, sliceLength)] when the view does
    not fit in the buffer or its length is negative. *)
Definition segmentContainsHdrSignature (textDecoder : bool) (data : list Z)
    (payloadStart payloadEnd : nat) : option bool :=
  if (payloadEnd <? payloadStart)%nat then None
  else
    let length := (payloadEnd - payloadStart)%nat in
    let sliceLength := Z.to_nat (Z.min (Z.of_nat length) MAX_SEGMENT_SCAN) in
    if (payloadStart + sliceLength <=? List.length data)%nat
    then Some (scanBytes textDecoder (take sliceLength (drop payloadStart data)))
    else None.

(** [view.getUint16(offset)], big-endian; [None] is a [RangeError]. *)
Definition getUint16 (data : list Z) (offset : nat) : option Z :=
  match data !! offset, data !! (offset + 1)%nat with
  | Some hi, Some lo => Some (hi * 256 + lo)
  | _, _ => None
  end.

(** The loop [while (marker === 0xff && offset < length)] that skips fill
    bytes; [rest] is the data from [offset] on. *)
Fixpoint skipFill (rest : list Z) (marker : Z) (offset : nat) : Z * nat :=
  match rest with
  | [] => (marker, offset)
  | next :: rest' =>
    if marker =? 255 then skipFill rest' next (S offset) else (marker, offset)
  end.

(** How the walk over the segments ends. *)
Inductive SegmentWalk : Type :=
| Found          (* [return true] from inside the loop *)
| Finished       (* the loop ends or breaks *)
| WalkThrows     (* a [RangeError] *)
| WalkOutOfFuel.

(** The loop [while (offset + 4 <= length)] of [hasJpegHdrGainMap]. *)
Fixpoint walkSegments (textDecoder : bool) (data : list Z) (fuel offset : nat)
    : SegmentWalk :=
  match fuel with
  | O => WalkOutOfFuel
  | S fuel' =>
    if (offset + 4 <=? length data)%nat then
      match data !! offset with
      | None => WalkThrows
      | Some markerPrefix =>
        if negb (markerPrefix =? 255)
        then walkSegments textDecoder data fuel' (offset + 1)
        else
          match data !! (offset + 1)%nat with
          | None => WalkThrows
          | Some marker =>
            let '(marker, offset) :=
              skipFill (drop (offset + 2) data) marker (offset + 2) in
            if (marker =? 217) || (marker =? 218) then Finished
            else
              match getUint16 data offset with
              | None => WalkThrows
              | Some segmentLength =>
                let offset := (offset + 2)%nat in
                if (segmentLength <? 2)
                   || (Z.of_nat (length data) <? Z.of_nat offset + segmentLength - 2)
                then Finished
                else
                  let payloadStart := offset in
                  let payloadEnd := Z.to_nat (Z.of_nat offset + segmentLength - 2) in
                  if (marker =? APP11) || (marker =? APP1) then
                    match segmentContainsHdrSignature textDecoder data
                            payloadStart payloadEnd with
                    | None => WalkThrows
                    | Some true => Found
                    | Some false => walkSegments textDecoder data fuel' payloadEnd
                    end
                  else walkSegments textDecoder data fuel' payloadEnd
              end
          end
      end
    else Finished
  end.

(** What a call of [hasJpegHdrGainMap] does. *)
Inductive GainMapResult : Type :=
| Returns (answer : bool)
| ThrowsRangeError
| OutOfFuel.

Definition isJpegData (data : list Z) (mimeType : option string) : bool :=
  match mimeType with
  | Some m => String.prefix "image/jpeg" m
  | None => false
  end
  || ((2 <=? length data)%nat &&
      match getUint16 data 0 with
      | Some soi => soi =? 65496
      | None => false
      end).

(** [hasJpegHdrGainMap]; [textDecoder] tells whether the module found a
    [TextDecoder] in the host. *)
Definition hasJpegHdrGainMap (textDecoder : bool) (data : list Z)
    (mimeType : option string) : GainMapResult :=
  if negb (isJpegData data mimeType) then Returns false
  else
    match walkSegments textDecoder data (S (length data)) 2 with
    | Found => Returns true
    | WalkThrows => ThrowsRangeError
    | WalkOutOfFuel => OutOfFuel
    | Finished =>
      let broadScanLength := Z.to_nat (Z.min (Z.of_nat (length data)) 1500000) in
      let broadSlice := take broadScanLength data in
      Returns (scanBytes textDecoder broadSlice)
    end.

(** Whether two bytes 0xFF follow each other somewhere in the data: fill
    bytes before a marker. *)
Fixpoint hasAdjacentFill (data : list Z) : bool :=
  match data with
  | a :: (b :: _) as rest => ((a =? 255) && (b =? 255)) || hasAdjacentFill rest
  | _ => false
  end.


(* ===================================================================== *)
(** ** The conversion controller: [src/types/conversion.ts] and
       [src/hooks/useConversionController.ts] *)
(* ===================================================================== *)

Definition defaultQuality (format : OutputFormat) : num :=
  match format with
  | Jpeg => 82
  | Webp => 78
  | Gif => 90
  | Png => 100
  end.

Definition createDefaultGifOptions : GifConversionOptions :=
  {| gifColorCount := 128; gifDithering := DitherNone; gifPreserveAlpha := true;
     gifBackgroundColor := "#ffffff"; gifLoopCount := 0 |}.

Definition createDefaultPngOptions : PngConversionOptions :=
  {| pngColorCount := 256; pngReduceColors := false; pngPreserveAlpha := true;
     pngBackgroundColor := "#ffffff"; pngInterlaced := false |}.

Definition createDefaultBoost : BoostSettings :=
  {| exposure := 0; saturation := 1; contrast := 1; brightness := 0 |}.

Inductive ItemStatus : Type :=
| StatusIdle | StatusProcessing | StatusDone | StatusError.

(** A [ConversionItem].  Optional members are options; [version] counts
    up from 1 by steps of 1 and is kept as an integer. *)
Record ConversionItem : Type := mkItem {
  itemId : string;
  itemFile : File;
  originalUrl : string;
  originalSize : Z;
  convertedUrl : option string;
  convertedBlob : option Blob;
  status : ItemStatus;
  targetFormat : OutputFormat;
  quality : num;
  usesGlobalQuality : bool;
  usesGlobalFormat : bool;
  gifOptions : GifConversionOptions;
  pngOptions : PngConversionOptions;
  itemBoost : BoostSettings;
  itemError : option string;
  compareSplit : num;
  itemWidth : option Z;
  itemHeight : option Z;
  isHdr : option bool;
  version : Z
}.

Definition formatUsesQuality (format : OutputFormat) : bool :=
  match format with
  | Jpeg | Webp => true
  | Png | Gif => false
  end.

(** [a === b] on output formats and on dithering modes. *)
Definition sameFormat (a b : OutputFormat) : bool :=
  match a, b with
  | Jpeg, Jpeg | Png, Png | Webp, Webp | Gif, Gif => true
  | _, _ => false
  end.

Definition sameDithering (a b : GifDitheringMode) : bool :=
  match a, b with
  | DitherNone, DitherNone | FloydSteinberg, FloydSteinberg => true
  | _, _ => false
  end.

Definition cloneGifOptions (options : GifConversionOptions) : GifConversionOptions :=
  {| gifColorCount := gifColorCount options;
     gifDithering := gifDithering options;
     gifPreserveAlpha := gifPreserveAlpha options;
     gifBackgroundColor := gifBackgroundColor options;
     gifLoopCount := gifLoopCount options |}.

Definition clonePngOptions (options : PngConversionOptions) : PngConversionOptions :=
  {| pngColorCount := pngColorCount options;
     pngReduceColors := pngReduceColors options;
     pngPreserveAlpha := pngPreserveAlpha options;
     pngBackgroundColor := pngBackgroundColor options;
     pngInterlaced := pngInterlaced options |}.

Definition isGifOptionsEqual (a b : GifConversionOptions) : bool :=
  (gifColorCount a =? gifColorCount b)
  && sameDithering (gifDithering a) (gifDithering b)
  && Bool.eqb (gifPreserveAlpha a) (gifPreserveAlpha b)
  && String.eqb (gifBackgroundColor a) (gifBackgroundColor b)
  && (gifLoopCount a =? gifLoopCount b).

Definition isPngOptionsEqual (a b : PngConversionOptions) : bool :=
  (pngColorCount a =? pngColorCount b)
  && Bool.eqb (pngReduceColors a) (pngReduceColors b)
  && Bool.eqb (pngPreserveAlpha a) (pngPreserveAlpha b)
  && String.eqb (pngBackgroundColor a) (pngBackgroundColor b)
  && Bool.eqb (pngInterlaced a) (pngInterlaced b).

(** [Partial<GifConversionOptions>] and the like: a member that is absent
    is [None]. *)
Record PartialGifOptions : Type := mkPartialGif {
  newGifColorCount : option Z;
  newGifDithering : option GifDitheringMode;
  newGifPreserveAlpha : option bool;
  newGifBackgroundColor : option string;
  newGifLoopCount : option Z
}.

Record PartialPngOptions : Type := mkPartialPng {
  newPngColorCount : option Z;
  newPngReduceColors : option bool;
  newPngPreserveAlpha : option bool;
  newPngBackgroundColor : option string;
  newPngInterlaced : option bool
}.

Record PartialBoost : Type := mkPartialBoost {
  newExposure : option num;
  newSaturation : option num;
  newContrast : option num;
  newBrightness : option num
}.

(** [{ ...options, ...changes }]. *)
Definition mergeGifOptions (options : GifConversionOptions)
    (changes : PartialGifOptions) : GifConversionOptions :=
  {| gifColorCount := default (gifColorCount options) (newGifColorCount changes);
     gifDithering := default (gifDithering options) (newGifDithering changes);
     gifPreserveAlpha := default (gifPreserveAlpha options) (newGifPreserveAlpha changes);
     gifBackgroundColor :=
       default (gifBackgroundColor options) (newGifBackgroundColor changes);
     gifLoopCount := default (gifLoopCount options) (newGifLoopCount changes) |}.

Definition mergePngOptions (options : PngConversionOptions)
    (changes : PartialPngOptions) : PngConversionOptions :=
  {| pngColorCount := default (pngColorCount options) (newPngColorCount changes);
     pngReduceColors := default (pngReduceColors options) (newPngReduceColors changes);
     pngPreserveAlpha := default (pngPreserveAlpha options) (newPngPreserveAlpha changes);
     pngBackgroundColor :=
       default (pngBackgroundColor options) (newPngBackgroundColor changes);
     pngInterlaced := default (pngInterlaced options) (newPngInterlaced changes) |}.

Definition mergeBoost (options : BoostSettings) (changes : PartialBoost)
    : BoostSettings :=
  {| exposure := default (exposure options) (newExposure changes);
     saturation := default (saturation options) (newSaturation changes);
     contrast := default (contrast options) (newContrast changes);
     brightness := default (brightness options) (newBrightness changes) |}.

(** The members of a [ConversionItem] that the overrides of this file
    set. *)
Record Overrides : Type := mkOverrides {
  setTargetFormat : option OutputFormat;
  setQuality : option num;
  setUsesGlobalQuality : option bool;
  setUsesGlobalFormat : option bool;
  setGifOptions : option GifConversionOptions;
  setPngOptions : option PngConversionOptions;
  setBoost : option BoostSettings
}.

Definition noOverrides : Overrides :=
  {| setTargetFormat := None; setQuality := None; setUsesGlobalQuality := None;
     setUsesGlobalFormat := None; setGifOptions := None; setPngOptions := None;
     setBoost := None |}.

(** [createProcessingUpdate]. *)
Definition createProcessingUpdate (item : ConversionItem) (overrides : Overrides)
    : ConversionItem :=
  {| itemId := itemId item;
     itemFile := itemFile item;
     originalUrl := originalUrl item;
     originalSize := originalSize item;
     convertedUrl := convertedUrl item;
     convertedBlob := convertedBlob item;
     status := StatusProcessing;
     targetFormat := default (targetFormat item) (setTargetFormat overrides);
     quality := default (quality item) (setQuality overrides);
     usesGlobalQuality := default (usesGlobalQuality item) (setUsesGlobalQuality overrides);
     usesGlobalFormat := default (usesGlobalFormat item) (setUsesGlobalFormat overrides);
     gifOptions := default (gifOptions item) (setGifOptions overrides);
     pngOptions := default (pngOptions item) (setPngOptions overrides);
     itemBoost := default (itemBoost item) (setBoost overrides);
     itemError := None;
     compareSplit := compareSplit item;
     itemWidth := itemWidth item;
     itemHeight := itemHeight item;
     isHdr := isHdr item;
     version := version item + 1 |}.

(** The item a successful conversion leaves. *)
Definition withResult (item : ConversionItem) (result : ConversionResult)
    : ConversionItem :=
  {| itemId := itemId item;
     itemFile := itemFile item;
     originalUrl := originalUrl item;
     originalSize := originalSize item;
     convertedUrl := Some (url result);
     convertedBlob := Some (blob result);
     status := StatusDone;
     targetFormat := targetFormat item;
     quality := quality item;
     usesGlobalQuality := usesGlobalQuality item;
     usesGlobalFormat := usesGlobalFormat item;
     gifOptions := gifOptions item;
     pngOptions := pngOptions item;
     itemBoost := itemBoost item;
     itemError := itemError item;
     compareSplit := compareSplit item;
     itemWidth := Some (width result);
     itemHeight := Some (height result);
     isHdr := isHdr item;
     version := version item |}.

(** The item a failed conversion leaves. *)
Definition withError (item : ConversionItem) (message : string) : ConversionItem :=
  {| itemId := itemId item;
     itemFile := itemFile item;
     originalUrl := originalUrl item;
     originalSize := originalSize item;
     convertedUrl := convertedUrl item;
     convertedBlob := convertedBlob item;
     status := StatusError;
     targetFormat := targetFormat item;
     quality := quality item;
     usesGlobalQuality := usesGlobalQuality item;
     usesGlobalFormat := usesGlobalFormat item;
     gifOptions := gifOptions item;
     pngOptions := pngOptions item;
     itemBoost := itemBoost item;
     itemError := Some message;
     compareSplit := compareSplit item;
     itemWidth := itemWidth item;
     itemHeight := itemHeight item;
     isHdr := isHdr item;
     version := version item |}.

Definition withHdr (item : ConversionItem) (flag : bool) : ConversionItem :=
  {| itemId := itemId item;
     itemFile := itemFile item;
     originalUrl := originalUrl item;
     originalSize := originalSize item;
     convertedUrl := convertedUrl item;
     convertedBlob := convertedBlob item;
     status := status item;
     targetFormat := targetFormat item;
     quality := quality item;
     usesGlobalQuality := usesGlobalQuality item;
     usesGlobalFormat := usesGlobalFormat item;
     gifOptions := gifOptions item;
     pngOptions := pngOptions item;
     itemBoost := itemBoost item;
     itemError := itemError item;
     compareSplit := compareSplit item;
     itemWidth := itemWidth item;
     itemHeight := itemHeight item;
     isHdr := Some flag;
     version := version item |}.

Definition withoutGlobals (item : ConversionItem) : ConversionItem :=
  {| itemId := itemId item;
     itemFile := itemFile item;
     originalUrl := originalUrl item;
     originalSize := originalSize item;
     convertedUrl := convertedUrl item;
     convertedBlob := convertedBlob item;
     status := status item;
     targetFormat := targetFormat item;
     quality := quality item;
     usesGlobalQuality := false;
     usesGlobalFormat := false;
     gifOptions := gifOptions item;
     pngOptions := pngOptions item;
     itemBoost := itemBoost item;
     itemError := itemError item;
     compareSplit := compareSplit item;
     itemWidth := itemWidth item;
     itemHeight := itemHeight item;
     isHdr := isHdr item;
     version := version item |}.

Definition withSplit (item : ConversionItem) (value : num) : ConversionItem :=
  {| itemId := itemId item;
     itemFile := itemFile item;
     originalUrl := originalUrl item;
     originalSize := originalSize item;
     convertedUrl := convertedUrl item;
     convertedBlob := convertedBlob item;
     status := status item;
     targetFormat := targetFormat item;
     quality := quality item;
     usesGlobalQuality := usesGlobalQuality item;
     usesGlobalFormat := usesGlobalFormat item;
     gifOptions := gifOptions item;
     pngOptions := pngOptions item;
     itemBoost := itemBoost item;
     itemError := itemError item;
     compareSplit := value;
     itemWidth := itemWidth item;
     itemHeight := itemHeight item;
     isHdr := isHdr item;
     version := version item |}.

(** An entry of a [FileList]: the file and its [size], a number of bytes. *)
Record Upload : Type := mkUpload {
  uploadFile : File;
  uploadSize : N
}.

(** What the hook imports from [@/lib/uploadLimits] and [@/lib/utils], and
    the host's [URL.createObjectURL] on files; [createId] and
    [fileObjectURL] give the answer to the [n]-th call. *)
Class Surroundings : Type := mkSurroundings {
  MAX_FILE_BYTES : Z;
  MAX_TOTAL_BYTES : Z;
  formatBytes : Z -> string;
  createId : nat -> string;
  fileObjectURL : nat -> string
}.

(** The state of the hook.  Each handler below runs on the state of the
    latest render: [itemsRef.current] is [items], and an updater given to
    a state setter is applied before the next handler runs.  Beside the
    React state, [pending] holds the jobs given to [queueConversion] whose
    [runConversion] has not settled, [detections] the HDR detections
    queued and not settled, [revoked] the URLs given to
    [URL.revokeObjectURL], and [filesTaken] counts the files taken in. *)
Record Controller : Type := mkController {
  items : list ConversionItem;
  globalFormat : OutputFormat;
  globalQuality : num;
  globalGifOptions : GifConversionOptions;
  globalPngOptions : PngConversionOptions;
  uploadError : option string;
  pending : list ConversionItem;
  detections : list (string * File);
  revoked : list string;
  filesTaken : nat
}.

Definition setItems (next : list ConversionItem) (c : Controller) : Controller :=
  {| items := next; globalFormat := globalFormat c; globalQuality := globalQuality c;
     globalGifOptions := globalGifOptions c; globalPngOptions := globalPngOptions c;
     uploadError := uploadError c; pending := pending c;
     detections := detections c; revoked := revoked c; filesTaken := filesTaken c |}.

Definition setGlobalFormat (format : OutputFormat) (c : Controller) : Controller :=
  {| items := items c; globalFormat := format; globalQuality := globalQuality c;
     globalGifOptions := globalGifOptions c; globalPngOptions := globalPngOptions c;
     uploadError := uploadError c; pending := pending c;
     detections := detections c; revoked := revoked c; filesTaken := filesTaken c |}.

Definition setGlobalQuality (value : num) (c : Controller) : Controller :=
  {| items := items c; globalFormat := globalFormat c; globalQuality := value;
     globalGifOptions := globalGifOptions c; globalPngOptions := globalPngOptions c;
     uploadError := uploadError c; pending := pending c;
     detections := detections c; revoked := revoked c; filesTaken := filesTaken c |}.

Definition setGlobalGifOptions (options : GifConversionOptions) (c : Controller)
    : Controller :=
  {| items := items c; globalFormat := globalFormat c; globalQuality := globalQuality c;
     globalGifOptions := options; globalPngOptions := globalPngOptions c;
     uploadError := uploadError c; pending := pending c;
     detections := detections c; revoked := revoked c; filesTaken := filesTaken c |}.

Definition setGlobalPngOptions (options : PngConversionOptions) (c : Controller)
    : Controller :=
  {| items := items c; globalFormat := globalFormat c; globalQuality := globalQuality c;
     globalGifOptions := globalGifOptions c; globalPngOptions := options;
     uploadError := uploadError c; pending := pending c;
     detections := detections c; revoked := revoked c; filesTaken := filesTaken c |}.

Definition setUploadError (message : option string) (c : Controller) : Controller :=
  {| items := items c; globalFormat := globalFormat c; globalQuality := globalQuality c;
     globalGifOptions := globalGifOptions c; globalPngOptions := globalPngOptions c;
     uploadError := message; pending := pending c;
     detections := detections c; revoked := revoked c; filesTaken := filesTaken c |}.

Definition setPending (jobs : list ConversionItem) (c : Controller) : Controller :=
  {| items := items c; globalFormat := globalFormat c; globalQuality := globalQuality c;
     globalGifOptions := globalGifOptions c; globalPngOptions := globalPngOptions c;
     uploadError := uploadError c; pending := jobs;
     detections := detections c; revoked := revoked c; filesTaken := filesTaken c |}.

Definition setDetections (queued : list (string * File)) (c : Controller)
    : Controller :=
  {| items := items c; globalFormat := globalFormat c; globalQuality := globalQuality c;
     globalGifOptions := globalGifOptions c; globalPngOptions := globalPngOptions c;
     uploadError := uploadError c; pending := pending c;
     detections := queued; revoked := revoked c; filesTaken := filesTaken c |}.

Definition setFilesTaken (n : nat) (c : Controller) : Controller :=
  {| items := items c; globalFormat := globalFormat c; globalQuality := globalQuality c;
     globalGifOptions := globalGifOptions c; globalPngOptions := globalPngOptions c;
     uploadError := uploadError c; pending := pending c;
     detections := detections c; revoked := revoked c; filesTaken := n |}.

(** Calls of [URL.revokeObjectURL], in order. *)
Definition revokeObjectURLs (urls : list string) (c : Controller) : Controller :=
  {| items := items c; globalFormat := globalFormat c; globalQuality := globalQuality c;
     globalGifOptions := globalGifOptions c; globalPngOptions := globalPngOptions c;
     uploadError := uploadError c; pending := pending c;
     detections := detections c; revoked := revoked c ++ urls;
     filesTaken := filesTaken c |}.

(** Calls of [queueConversion], in order. *)
Definition queueConversions (jobs : list ConversionItem) (c : Controller)
    : Controller :=
  setPending (pending c ++ jobs) c.

(** The hook at its first render. *)
Definition initialController (host : Host) (st : ModuleState) : Controller :=
  let '(_, st) := getOutputFormatSupport host st in
  let '(format, st) := getDefaultOutputFormat host st in
  let '(qualityFormat, _) := getDefaultOutputFormat host st in
  {| items := []; globalFormat := format;
     globalQuality := defaultQuality qualityFormat;
     globalGifOptions := createDefaultGifOptions;
     globalPngOptions := createDefaultPngOptions;
     uploadError := None; pending := []; detections := []; revoked := [];
     filesTaken := 0 |}.

(** The URLs [releaseResources] revokes. *)
Definition releaseResources (item : ConversionItem) : list string :=
  originalUrl item ::
  (if truthy (convertedUrl item) then [default EmptyString (convertedUrl item)] else []).

(** [prev.map] with an updater that either keeps an item or replaces it
    and gives the replacement to [queueConversion]. *)
Definition requeue (update : ConversionItem -> option ConversionItem)
    (c : Controller) : Controller :=
  queueConversions (omap update (items c))
    (setItems (map (fun item => default item (update item)) (items c)) c).

Definition optionIsNot (s : option string) (t : string) : bool :=
  match s with
  | Some u => negb (String.eqb u t)
  | None => true
  end.

(** What [runConversion] does once [convertImage] has settled with
    [outcome]: its result, or the message the [catch] block computes from
    the error. *)
Definition settle (job : ConversionItem) (outcome : string + ConversionResult)
    (c : Controller) : Controller :=
  let jobVersion := version job in
  let matches (item : ConversionItem) :=
    String.eqb (itemId item) (itemId job) && (version item =? jobVersion) in
  match outcome with
  | inr result =>
    let replaced :=
      omap (fun item =>
              if matches item && truthy (convertedUrl item)
                 && optionIsNot (convertedUrl item) (url result)
              then convertedUrl item else None) (items c) in
    let applied := existsb matches (items c) in
    let next :=
      map (fun item => if matches item then withResult item result else item)
          (items c) in
    revokeObjectURLs (if applied then [] else [url result])
      (revokeObjectURLs replaced (setItems next c))
  | inl message =>
    setItems
      (map (fun item => if matches item then withError item message else item)
           (items c)) c
  end.

(** [scheduleConversion]; overrides given as an object are the constant
    function. *)
Definition scheduleConversion (id : string)
    (overrides : ConversionItem -> Overrides) (c : Controller) : Controller :=
  requeue (fun item =>
             if negb (String.eqb (itemId item) id) then None
             else Some (createProcessingUpdate item (overrides item))) c.

(** [setHdrFlag]. *)
Definition setHdrFlag (id : string) (flag : bool) (c : Controller) : Controller :=
  setItems
    (map (fun item =>
            if negb (String.eqb (itemId item) id) then item
            else withHdr item flag) (items c)) c.

Definition findItem (id : string) (l : list ConversionItem) : option ConversionItem :=
  find (fun item => String.eqb (itemId item) id) l.

Section Controller.

Context {surroundings : Surroundings}.

(** The four lists the loop of [handleFiles] fills, and its running
    total. *)
Record Intake : Type := mkIntake {
  additions : list ConversionItem;
  unsupportedFiles : list string;
  tooLargeFiles : list string;
  oversizedFiles : list string;
  runningTotal : Z
}.

(** One turn of the loop [for (const file of files)]. *)
Definition takeFile (c : Controller) (acc : Intake) (file : Upload) : Intake :=
  if negb (isSupportedInputFile (uploadFile file)) then
    {| additions := additions acc;
       unsupportedFiles := unsupportedFiles acc ++ [fileName (uploadFile file)];
       tooLargeFiles := tooLargeFiles acc;
       oversizedFiles := oversizedFiles acc;
       runningTotal := runningTotal acc |}
  else if MAX_FILE_BYTES <? Z.of_N (uploadSize file) then
    {| additions := additions acc;
       unsupportedFiles := unsupportedFiles acc;
       tooLargeFiles := tooLargeFiles acc ++ [fileName (uploadFile file)];
       oversizedFiles := oversizedFiles acc;
       runningTotal := runningTotal acc |}
  else if MAX_TOTAL_BYTES <? runningTotal acc + Z.of_N (uploadSize file) then
    {| additions := additions acc;
       unsupportedFiles := unsupportedFiles acc;
       tooLargeFiles := tooLargeFiles acc;
       oversizedFiles := oversizedFiles acc ++ [fileName (uploadFile file)];
       runningTotal := runningTotal acc |}
  else
    let call := (filesTaken c + length (additions acc))%nat in
    let targetFormat := globalFormat c in
    let usesGlobalQuality := formatUsesQuality targetFormat in
    let quality :=
      if usesGlobalQuality then globalQuality c else defaultQuality targetFormat in
    let job :=
      {| itemId := createId call;
         itemFile := uploadFile file;
         originalUrl := fileObjectURL call;
         originalSize := Z.of_N (uploadSize file);
         convertedUrl := None;
         convertedBlob := None;
         status := StatusProcessing;
         targetFormat := targetFormat;
         quality := quality;
         usesGlobalQuality := usesGlobalQuality;
         usesGlobalFormat := true;
         gifOptions := cloneGifOptions (globalGifOptions c);
         pngOptions := clonePngOptions (globalPngOptions c);
         itemBoost := createDefaultBoost;
         itemError := None;
         compareSplit := 50;
         itemWidth := None;
         itemHeight := None;
         isHdr := None;
         version := 1 |} in
    {| additions := additions acc ++ [job];
       unsupportedFiles := unsupportedFiles acc;
       tooLargeFiles := tooLargeFiles acc;
       oversizedFiles := oversizedFiles acc;
       runningTotal := runningTotal acc + Z.of_N (uploadSize file) |}.

Definition totalSize (l : list ConversionItem) : Z :=
  fold_left (fun acc item => acc + originalSize item) l 0.

Definition intake (c : Controller) (files : list Upload) : Intake :=
  fold_left (takeFile c) files
    {| additions := []; unsupportedFiles := []; tooLargeFiles := [];
       oversizedFiles := []; runningTotal := totalSize (items c) |}.

Definition quoted (s : string) : string :=
  String (ascii_of_nat 34) s +:+ String (ascii_of_nat 34) EmptyString.

(** The messages of [handleFiles]. *)
Definition uploadMessages (acc : Intake) : list string :=
  (match unsupportedFiles acc with
   | [] => []
   | [name] => ["Le format du fichier " +:+ quoted name +:+ " n'est pas supporté."]
   | names =>
     ["Les formats des fichiers suivants ne sont pas supportés : "
        +:+ String.concat ", " names +:+ "."]
   end) ++
  (match tooLargeFiles acc with
   | [] => []
   | [name] =>
     ["Impossible d'ajouter " +:+ quoted name +:+ " car il dépasse "
        +:+ formatBytes MAX_FILE_BYTES +:+ "."]
   | names =>
     ["Impossible d'ajouter ces fichiers (" +:+ String.concat ", " names
        +:+ ") car chacun dépasse " +:+ formatBytes MAX_FILE_BYTES +:+ "."]
   end) ++
  (match oversizedFiles acc with
   | [] => []
   | [name] =>
     ["Impossible d'ajouter " +:+ quoted name
        +:+ " car la taille totale dépasserait "
        +:+ formatBytes MAX_TOTAL_BYTES +:+ "."]
   | names =>
     ["Impossible d'ajouter ces fichiers (" +:+ String.concat ", " names
        +:+ ") car la taille totale dépasserait "
        +:+ formatBytes MAX_TOTAL_BYTES +:+ "."]
   end).

(** [handleFiles]; [None] is [null]. *)
Definition handleFiles (files : option (list Upload)) (c : Controller) : Controller :=
  match files with
  | None | Some [] => c
  | Some files =>
    let acc := intake c files in
    let c :=
      match additions acc with
      | [] => c
      | jobs =>
        setFilesTaken (filesTaken c + length jobs)
          (setDetections
             (detections c ++ map (fun job => (itemId job, itemFile job)) jobs)
             (queueConversions jobs (setItems (items c ++ jobs) c)))
      end in
    let messages := uploadMessages acc in
    setUploadError
      (match messages with
       | [] => None
       | _ => Some (String.concat " " messages)
       end) c
  end.

(** [removeItem]. *)
Definition removeItem (id : string) (c : Controller) : Controller :=
  let released :=
    match findItem id (items c) with
    | Some target => releaseResources target
    | None => []
    end in
  revokeObjectURLs released
    (setItems (filter (fun item => negb (String.eqb (itemId item) id)) (items c)) c).

(** [clearAll]. *)
Definition clearAll (c : Controller) : Controller :=
  revokeObjectURLs (concat (map releaseResources (items c))) (setItems [] c).

(** [handleFormatChange]. *)
Definition handleFormatChange (id : string) (format : OutputFormat)
    (c : Controller) : Controller :=
  match findItem id (items c) with
  | None => c
  | Some current =>
    let usesSlider := formatUsesQuality format in
    let shouldUseGlobal := if usesSlider then usesGlobalQuality current else false in
    let baseQuality :=
      if usesSlider then
        if shouldUseGlobal then globalQuality c else defaultQuality format
      else defaultQuality format in
    let nextUsesGlobalQuality := if usesSlider then shouldUseGlobal else false in
    let nextUsesGlobalFormat :=
      if usesGlobalFormat current && sameFormat format (targetFormat current)
      then usesGlobalFormat current else false in
    let gifOptionsEqual :=
      match format with
      | Gif => isGifOptionsEqual (gifOptions current) (globalGifOptions c)
      | _ => true
      end in
    let pngOptionsEqual :=
      match format with
      | Png => isPngOptionsEqual (pngOptions current) (globalPngOptions c)
      | _ => true
      end in
    if sameFormat format (targetFormat current)
       && PrimFloat.eqb (quality current) baseQuality
       && Bool.eqb (usesGlobalQuality current) nextUsesGlobalQuality
       && Bool.eqb (usesGlobalFormat current) nextUsesGlobalFormat
       && gifOptionsEqual && pngOptionsEqual
    then c
    else
      scheduleConversion id
        (fun item =>
           {| setTargetFormat := Some format;
              setQuality := Some baseQuality;
              setUsesGlobalQuality := Some nextUsesGlobalQuality;
              setUsesGlobalFormat :=
                Some (if usesGlobalFormat item && sameFormat format (targetFormat item)
                      then usesGlobalFormat item else false);
              setGifOptions :=
                Some (match format with
                      | Gif => cloneGifOptions (globalGifOptions c)
                      | _ => gifOptions item
                      end);
              setPngOptions :=
                Some (match format with
                      | Png => clonePngOptions (globalPngOptions c)
                      | _ => pngOptions item
                      end);
              setBoost := None |}) c
  end.

(** [handleQualityChange]. *)
Definition handleQualityChange (id : string) (value : num) (c : Controller)
    : Controller :=
  scheduleConversion id
    (fun _ =>
       {| setTargetFormat := None; setQuality := Some value;
          setUsesGlobalQuality := Some false; setUsesGlobalFormat := None;
          setGifOptions := None; setPngOptions := None; setBoost := None |}) c.

(** [handleUseGlobalSettingsChange]. *)
Definition handleUseGlobalSettingsChange (id : string) (useGlobal : bool)
    (c : Controller) : Controller :=
  match findItem id (items c) with
  | None => c
  | Some current =>
    if useGlobal then
      let nextFormat := globalFormat c in
      let formatHasQuality := formatUsesQuality nextFormat in
      let nextQuality :=
        if formatHasQuality then globalQuality c else defaultQuality nextFormat in
      scheduleConversion id
        (fun _ =>
           {| setTargetFormat := Some nextFormat;
              setQuality := Some nextQuality;
              setUsesGlobalQuality := Some formatHasQuality;
              setUsesGlobalFormat := Some true;
              setGifOptions :=
                Some (match nextFormat with
                      | Gif => cloneGifOptions (globalGifOptions c)
                      | _ => gifOptions current
                      end);
              setPngOptions :=
                Some (match nextFormat with
                      | Png => clonePngOptions (globalPngOptions c)
                      | _ => pngOptions current
                      end);
              setBoost := None |}) c
    else if negb (usesGlobalFormat current) && negb (usesGlobalQuality current)
    then c
    else
      setItems
        (map (fun item =>
                if String.eqb (itemId item) id then withoutGlobals item else item)
             (items c)) c
  end.

(** [handleGifOptionsChange], [handlePngOptionsChange] and
    [handleBoostChange]. *)
Definition handleGifOptionsChange (id : string) (options : PartialGifOptions)
    (c : Controller) : Controller :=
  scheduleConversion id
    (fun item =>
       {| setTargetFormat := None; setQuality := None;
          setUsesGlobalQuality := None; setUsesGlobalFormat := None;
          setGifOptions := Some (mergeGifOptions (gifOptions item) options);
          setPngOptions := None; setBoost := None |}) c.

Definition handlePngOptionsChange (id : string) (options : PartialPngOptions)
    (c : Controller) : Controller :=
  scheduleConversion id
    (fun item =>
       {| setTargetFormat := None; setQuality := None;
          setUsesGlobalQuality := None; setUsesGlobalFormat := None;
          setGifOptions := None;
          setPngOptions := Some (mergePngOptions (pngOptions item) options);
          setBoost := None |}) c.

Definition handleBoostChange (id : string) (options : PartialBoost)
    (c : Controller) : Controller :=
  scheduleConversion id
    (fun item =>
       {| setTargetFormat := None; setQuality := None;
          setUsesGlobalQuality := None; setUsesGlobalFormat := None;
          setGifOptions := None; setPngOptions := None;
          setBoost := Some (mergeBoost (itemBoost item) options) |}) c.

(** [handleGlobalQualityChange]. *)
Definition handleGlobalQualityChange (value : num) (c : Controller) : Controller :=
  requeue (fun item =>
             if negb (usesGlobalQuality item)
                || negb (formatUsesQuality (targetFormat item))
             then None
             else Some (createProcessingUpdate item
                          {| setTargetFormat := None; setQuality := Some value;
                             setUsesGlobalQuality := None;
                             setUsesGlobalFormat := None;
                             setGifOptions := None; setPngOptions := None;
                             setBoost := None |}))
    (setGlobalQuality value c).

(** [handleGlobalGifOptionsChange] and [handleGlobalPngOptionsChange]. *)
Definition handleGlobalGifOptionsChange (options : PartialGifOptions)
    (c : Controller) : Controller :=
  let next := mergeGifOptions (globalGifOptions c) options in
  setGlobalGifOptions next
    (requeue (fun item =>
                if negb (sameFormat (targetFormat item) Gif)
                   || negb (usesGlobalFormat item)
                then None
                else Some (createProcessingUpdate item
                             {| setTargetFormat := None; setQuality := None;
                                setUsesGlobalQuality := None;
                                setUsesGlobalFormat := None;
                                setGifOptions := Some (cloneGifOptions next);
                                setPngOptions := None; setBoost := None |})) c).

Definition handleGlobalPngOptionsChange (options : PartialPngOptions)
    (c : Controller) : Controller :=
  let next := mergePngOptions (globalPngOptions c) options in
  setGlobalPngOptions next
    (requeue (fun item =>
                if negb (sameFormat (targetFormat item) Png)
                   || negb (usesGlobalFormat item)
                then None
                else Some (createProcessingUpdate item
                             {| setTargetFormat := None; setQuality := None;
                                setUsesGlobalQuality := None;
                                setUsesGlobalFormat := None;
                                setGifOptions := None;
                                setPngOptions := Some (clonePngOptions next);
                                setBoost := None |})) c).

(** [handleGlobalFormatChange]. *)
Definition handleGlobalFormatChange (format : OutputFormat) (c : Controller)
    : Controller :=
  if sameFormat format (globalFormat c) then c
  else
    let formatHasQuality := formatUsesQuality format in
    requeue (fun item =>
               if negb (usesGlobalFormat item) then None
               else
                 let usesGlobalQuality :=
                   if formatHasQuality then usesGlobalQuality item else false in
                 let nextQuality :=
                   if formatHasQuality then
                     if usesGlobalQuality then globalQuality c else quality item
                   else defaultQuality format in
                 Some (createProcessingUpdate item
                         {| setTargetFormat := Some format;
                            setQuality := Some nextQuality;
                            setUsesGlobalQuality := Some usesGlobalQuality;
                            setUsesGlobalFormat := Some true;
                            setGifOptions :=
                              Some (match format with
                                    | Gif => cloneGifOptions (globalGifOptions c)
                                    | _ => gifOptions item
                                    end);
                            setPngOptions :=
                              Some (match format with
                                    | Png => clonePngOptions (globalPngOptions c)
                                    | _ => pngOptions item
                                    end);
                            setBoost := None |}))
      (setGlobalFormat format c).

(** [handleSplitChange]. *)
Definition handleSplitChange (id : string) (value : num) (c : Controller)
    : Controller :=
  setItems
    (map (fun item => if String.eqb (itemId item) id then withSplit item value else item)
         (items c)) c.

(** What can happen to the hook: a call of one of the handlers it
    returns, a queued conversion that settles, a queued HDR detection that
    settles ([None] when [detectHdrImage] rejects). *)
Inductive Action : Type :=
| HandleFiles (files : option (list Upload))
| HandleFormatChange (id : string) (format : OutputFormat)
| HandleQualityChange (id : string) (value : num)
| HandleUseGlobalSettingsChange (id : string) (useGlobal : bool)
| HandleGifOptionsChange (id : string) (options : PartialGifOptions)
| HandlePngOptionsChange (id : string) (options : PartialPngOptions)
| HandleBoostChange (id : string) (options : PartialBoost)
| HandleGlobalQualityChange (value : num)
| HandleGlobalFormatChange (format : OutputFormat)
| HandleGlobalGifOptionsChange (options : PartialGifOptions)
| HandleGlobalPngOptionsChange (options : PartialPngOptions)
| HandleSplitChange (id : string) (value : num)
| RemoveItem (id : string)
| ClearAll
| ConversionSettles (n : nat) (outcome : string + ConversionResult)
| DetectionSettles (n : nat) (answer : option bool).

Definition act (a : Action) (c : Controller) : Controller :=
  match a with
  | HandleFiles files => handleFiles files c
  | HandleFormatChange id format => handleFormatChange id format c
  | HandleQualityChange id value => handleQualityChange id value c
  | HandleUseGlobalSettingsChange id useGlobal =>
    handleUseGlobalSettingsChange id useGlobal c
  | HandleGifOptionsChange id options => handleGifOptionsChange id options c
  | HandlePngOptionsChange id options => handlePngOptionsChange id options c
  | HandleBoostChange id options => handleBoostChange id options c
  | HandleGlobalQualityChange value => handleGlobalQualityChange value c
  | HandleGlobalFormatChange format => handleGlobalFormatChange format c
  | HandleGlobalGifOptionsChange options => handleGlobalGifOptionsChange options c
  | HandleGlobalPngOptionsChange options => handleGlobalPngOptionsChange options c
  | HandleSplitChange id value => handleSplitChange id value c
  | RemoveItem id => removeItem id c
  | ClearAll => clearAll c
  | ConversionSettles n outcome =>
    match pending c !! n with
    | Some job => settle job outcome (setPending (delete n (pending c)) c)
    | None => c
    end
  | DetectionSettles n answer =>
    match detections c !! n with
    | Some (id, _) =>
      let c := setDetections (delete n (detections c)) c in
      match answer with
      | Some flag => setHdrFlag id flag c
      | None => c
      end
    | None => c
    end
  end.

Definition run (actions : list Action) (c : Controller) : Controller :=
  fold_left (fun c a => act a c) actions c.

End Controller.

(** An item follows the global settings it says it follows. *)
Definition followsGlobals (format : OutputFormat) (value : num)
    (item : ConversionItem) : Prop :=
  (usesGlobalFormat item = true -> targetFormat item = format) /\
  (usesGlobalQuality item = true ->
   formatUsesQuality (targetFormat item) = true /\ quality item = value).


(** A job for the item, at its current version. *)
Definition jobFor (item job : ConversionItem) : Prop :=
  itemId job = itemId item /\ version job = version item.

(** An item whose file passed the checks of [handleFiles]. *)
Definition admissible {surroundings : Surroundings} (item : ConversionItem) : Prop :=
  isSupportedInputFile (itemFile item) = true /\
  0 <= originalSize item <= MAX_FILE_BYTES.

(** The list holds checked files only, and no more bytes than the limit
    on the total. *)
Definition withinLimits {surroundings : Surroundings} (c : Controller) : Prop :=
  Forall admissible (items c) /\
  fold_left (fun acc item => acc + originalSize item) (items c) 0
  <= Z.max 0 MAX_TOTAL_BYTES.

(** Every item shown as processing has a conversion of its current
    version that has not settled. *)
Definition inFlight (c : Controller) : Prop :=
  Forall (fun item =>
            status item = StatusProcessing ->
            exists job, job ∈ pending c /\ jobFor item job)
         (items c).

(** The object URLs the items hold. *)
Definition heldUrls (c : Controller) : list string :=
  map originalUrl (items c) ++ omap convertedUrl (items c).

(** No two items share an id, and every id came from [createId]. *)
Definition freshIds {surroundings : Surroundings} (c : Controller) : Prop :=
  NoDup (map itemId (items c)) /\
  Forall (fun item => exists k, (k < filesTaken c)%nat /\ itemId item = createId k)
         (items c).

(** An item and a controller used as examples. *)
Definition exampleJob : ConversionItem :=
  {| itemId := "a"; itemFile := {| fileName := "a.png"; fileType := "image/png" |};
     originalUrl := "blob:a"; originalSize := 4;
     convertedUrl := None; convertedBlob := None; status := StatusProcessing;
     targetFormat := Webp; quality := 78;
     usesGlobalQuality := true; usesGlobalFormat := true;
     gifOptions := createDefaultGifOptions; pngOptions := createDefaultPngOptions;
     itemBoost := createDefaultBoost; itemError := None; compareSplit := 50;
     itemWidth := None; itemHeight := None; isHdr := None; version := 1 |}.

Definition exampleController : Controller :=
  setItems [exampleJob] (initialController browserHost freshModule).

Definition exampleResult : ConversionResult :=
  {| blob := [1; 2; 3]; url := "blob:result"; width := 1; height := 1 |}.

(** [n] strokes. *)
Fixpoint tally (n : nat) : string :=
  match n with
  | O => EmptyString
  | S n' => String "i" (tally n')
  end.

(** Surroundings used as an example: 10 and 25 bytes as limits, ids and
    URLs numbered by strokes. *)
Definition exampleSurroundings : Surroundings :=
  {| MAX_FILE_BYTES := 10; MAX_TOTAL_BYTES := 25;
     formatBytes := fun _ => "some bytes"%string;
     createId := tally;
     fileObjectURL := fun n => ("blob:" +:+ tally n)%string |}.


(* ===================================================================== *)
(** ** [detectHdrImage] *)
(* ===================================================================== *)

(** An [ImageDecoder] as [detectHdrImage] uses it. *)
Record Decoder : Type := mkDecoder {
  (** ["tracks" in decoder] *)
  hasTracks : bool;
  (** [tracks.selectedTrack] and [tracks[0]]: [None] when the track is
      missing, [Some None] when it has no [colorSpace] *)
  selectedTrack : option (option VideoColorSpace);
  firstTrack : option (option VideoColorSpace);
  (** [decoder.decode({ frameIndex: 0 })]: [None] when it rejects, the
      [colorSpace] of the image otherwise *)
  decodeFrame : option (option VideoColorSpace);
  (** whether [image.close()] throws *)
  imageCloseThrows : bool;
  (** whether the [n]-th call of [decoder.close()] throws, counting
      from 0 *)
  decoderCloseThrows : nat -> bool
}.

(** The host as [detectHdrImage] sees it. *)
Record HdrHost : Type := mkHdrHost {
  (** [typeof ImageDecoder !== "undefined"] *)
  hasImageDecoder : bool;
  (** ["TextDecoder" in self] when the module was loaded *)
  hasTextDecoder : bool;
  (** [ImageDecoder.isTypeSupported]: [None] when the promise rejects *)
  isTypeSupported : string -> option bool;
  (** [file.arrayBuffer()]: [None] when the promise rejects *)
  arrayBuffer : File -> option (list Z);
  (** [new ImageDecoder(...)]: [None] when the constructor throws *)
  newImageDecoder : list Z -> string -> option Decoder
}.

Inductive Verdict : Type :=
| Resolves (isHdr : bool)
| Rejects
| DetectionOutOfFuel.

(** A call of [decoder.close()]: made in the [try] block or in the
    [catch] block, and whether it threw. *)
Inductive CloseCall : Type :=
| CloseInTry (threw : bool)
| CloseInCatch (threw : bool).

(** What a call of [detectHdrImage] does: how its promise settles, the
    decoder it created if any, the calls of [decoder.close()] in order and
    the number of calls of [image.close()]. *)
Record Detection : Type := mkDetection {
  verdict : Verdict;
  decoderCreated : option Decoder;
  closeCalls : list CloseCall;
  imageCloses : nat
}.

(** [tracks.selectedTrack?.colorSpace ?? tracks[0]?.colorSpace]. *)
Definition trackColorSpace (decoder : Decoder) : option VideoColorSpace :=
  if negb (hasTracks decoder) then None
  else
    match selectedTrack decoder with
    | Some (Some colorSpace) => Some colorSpace
    | _ =>
      match firstTrack decoder with
      | Some colorSpace => colorSpace
      | None => None
      end
    end.

(** The [try] block of [detectHdrImage] and its [catch]. *)
Definition inspectDecoder (decoder : Decoder) : Detection :=
  (* [catch], after the calls [made] of [decoder.close()] in the [try]
     block: one more call, whose own error is swallowed *)
  let caught (made : list CloseCall) (images : nat) :=
    {| verdict := Resolves false; decoderCreated := Some decoder;
       closeCalls :=
         made ++ [CloseInCatch (decoderCloseThrows decoder (length made))];
       imageCloses := images |} in
  let flagged :=
    match trackColorSpace decoder with
    | Some colorSpace => shouldFlagHdr (Some colorSpace)
    | None => false
    end in
  if flagged then
    if decoderCloseThrows decoder 0 then caught [CloseInTry true] 0%nat
    else {| verdict := Resolves true; decoderCreated := Some decoder;
            closeCalls := [CloseInTry false]; imageCloses := 0 |}
  else
    match decodeFrame decoder with
    | None => caught [] 0%nat
    | Some imageColorSpace =>
      let isHdr := shouldFlagHdr imageColorSpace in
      if imageCloseThrows decoder then caught [] 1%nat
      else if decoderCloseThrows decoder 0 then caught [CloseInTry true] 1%nat
      else {| verdict := Resolves isHdr; decoderCreated := Some decoder;
              closeCalls := [CloseInTry false]; imageCloses := 1 |}
    end.

Definition settled (v : Verdict) : Detection :=
  {| verdict := v; decoderCreated := None; closeCalls := []; imageCloses := 0 |}.

(** [detectHdrImage]. *)
Definition detectHdrImage (host : HdrHost) (file : File) : Detection :=
  if negb (hasImageDecoder host) then settled (Resolves false)
  else
    match guessMimeType file with
    | None => settled (Resolves false)
    | Some mimeType =>
      if negb (default false (isTypeSupported host mimeType))
      then settled (Resolves false)
      else
        match arrayBuffer host file with
        | None => settled (Resolves false)
        | Some data =>
          match hasJpegHdrGainMap (hasTextDecoder host) data (Some mimeType) with
          | Returns true => settled (Resolves true)
          | ThrowsRangeError => settled Rejects
          | OutOfFuel => settled DetectionOutOfFuel
          | Returns false =>
            match newImageDecoder host data mimeType with
            | None => settled Rejects
            | Some decoder => inspectDecoder decoder
            end
          end
        end
    end.

(** A host used as an example: its decoder reports a PQ transfer on the
    selected track. *)
Definition exampleHdrHost : HdrHost :=
  {| hasImageDecoder := true;
     hasTextDecoder := true;
     isTypeSupported := fun _ => Some true;
     arrayBuffer := fun _ => Some [0; 0; 0; 28];
     newImageDecoder := fun _ _ =>
       Some {| hasTracks := true;
               selectedTrack :=
                 Some (Some {| primaries := Some "bt2020"%string;
                               transfer := Some "smpte2084"%string |});
               firstTrack := None;
               decodeFrame := None;
               imageCloseThrows := false;
               decoderCloseThrows := fun _ => false |} |}.

(* ===================================================================== *)
(** ** The boost loop, pixel by pixel *)
(* ===================================================================== *)

Section BoostLoopFacts.

Variables ef sat con bri : num.

Lemma writeClamped_length data i v :
  length (writeClamped data i v) = length data.
Proof. unfold writeClamped. apply length_insert. Qed.

Lemma boostLoop_length fuel : forall i data,
  length (boostLoop ef sat con bri fuel i data) = length data.
Proof.
  induction fuel as [|fuel IH]; intros i data; simpl; [reflexivity|].
  destruct (decide (i < length data)%nat); [|reflexivity].
  rewrite IH. now rewrite !writeClamped_length.
Qed.

(** Bytes before the loop index are never touched again. *)
Lemma boostLoop_below fuel : forall i data j,
  (j < i)%nat ->
  boostLoop ef sat con bri fuel i data !! j = data !! j.
Proof.
  induction fuel as [|fuel IH]; intros i data j Hj; simpl; [reflexivity|].
  destruct (decide (i < length data)%nat); [|reflexivity].
  rewrite IH by lia. unfold writeClamped.
  rewrite !list_lookup_insert_ne by lia. reflexivity.
Qed.

(** The loop index stays a multiple of four, so no store ever lands on an
    index congruent to 3 modulo 4. *)
Lemma boostLoop_alpha fuel : forall i data j,
  (i mod 4 = 0)%nat -> (j mod 4 = 3)%nat ->
  boostLoop ef sat con bri fuel i data !! j = data !! j.
Proof.
  induction fuel as [|fuel IH]; intros i data j Hi Hj; simpl; [reflexivity|].
  destruct (decide (i < length data)%nat); [|reflexivity].
  assert (Hi4 : ((i + 4) mod 4 = 0)%nat).
  { rewrite (Nat.Div0.add_mod i 4 4), Hi. reflexivity. }
  rewrite (IH _ _ _ Hi4 Hj). unfold writeClamped.
  assert (Hk : forall k, (k < 3)%nat -> (i + k)%nat <> j).
  { intros k Hk <-. rewrite (Nat.Div0.add_mod i k 4), Hi in Hj.
    rewrite Nat.add_0_l, Nat.Div0.mod_mod in Hj.
    rewrite Nat.mod_small in Hj by lia. lia. }
  rewrite !list_lookup_insert_ne; [reflexivity| | |].
  - pose proof (Hk 0%nat). rewrite Nat.add_0_r in H. apply H. lia.
  - apply Hk. lia.
  - apply Hk. lia.
Qed.

(** Pixel [p], not yet reached by the loop, ends up holding the stored
    values computed from its own three colour bytes. *)
Lemma boostLoop_pixel fuel : forall i p0 data n p r g b,
  i = (4 * p0)%nat -> length data = (4 * n)%nat ->
  (p0 <= p < n)%nat -> (n - p0 <= fuel)%nat ->
  data !! (4 * p)%nat = Some r ->
  data !! (4 * p + 1)%nat = Some g ->
  data !! (4 * p + 2)%nat = Some b ->
  let res := boostLoop ef sat con bri fuel i data in
  res !! (4 * p)%nat = Some (stored ef sat con bri r g b r) /\
  res !! (4 * p + 1)%nat = Some (stored ef sat con bri r g b g) /\
  res !! (4 * p + 2)%nat = Some (stored ef sat con bri r g b b).
Proof.
  induction fuel as [|fuel IH]; intros i p0 data n p r g b Hi Hlen Hp Hfuel Hr Hg Hb;
    [lia|].
  simpl. destruct (decide (i < length data)%nat) as [Hlt|Hge]; [|lia].
  destruct (decide (p = p0)) as [->|Hne].
  - (* the pixel processed by this iteration *)
    subst i. unfold readNum. rewrite Hr, Hg, Hb.
    rewrite !boostLoop_below by lia. unfold writeClamped.
    repeat split.
    + rewrite !list_lookup_insert_ne by lia.
      rewrite list_lookup_insert_eq by lia. reflexivity.
    + rewrite list_lookup_insert_ne by lia.
      rewrite list_lookup_insert_eq by (rewrite length_insert; lia). reflexivity.
    + rewrite list_lookup_insert_eq by (rewrite !length_insert; lia). reflexivity.
  - (* a later pixel: this iteration leaves its bytes alone *)
    apply (IH (i + 4)%nat (S p0) _ n p r g b); try lia.
    + now rewrite !writeClamped_length.
    + unfold writeClamped. rewrite !list_lookup_insert_ne by lia. exact Hr.
    + unfold writeClamped. rewrite !list_lookup_insert_ne by lia. exact Hg.
    + unfold writeClamped. rewrite !list_lookup_insert_ne by lia. exact Hb.
Qed.

End BoostLoopFacts.

(** *** The default settings give every byte back *)

Lemma blendsBackRow_sound s r g : forall bs,
  blendsBackRow s r g bs = true ->
  forall b, In b bs ->
    let lum := (s + 0.0722 * b)%float in
    (lum + (r - lum) * 1)%float = r /\
    (lum + (g - lum) * 1)%float = g /\
    (lum + (b - lum) * 1)%float = b.
Proof.
  induction bs as [|b0 bs IH]; intros Hrow b Hin; [destruct Hin|].
  simpl in Hrow. unfold blendsBack in Hrow.
  destruct (PrimFloat.Leibniz.eqb _ r) eqn:Er; [|discriminate].
  destruct (PrimFloat.Leibniz.eqb _ g) eqn:Eg; [|discriminate].
  destruct (PrimFloat.Leibniz.eqb _ b0) eqn:Eb; [|discriminate].
  destruct Hin as [<-|Hin].
  - repeat split; now apply FloatAxioms.Leibniz.eqb_spec.
  - now apply IH.
Qed.

Lemma blendsBackAll_sound rs gs bs :
  blendsBackAll rs gs bs = true ->
  forall r g b, In r rs -> In g gs -> In b bs ->
    let lum := (0.2126 * r + 0.7152 * g + 0.0722 * b)%float in
    (lum + (r - lum) * 1)%float = r /\
    (lum + (g - lum) * 1)%float = g /\
    (lum + (b - lum) * 1)%float = b.
Proof.
  unfold blendsBackAll. intros Hall r g b Hr Hg Hb.
  rewrite forallb_forall in Hall. specialize (Hall r Hr). cbv zeta in Hall.
  rewrite forallb_forall in Hall. specialize (Hall g Hg).
  exact (blendsBackRow_sound _ r g bs Hall b Hb).
Qed.

(** All 2^24 colours, by computation. *)
Lemma blendsBack_everywhere :
  (let nums := map exposed1 allBytes in blendsBackAll nums nums nums) = true.
Proof. vm_cast_no_check (eq_refl true). Qed.

Lemma restoresByte_everywhere : forallb restoresByte allBytes = true.
Proof. vm_compute. reflexivity. Qed.

Lemma allBytes_spec c : isByte c -> In c allBytes.
Proof.
  intros [H0 H1]. unfold allBytes.
  rewrite <- (Z2Nat.id c) by lia. apply in_map. apply in_seq. lia.
Qed.

Lemma stored_default r g b :
  isByte r -> isByte g -> isByte b ->
  stored 1 1 1 0 r g b r = r /\
  stored 1 1 1 0 r g b g = g /\
  stored 1 1 1 0 r g b b = b.
Proof.
  intros Hr Hg Hb.
  pose proof (blendsBackAll_sound _ _ _ blendsBack_everywhere
                (exposed1 r) (exposed1 g) (exposed1 b)
                (in_map exposed1 _ _ (allBytes_spec r Hr))
                (in_map exposed1 _ _ (allBytes_spec g Hg))
                (in_map exposed1 _ _ (allBytes_spec b Hb))) as (Er & Eg & Eb).
  pose proof restoresByte_everywhere as Hback. rewrite forallb_forall in Hback.
  unfold stored. fold (exposed1 r) (exposed1 g) (exposed1 b).
  cbv zeta. cbv zeta in Er, Eg, Eb. rewrite Er, Eg, Eb.
  repeat split; apply Z.eqb_eq;
    [apply (Hback r)|apply (Hback g)|apply (Hback b)]; now apply allBytes_spec.
Qed.

(* ===================================================================== *)
(** ** Facts about binary64 numbers *)
(* ===================================================================== *)

Section FloatFacts.

#[local] Open Scope float_scope.

Lemma is_nan_Prim2SF (x : num) :
  PrimFloat.is_nan x = true <-> Prim2SF x = S754_nan.
Proof.
  unfold Prim2SF. destruct (PrimFloat.is_nan x); split; try easy.
  intros H. exfalso. revert H.
  destruct (PrimFloat.is_zero x); [discriminate|].
  destruct (PrimFloat.is_infinity x); [discriminate|].
  destruct (Z.frexp x) as [r e].
  destruct (shr_fexp prec emax _ _ _) as [s e'].
  destruct (shr_m s); discriminate.
Qed.

Lemma not_nan_Prim2SF (x : num) :
  PrimFloat.is_nan x = false <-> Prim2SF x <> S754_nan.
Proof.
  rewrite <- is_nan_Prim2SF. destruct (PrimFloat.is_nan x); split; congruence.
Qed.

Lemma ltb_leb (x y : num) : (x <? y) = true -> (x <=? y) = true.
Proof.
  rewrite FloatAxioms.ltb_spec, FloatAxioms.leb_spec. unfold SFltb, SFleb.
  destruct (SFcompare _ _) as [[| |]|]; congruence.
Qed.

(** Shifting and rounding a mantissa that is not negative. *)
Lemma shr_1_nonneg mrs : (0 <= shr_m mrs)%Z -> (0 <= shr_m (shr_1 mrs))%Z.
Proof.
  destruct mrs as [m r s]. simpl. intros H.
  destruct m as [|[p|p|]|p]; simpl; lia.
Qed.

Lemma iter_shr_1_nonneg p : forall mrs,
  (0 <= shr_m mrs)%Z -> (0 <= shr_m (@SpecFloat.iter_pos shr_record shr_1 p mrs))%Z.
Proof.
  induction p as [p IH|p IH|]; intros mrs H; simpl.
  - apply IH, IH, shr_1_nonneg, H.
  - apply IH, IH, H.
  - apply shr_1_nonneg, H.
Qed.

Lemma shr_fexp_nonneg m e l :
  (0 <= m)%Z -> (0 <= shr_m (fst (shr_fexp prec emax m e l)))%Z.
Proof.
  intros H. unfold shr_fexp, shr.
  assert (H0 : (0 <= shr_m (shr_record_of_loc m l))%Z).
  { destruct l as [|[| |]]; exact H. }
  destruct (_ - e)%Z; simpl; try exact H0.
  now apply iter_shr_1_nonneg.
Qed.

Lemma round_nearest_even_nonneg m l :
  (0 <= m)%Z -> (0 <= round_nearest_even m l)%Z.
Proof.
  intros H. destruct l as [|[| |]]; simpl; try lia.
  destruct (Z.even m); lia.
Qed.

Lemma binary_round_aux_not_nan sx m e l :
  (0 <= m)%Z -> binary_round_aux prec emax sx m e l <> S754_nan.
Proof.
  intros H. unfold binary_round_aux.
  pose proof (shr_fexp_nonneg m e l H) as H1.
  destruct (shr_fexp prec emax m e l) as [mrs' e']. simpl in H1.
  pose proof (shr_fexp_nonneg _ e' loc_Exact
                (round_nearest_even_nonneg _ (loc_of_shr_record mrs') H1)) as H2.
  destruct (shr_fexp prec emax (round_nearest_even _ _) e' loc_Exact) as [mrs'' e''].
  simpl in H2. destruct (shr_m mrs''); try discriminate; try lia.
  destruct (e'' <=? _)%Z; discriminate.
Qed.

Lemma SFdiv_core_binary_nonneg m1 e1 m2 e2 :
  (0 <= fst (fst (SFdiv_core_binary prec emax (Z.pos m1) e1 (Z.pos m2) e2)))%Z.
Proof.
  unfold SFdiv_core_binary. cbv zeta.
  set (s := (_ - _ - _)%Z).
  set (m' := match s with Z.pos _ => _ | Z0 => _ | Z.neg _ => _ end).
  assert (Hm : (0 <= m')%Z).
  { subst m'. destruct s; try lia. apply Z.shiftl_nonneg. lia. }
  pose proof (Z.div_eucl_eq m' (Z.pos m2) ltac:(lia)) as Hq.
  pose proof (Z.mod_pos_bound m' (Z.pos m2) ltac:(lia)) as Hr.
  unfold Z.modulo in Hr.
  destruct (Z.div_eucl m' (Z.pos m2)) as [q r]. simpl. nia.
Qed.

(** Dividing a number that is not NaN by a finite non-zero number does not
    give NaN. *)
Lemma div_finite_not_nan (x y : num) sy my ey :
  Prim2SF y = S754_finite sy my ey ->
  PrimFloat.is_nan x = false -> PrimFloat.is_nan (x / y) = false.
Proof.
  intros Hy Hx. apply not_nan_Prim2SF. apply not_nan_Prim2SF in Hx.
  rewrite FloatAxioms.div_spec, Hy. unfold SF64div, SFdiv.
  destruct (Prim2SF x) as [sx|sx| |sx mx ex]; try discriminate; try congruence.
  pose proof (SFdiv_core_binary_nonneg mx ex my ey) as Hq.
  destruct (SFdiv_core_binary _ _ _ _ _ _) as [[mz ez] lz]. simpl in Hq.
  now apply binary_round_aux_not_nan.
Qed.

(** [Math.min(hi, Math.max(lo, v))] lies between the bounds for every [v]
    that is not NaN, when [lo <= hi] are numbers other than [-0] and [+0]
    respectively. *)
Lemma clamp_between (lo hi v : num) :
  PrimFloat.is_nan lo = false -> PrimFloat.is_nan hi = false ->
  PrimFloat.classify lo <> NZero -> PrimFloat.classify hi <> PZero ->
  (lo <=? lo) = true -> (hi <=? hi) = true -> (lo <=? hi) = true ->
  PrimFloat.is_nan v = false ->
  between lo hi (js_min hi (js_max lo v)) = true.
Proof.
  intros Nlo Nhi Clo Chi Rlo Rhi Hle Nv.
  assert (Hmax : js_max lo v = lo \/ (js_max lo v = v /\ (lo <? v) = true)).
  { unfold js_max. rewrite Nlo, Nv. simpl.
    destruct (lo <? v) eqn:E; [now right|].
    destruct (v <? lo); [now left|].
    destruct (PrimFloat.classify lo); first [now left | congruence]. }
  assert (Nmax : PrimFloat.is_nan (js_max lo v) = false).
  { destruct Hmax as [->|[-> _]]; assumption. }
  assert (Lmax : (lo <=? js_max lo v) = true).
  { destruct Hmax as [->|[-> H]]; [assumption|now apply ltb_leb]. }
  set (y := js_max lo v) in *.
  unfold between, js_min. rewrite Nhi, Nmax. simpl.
  destruct (hi <? y) eqn:E1.
  - now rewrite Hle, Rhi.
  - destruct (y <? hi) eqn:E2.
    + now rewrite Lmax, (ltb_leb _ _ E2).
    + destruct (PrimFloat.classify hi); first [now rewrite Hle, Rhi | congruence].
Qed.

End FloatFacts.

(** *** What a clamped store can hold *)








(* ===================================================================== *)
(** ** Properties of [applyBoost] *)
(* ===================================================================== *)

Lemma applyBoost_length pow settings data :
  length (applyBoost pow settings data) = length data.
Proof. unfold applyBoost. apply boostLoop_length. Qed.




(** C9. With the default settings (exposure 0, saturation 1, contrast 1,
    brightness 0) [applyBoost] leaves every byte of the pixel data as it
    was; [2 ** 0] is 1 in every host. *)
Theorem applyBoost_default_identity (pow : num -> num -> num) (data : list Z) :
  pow 2%float 0%float = 1%float ->
  wellFormedPixels data ->
  applyBoost pow defaultBoost data = data.
Proof.
  intros Hpow [Hbytes Hlen].
  apply list_eq. intros i.
  destruct (decide (i < length data)%nat) as [Hi|Hi].
  2:{ rewrite !lookup_ge_None_2; [reflexivity|lia|rewrite applyBoost_length; lia]. }
  unfold applyBoost. cbn [exposure saturation contrast brightness defaultBoost].
  rewrite Hpow.
  destruct (decide (i mod 4 = 3)%nat) as [H3|H3].
  { now apply boostLoop_alpha. }
  set (p := (i / 4)%nat). set (n := (length data / 4)%nat).
  assert (Hn : length data = (4 * n)%nat).
  { subst n. rewrite (Nat.div_mod_eq (length data) 4) at 1. lia. }
  assert (Hip : i = (4 * p + i mod 4)%nat) by (subst p; apply Nat.div_mod_eq).
  assert (Hk : (i mod 4 < 4)%nat) by (apply Nat.mod_upper_bound; lia).
  assert (Hpn : (p < n)%nat) by lia.
  destruct (lookup_lt_is_Some_2 data (4 * p)%nat) as [r Hr]; [lia|].
  destruct (lookup_lt_is_Some_2 data (4 * p + 1)%nat) as [g Hg]; [lia|].
  destruct (lookup_lt_is_Some_2 data (4 * p + 2)%nat) as [b Hb]; [lia|].
  rewrite Forall_lookup in Hbytes.
  destruct (stored_default r g b (Hbytes _ _ Hr) (Hbytes _ _ Hg) (Hbytes _ _ Hb))
    as (Sr & Sg & Sb).
  destruct (boostLoop_pixel 1 1 1 0 (length data) 0%nat 0%nat data n p r g b)
    as (H1 & H2 & H3'); try assumption; try lia.
  rewrite Sr in H1. rewrite Sg in H2. rewrite Sb in H3'.
  rewrite Hip.
  destruct (i mod 4)%nat as [|[|[|k]]].
  - rewrite Nat.add_0_r. congruence.
  - congruence.
  - congruence.
  - lia.
Qed.

Lemma applyBoost_default_identity_witness :
  applyBoost examplePow defaultBoost [10; 20; 30; 255; 200; 100; 50; 0]
  = [10; 20; 30; 255; 200; 100; 50; 0].
Proof.
  apply (applyBoost_default_identity examplePow [10; 20; 30; 255; 200; 100; 50; 0]).
  - reflexivity.
  - split; [repeat constructor; unfold isByte; lia | reflexivity].
Defined.

(** C10. [applyBoost] never modifies the alpha channel: every byte at an
    index congruent to 3 modulo 4 is left as it was, whatever the buffer
    and the settings; the buffer keeps its length. *)
Theorem applyBoost_preserves_alpha (pow : num -> num -> num)
    (settings : BoostSettings) (data : list Z) (i : nat) :
  (i mod 4 = 3)%nat ->
  applyBoost pow settings data !! i = data !! i /\
  length (applyBoost pow settings data) = length data.
Proof.
  intros Hi. split; [|apply applyBoost_length].
  unfold applyBoost. now apply boostLoop_alpha.
Qed.

Lemma applyBoost_preserves_alpha_witness :
  applyBoost examplePow (mkBoost 1 0.5 2 10) [10; 20; 30; 77; 200; 100; 50; 0] !! 3%nat
    = [10; 20; 30; 77; 200; 100; 50; 0] !! 3%nat /\
  length (applyBoost examplePow (mkBoost 1 0.5 2 10) [10; 20; 30; 77; 200; 100; 50; 0])
    = length [10; 20; 30; 77; 200; 100; 50; 0].
Proof.
  apply (applyBoost_preserves_alpha examplePow (mkBoost 1 0.5 2 10)
           [10; 20; 30; 77; 200; 100; 50; 0] 3).
  reflexivity.
Defined.

(** [clampByte] answers a number between 0 and 255 for every number that
    is not NaN (NaN itself is stored as 0 by the typed array). *)
Lemma clampByte_between (v : num) :
  PrimFloat.is_nan v = false -> between 0 255 (clampByte v) = true.
Proof.
  intros H. unfold clampByte. apply clamp_between; try reflexivity; try discriminate.
  exact H.
Qed.

(* ===================================================================== *)
(** ** The capability probe *)
(* ===================================================================== *)

Lemma probedOnce_fresh : probedOnce freshModule.
Proof. split; [constructor|]. intros m H. inversion H. Qed.

Lemma supportsCanvasEncoding_probedOnce host mime st :
  probedOnce st -> probedOnce (snd (supportsCanvasEncoding host mime st)).
Proof.
  intros [Hnd Hin]. unfold supportsCanvasEncoding.
  destruct (hasDocument host); simpl; [|now split].
  destruct (canvasEncodeSupport st !! mime) as [cached|] eqn:E; simpl; [now split|].
  split.
  - cbn. constructor; [|exact Hnd]. intros Hm. destruct (Hin _ Hm) as [b Hb]. congruence.
  - cbn. intros m Hm. apply elem_of_cons in Hm as [->|Hm].
    + rewrite lookup_insert_eq. eauto.
    + destruct (decide (mime = m)) as [->|Hne].
      * rewrite lookup_insert_eq. eauto.
      * rewrite lookup_insert_ne by exact Hne. now apply Hin.
Qed.

Lemma runProbes_probedOnce host mimes : forall st,
  probedOnce st -> probedOnce (snd (runProbes host mimes st)).
Proof.
  induction mimes as [|m rest IH]; intros st H; simpl; [exact H|].
  pose proof (supportsCanvasEncoding_probedOnce host m st H) as H1.
  destruct (supportsCanvasEncoding host m st) as [b st1]. simpl in H1.
  specialize (IH st1 H1). destruct (runProbes host rest st1) as [bs st2].
  exact IH.
Qed.

(** An entry of the cache is never overwritten nor removed. *)
Lemma supportsCanvasEncoding_keeps host mime st m b :
  canvasEncodeSupport st !! m = Some b ->
  canvasEncodeSupport (snd (supportsCanvasEncoding host mime st)) !! m = Some b.
Proof.
  intros H. unfold supportsCanvasEncoding.
  destruct (hasDocument host); simpl; [|exact H].
  destruct (canvasEncodeSupport st !! mime) as [cached|] eqn:E; simpl; [exact H|].
  rewrite lookup_insert_ne; [exact H|congruence].
Qed.

Lemma runProbes_keeps host mimes m b : forall st,
  canvasEncodeSupport st !! m = Some b ->
  canvasEncodeSupport (snd (runProbes host mimes st)) !! m = Some b.
Proof.
  induction mimes as [|m0 rest IH]; intros st H; simpl; [exact H|].
  pose proof (supportsCanvasEncoding_keeps host m0 st m b H) as H1.
  destruct (supportsCanvasEncoding host m0 st) as [b0 st1]. simpl in H1.
  specialize (IH st1 H1). destruct (runProbes host rest st1) as [bs st2].
  exact IH.
Qed.

Lemma supportsCanvasEncoding_headless host mime st :
  hasDocument host = false -> supportsCanvasEncoding host mime st = (true, st).
Proof. intros H. unfold supportsCanvasEncoding. now rewrite H. Qed.

Lemma runProbes_headless host mimes : forall st,
  hasDocument host = false -> snd (runProbes host mimes st) = st.
Proof.
  induction mimes as [|m rest IH]; intros st H; simpl; [reflexivity|].
  rewrite supportsCanvasEncoding_headless by exact H.
  specialize (IH st H). destruct (runProbes host rest st) as [bs st2].
  exact IH.
Qed.

(** C6. [getOutputFormatSupport] answers [true] for PNG and GIF whatever
    the host and the state of the cache, and for JPEG and WebP what
    [supportsCanvasEncoding] answers, which differs from host to host. *)
Theorem getOutputFormatSupport_png_gif :
  (forall host st,
     let support := fst (getOutputFormatSupport host st) in
     let probeJpeg := supportsCanvasEncoding host "image/jpeg" st in
     png support = true /\ gif support = true /\
     jpeg support = fst probeJpeg /\
     webp support = fst (supportsCanvasEncoding host "image/webp" (snd probeJpeg))) /\
  jpeg (fst (getOutputFormatSupport browserHost freshModule)) = true /\
  jpeg (fst (getOutputFormatSupport pngOnlyHost freshModule)) = false /\
  webp (fst (getOutputFormatSupport browserHost freshModule)) = true /\
  webp (fst (getOutputFormatSupport pngOnlyHost freshModule)) = false.
Proof.
  split; [|repeat split; reflexivity].
  intros host st. unfold getOutputFormatSupport. cbv zeta.
  destruct (supportsCanvasEncoding host "image/jpeg" st) as [j st1]. simpl.
  destruct (supportsCanvasEncoding host "image/webp" st1) as [w st2]. simpl.
  repeat split.
Qed.

(** C8 (as amended). A process queries the host at most once for a mime
    type.  In a host that has a document, the first call stores its answer
    in the cache, and a later call for the same mime type, whatever calls
    were made in between, answers the cached boolean and leaves the state
    as it is: no further host query.  In a host without a document every
    call answers [true] without querying the host or storing anything. *)
Theorem supportsCanvasEncoding_memoized (host : Host) (mime : string)
    (st : ModuleState) (others : list string) :
  NoDup (hostQueries (snd (runProbes host others freshModule))) /\
  let first := supportsCanvasEncoding host mime st in
  let st2 := snd (runProbes host others (snd first)) in
  let again := supportsCanvasEncoding host mime st2 in
  if hasDocument host
  then canvasEncodeSupport (snd first) !! mime = Some (fst first) /\
       again = (fst first, st2)
  else first = (true, st) /\ again = (true, st) /\
       canvasEncodeSupport (snd first) = canvasEncodeSupport st /\
       hostQueries (snd again) = hostQueries st.
Proof.
  split.
  { apply (runProbes_probedOnce host others freshModule probedOnce_fresh). }
  cbv zeta. destruct (hasDocument host) eqn:Hdoc.
  - assert (Hstored : canvasEncodeSupport (snd (supportsCanvasEncoding host mime st)) !! mime
                      = Some (fst (supportsCanvasEncoding host mime st))).
    { unfold supportsCanvasEncoding. rewrite Hdoc. simpl.
      destruct (canvasEncodeSupport st !! mime) as [cached|] eqn:E; simpl.
      - exact E.
      - apply lookup_insert_eq. }
    split; [exact Hstored|].
    pose proof (runProbes_keeps host others mime _ _ Hstored) as Hkept.
    unfold supportsCanvasEncoding at 1. rewrite Hdoc. simpl. now rewrite Hkept.
  - rewrite !supportsCanvasEncoding_headless by exact Hdoc. simpl.
    rewrite runProbes_headless by exact Hdoc. repeat split.
Qed.

(** In a host without a document the first call stores nothing: the cache
    has no entry for the mime type afterwards. *)
Lemma supportsCanvasEncoding_headless_stores_nothing :
  let first := supportsCanvasEncoding headlessHost "image/webp" freshModule in
  fst first = true /\
  canvasEncodeSupport (snd first) !! "image/webp" <> Some (fst first).
Proof. split; [reflexivity|]. vm_compute. discriminate. Qed.

(* ===================================================================== *)
(** ** [convertImage] *)
(* ===================================================================== *)

Ltac unfold_eff :=
  cbv [convertImage loadImageSource drawOnCanvas getImageData applyBoostOnCanvas
       encodeCanvas objectURL convertPng pngProcessed reduceColors
       traceOf outcomeOf bind ret throw emit tryFinally tryCatch].

(** The paths of [loadImageSource]: a bitmap, an image element after a
    bitmap that failed or without [createImageBitmap], or a rejection. *)
Ltac load_paths browser file :=
  unfold decodeImage, viaImageElement in *;
  destruct (hasCreateImageBitmap browser); simpl in *;
  [destruct (createImageBitmap browser file) as [[[? ?] ?]|]; simpl in *|];
  try (destruct (loadImage browser file) as [[[? ?] ?]|]; simpl in *).

(** The quality handed to [encodeCanvas] by [convertImage] is
    [qualityToFloat] of the configured quality. *)
Lemma convertImage_encode_quality {codecs : Codecs} (browser : Browser)
    (file : File) (config : ConversionConfig) (options : option ConvertImageOptions) :
  Forall (fun e => match e with
                   | EvEncodeCanvas mime q =>
                     mime = mimeMap config /\ q = qualityToFloat (configQuality config)
                   | _ => True
                   end)
         (traceOf (convertImage browser file config options)).
Proof.
  unfold_eff. simpl. load_paths browser file; try solve [repeat constructor];
    (destruct (context2d browser); simpl; [|repeat constructor]);
    match goal with
    | |- context [(?w =? 0) || (?h =? 0)] =>
      destruct ((w =? 0) || (h =? 0)); simpl; [repeat constructor|]
    end;
    (destruct config as [q|q|pngOptions|gifOptions]; simpl;
     [destruct (readablePixels browser); simpl;
        destruct (toBlob browser _ _ _); simpl; repeat constructor
     |destruct (readablePixels browser); simpl;
        destruct (toBlob browser _ _ _); simpl; repeat constructor
     |destruct (readablePixels browser); simpl; [|repeat constructor];
      destruct (pngReduceColors pngOptions && (pngColorCount pngOptions <? 256)); simpl;
      [destruct (reduceLoop _ _ _ _ _ _); simpl; repeat constructor
      |repeat constructor]
     |destruct (readablePixels browser); simpl; [|repeat constructor];
      destruct (convertGifWithOptions _ _); simpl; repeat constructor]).
Qed.

(** C2. When the decoded width or height is zero, [convertImage] throws
    and no quantization or encoding collaborator is called on the way:
    neither [convertGifWithOptions], nor [convertPng] and what it calls,
    nor the canvas encoder; no blob is answered. *)
Theorem convertImage_zero_dimensions {codecs : Codecs} (browser : Browser)
    (file : File) (config : ConversionConfig) (options : option ConvertImageOptions)
    (w h : Z) (pixels : list Z) :
  decodeImage browser file = Some (w, h, pixels) ->
  w = 0 \/ h = 0 ->
  (exists message,
     outcomeOf (convertImage browser file config options) = inl message /\
     (context2d browser = true ->
      message = "Conversion failed: decoded image has zero dimensions.")) /\
  Forall (fun e => isEncodingEvent e = false)
         (traceOf (convertImage browser file config options)).
Proof.
  intros Hload Hzero.
  assert (Hz : (w =? 0) || (h =? 0) = true).
  { destruct Hzero as [->| ->]; [reflexivity|apply orb_true_r]. }
  unfold_eff. simpl. load_paths browser file; try discriminate Hload;
    injection Hload as -> -> ->;
    (destruct (context2d browser); simpl;
     [rewrite Hz; simpl; split; [eexists; split; [reflexivity|reflexivity]|];
      repeat constructor
     |split; [eexists; split; [reflexivity|discriminate]|];
      repeat constructor]).
Qed.

Lemma convertImage_zero_dimensions_witness :
  (exists message,
     outcomeOf (convertImage (codecs := exampleCodecs) (exampleBrowser 0 7)
                  (mkFile "empty.gif" "image/gif")
                  (ConfigGif (mkGifOptions 128 DitherNone true "#ffffff" 0)) None)
       = inl message /\
     (context2d (exampleBrowser 0 7) = true ->
      message = "Conversion failed: decoded image has zero dimensions.")) /\
  Forall (fun e => isEncodingEvent e = false)
         (traceOf (convertImage (codecs := exampleCodecs) (exampleBrowser 0 7)
                     (mkFile "empty.gif" "image/gif")
                     (ConfigGif (mkGifOptions 128 DitherNone true "#ffffff" 0)) None)).
Proof.
  apply (convertImage_zero_dimensions (codecs := exampleCodecs) (exampleBrowser 0 7)
           (mkFile "empty.gif" "image/gif")
           (ConfigGif (mkGifOptions 128 DitherNone true "#ffffff" 0)) None
           0 7 (replicate (Z.to_nat (4 * 0 * 7)) 200)).
  - reflexivity.
  - left. reflexivity.
Defined.

(** C7 (as amended). For every quality that is not NaN, the fraction
    [qualityToFloat] computes is [min(1, max(0, quality / 100))] and lies in
    [0, 1], also for a negative quality and one above 100; it is the
    quality [convertImage] hands to the canvas encoder. *)
Theorem qualityToFloat_in_unit_interval (quality : num) :
  PrimFloat.is_nan quality = false ->
  qualityToFloat quality = js_min 1 (js_max 0 (quality / 100)) /\
  between 0 1 (qualityToFloat quality) = true /\
  forall (codecs : Codecs) browser file options config mime q,
    config = ConfigJpeg quality \/ config = ConfigWebp quality ->
    EvEncodeCanvas mime q ∈ traceOf (convertImage browser file config options) ->
    q = qualityToFloat quality.
Proof.
  intros Hq. split; [reflexivity|]. split.
  - unfold qualityToFloat. apply clamp_between; try reflexivity; try discriminate.
    eapply div_finite_not_nan; [vm_compute; reflexivity|exact Hq].
  - intros codecs browser file options config mime q Hc Hin.
    pose proof (convertImage_encode_quality browser file config options) as Hall.
    rewrite Forall_forall in Hall. specialize (Hall _ Hin). simpl in Hall.
    destruct Hall as [_ ->]. destruct Hc as [-> | ->]; reflexivity.
Qed.

Lemma qualityToFloat_in_unit_interval_witness :
  qualityToFloat 250 = js_min 1 (js_max 0 (250 / 100)) /\
  between 0 1 (qualityToFloat 250) = true /\
  forall (codecs : Codecs) browser file options config mime q,
    config = ConfigJpeg 250 \/ config = ConfigWebp 250 ->
    EvEncodeCanvas mime q ∈ traceOf (convertImage browser file config options) ->
    q = qualityToFloat 250.
Proof.
  apply (qualityToFloat_in_unit_interval 250). reflexivity.
Defined.

(** NaN is a number the clamp does not bring into [0, 1]:
    [Math.max] and [Math.min] answer NaN. *)
Lemma qualityToFloat_nan :
  PrimFloat.is_nan (qualityToFloat PrimFloat.nan) = true /\
  between 0 1 (qualityToFloat PrimFloat.nan) = false.
Proof. split; reflexivity. Qed.

(* ===================================================================== *)
(** ** Colour reduction and PNG conversion *)
(* ===================================================================== *)

Lemma storeChannel_byte (v : Z) : isByte v -> storeChannel (Some v) = v.
Proof. unfold isByte, storeChannel. lia. Qed.

(** The loop throws only on an index outside the palette. *)
Lemma reduceLoop_total source palette preserveAlpha : forall indices i result,
  Forall (fun index => is_Some (palette !! index)) indices ->
  is_Some (reduceLoop source palette preserveAlpha indices i result).
Proof.
  induction indices as [|index rest IH]; intros i result Hall; [simpl; eauto|].
  inversion Hall as [|? ? [color Hc] Hrest]; subst.
  cbn [reduceLoop]. rewrite Hc. now apply IH.
Qed.

(** Without [preserveAlpha], pixel [i + p] of the result holds the palette
    entry chosen by the [p]-th index, and alpha 255. *)
Lemma reduceLoop_opaque source palette : forall indices i result out,
  reduceLoop source palette false indices i result = Some out ->
  (4 * (i + length indices) <= length result)%nat ->
  length out = length result /\
  (forall j, (j < 4 * i)%nat -> out !! j = result !! j) /\
  forall p index color,
    indices !! p = Some index -> palette !! index = Some color ->
    out !! (4 * (i + p))%nat = Some (storeChannel (color !! 0%nat)) /\
    out !! (4 * (i + p) + 1)%nat = Some (storeChannel (color !! 1%nat)) /\
    out !! (4 * (i + p) + 2)%nat = Some (storeChannel (color !! 2%nat)) /\
    out !! (4 * (i + p) + 3)%nat = Some 255.
Proof.
  induction indices as [|index rest IH]; intros i result out Hrun Hlen.
  - simpl in Hrun. injection Hrun as <-.
    split; [reflexivity|]. split; [reflexivity|].
    intros [|?] ? ? Hnil; discriminate Hnil.
  - cbn [reduceLoop] in Hrun. cbn [length] in Hlen.
    destruct (palette !! index) as [paletteColor|] eqn:Hpal; [|discriminate].
    apply IH in Hrun; [|rewrite !length_insert; lia].
    destruct Hrun as (Hl & Hbelow & Hpix).
    rewrite !length_insert in Hl. split; [exact Hl|]. split.
    + intros j Hj. rewrite Hbelow by lia.
      rewrite !list_lookup_insert_ne by lia. reflexivity.
    + intros [|p] index' color Hidx Hcol.
      * simpl in Hidx. injection Hidx as <-. rewrite Hpal in Hcol. injection Hcol as <-.
        rewrite Nat.add_0_r. rewrite !Hbelow by lia.
        replace (i * 4)%nat with (4 * i)%nat by lia.
        repeat split.
        -- rewrite !list_lookup_insert_ne by lia.
           now rewrite list_lookup_insert_eq by lia.
        -- rewrite !list_lookup_insert_ne by lia.
           now rewrite list_lookup_insert_eq by (rewrite ?length_insert; lia).
        -- rewrite !list_lookup_insert_ne by lia.
           now rewrite list_lookup_insert_eq by (rewrite ?length_insert; lia).
        -- now rewrite list_lookup_insert_eq by (rewrite ?length_insert; lia).
      * simpl in Hidx. replace (i + S p)%nat with (S i + p)%nat by lia.
        now apply (Hpix p index' color).
Qed.

(** C4. Colour reduction without [preserveAlpha]: the buffer [convertPng]
    hands to the encoder has, at every pixel, alpha 255 and the red, green
    and blue of the palette entry chosen for that pixel, the palette and
    the choice being made on the buffer composited over the background. *)
Theorem reduceColors_opaque {codecs : Codecs} (imageData : ImageData)
    (options : PngConversionOptions) (n : nat) :
  pngPreserveAlpha options = false ->
  pngReduceColors options = true ->
  pngColorCount options < 256 ->
  let source := applyBackground (imgData imageData)
                  (parseHexColor (pngBackgroundColor options)) in
  let palette := quantizePalette source (ensureColorCount (pngColorCount options))
                   {| format := Rgb565; oneBitAlpha := Some true;
                      clearAlpha := Some true |} in
  let indices := applyPaletteMapping source palette Rgb565 in
  length source = (4 * n)%nat ->
  length indices = n ->
  Forall (fun index => exists color, palette !! index = Some color /\
                         Forall isByte color /\ (3 <= length color)%nat) indices ->
  exists result,
    outcomeOf (pngProcessed imageData options) = inr result /\
    length result = length source /\
    forall p, (p < n)%nat ->
      exists index color,
        indices !! p = Some index /\ palette !! index = Some color /\
        result !! (4 * p)%nat = color !! 0%nat /\
        result !! (4 * p + 1)%nat = color !! 1%nat /\
        result !! (4 * p + 2)%nat = color !! 2%nat /\
        result !! (4 * p + 3)%nat = Some 255.
Proof.
  intros Halpha Hreduce Hcount source palette indices Hlen Hn Hpal.
  assert (Hsome : is_Some (reduceLoop source palette false indices 0
                             (replicate (length source) 0))).
  { apply reduceLoop_total. eapply Forall_impl; [exact Hpal|].
    intros index (color & Hc & _). eauto. }
  destruct Hsome as [out Hout].
  exists out.
  destruct (reduceLoop_opaque source palette indices 0 _ out Hout) as (Hl & _ & Hpix).
  { rewrite length_replicate. lia. }
  rewrite length_replicate in Hl.
  split; [|split; [exact Hl|]].
  - unfold_eff. rewrite Halpha, Hreduce. simpl.
    assert (Hlt : (pngColorCount options <? 256) = true) by (apply Z.ltb_lt; lia).
    rewrite Hlt. simpl. fold source. fold palette. fold indices.
    now rewrite Hout.
  - intros p Hp.
    destruct (lookup_lt_is_Some_2 indices p) as [index Hidx]; [lia|].
    rewrite Forall_lookup in Hpal.
    destruct (Hpal _ _ Hidx) as (color & Hcol & Hbytes & Hlen3).
    exists index, color. split; [exact Hidx|]. split; [exact Hcol|].
    destruct (Hpix p index color Hidx Hcol) as (H0 & H1 & H2 & H3).
    rewrite Nat.add_0_l in H0, H1, H2, H3.
    destruct color as [|r [|g [|b rest]]]; simpl in Hlen3; try lia.
    inversion Hbytes as [|? ? Hr Hb1]; subst.
    inversion Hb1 as [|? ? Hg Hb2]; subst.
    inversion Hb2 as [|? ? Hb Hb3]; subst.
    change ((r :: g :: b :: rest) !! 0%nat) with (Some r) in *.
    change ((r :: g :: b :: rest) !! 1%nat) with (Some g) in *.
    change ((r :: g :: b :: rest) !! 2%nat) with (Some b) in *.
    rewrite storeChannel_byte in H0, H1, H2 by assumption.
    auto.
Qed.

Lemma reduceColors_opaque_witness :
  exists result,
    outcomeOf (pngProcessed (codecs := exampleCodecs)
                 (mkImageData 2 1 [250; 0; 0; 128; 0; 0; 250; 0])
                 (mkPngOptions 16 true false "#ffffff" false)) = inr result /\
    length result = 8%nat /\
    forall p, (p < 2)%nat ->
      exists index color,
        replicate 2 0%nat !! p = Some index /\
        [[17; 34; 51; 255]] !! index = Some color /\
        result !! (4 * p)%nat = color !! 0%nat /\
        result !! (4 * p + 1)%nat = color !! 1%nat /\
        result !! (4 * p + 2)%nat = color !! 2%nat /\
        result !! (4 * p + 3)%nat = Some 255.
Proof.
  apply (reduceColors_opaque (codecs := exampleCodecs)
           (mkImageData 2 1 [250; 0; 0; 128; 0; 0; 250; 0])
           (mkPngOptions 16 true false "#ffffff" false) 2);
    try reflexivity.
  repeat constructor; exists [17; 34; 51; 255];
    (split; [reflexivity|split; [repeat constructor; unfold isByte; lia|simpl; lia]]).
Defined.



(* ===================================================================== *)
(** ** The quantizer: size of the palette *)
(* ===================================================================== *)

Module QuantizerFacts.

Import Quantizer.

Lemma bump_nonempty key hist : bump key hist <> [].
Proof.
  destruct hist as [|[k n] rest]; simpl; [discriminate|].
  destruct (key <? k); [discriminate|]. destruct (key =? k); discriminate.
Qed.

Lemma fold_bump_nonempty opts pixels : forall hist,
  hist <> [] ->
  fold_left (fun hist p => bump (pack opts p) hist) pixels hist <> [].
Proof.
  induction pixels as [|p rest IH]; intros hist H; simpl; [exact H|].
  apply IH, bump_nonempty.
Qed.

Lemma histogram_nonempty opts pixels :
  pixels <> [] -> histogram opts pixels <> [].
Proof.
  destruct pixels as [|p rest]; [congruence|]. intros _.
  unfold histogram. simpl. apply fold_bump_nonempty. discriminate.
Qed.

(** A split replaces one box by two. *)
Lemma splitOne_length boxes boxes' :
  splitOne boxes = Some boxes' -> length boxes' = S (length boxes).
Proof.
  unfold splitOne. intros H.
  destruct (nextBox boxes 0 None) as [i|]; simpl in H; [|discriminate].
  destruct (boxes !! i) as [box|] eqn:Hbox; simpl in H; [|discriminate].
  destruct (splitBox box) as [halves|]; simpl in H; [|discriminate].
  injection H as <-.
  apply lookup_lt_Some in Hbox.
  rewrite length_app, length_take. cbn [app length]. rewrite length_drop. lia.
Qed.

Lemma reduceBoxes_length target : forall fuel boxes,
  (length boxes <= target)%nat ->
  (length boxes <= length (reduceBoxes fuel target boxes) <= target)%nat.
Proof.
  induction fuel as [|fuel IH]; intros boxes Hle; simpl; [lia|].
  destruct (length boxes <? target)%nat eqn:Hlt; [|lia].
  apply Nat.ltb_lt in Hlt.
  destruct (splitOne boxes) as [boxes'|] eqn:Hsplit; [|lia].
  apply splitOne_length in Hsplit.
  specialize (IH boxes' ltac:(lia)). lia.
Qed.

End QuantizerFacts.

(** C1. For every pixel buffer and every [targetColors] in [2, 256] the
    palette [quantizePalette] answers has at most [targetColors] entries,
    and at least one when the buffer is not empty; equal inputs and
    options give equal palettes. *)
Theorem quantizePalette_length (pixels : list Quantizer.Rgba) (targetColors : Z)
    (opts : Quantizer.Options) :
  2 <= targetColors <= 256 ->
  Z.of_nat (length (Quantizer.quantizePalette pixels targetColors opts)) <= targetColors /\
  (pixels <> [] ->
   (1 <= length (Quantizer.quantizePalette pixels targetColors opts))%nat) /\
  (forall pixels' targetColors' opts',
     pixels' = pixels -> targetColors' = targetColors -> opts' = opts ->
     Quantizer.quantizePalette pixels' targetColors' opts'
     = Quantizer.quantizePalette pixels targetColors opts).
Proof.
  intros Htarget.
  enough (Hsize : (1 <= Z.to_nat targetColors)%nat ->
            (length (Quantizer.quantizePalette pixels targetColors opts)
               <= Z.to_nat targetColors)%nat /\
            (pixels <> [] ->
             (1 <= length (Quantizer.quantizePalette pixels targetColors opts))%nat)).
  { destruct Hsize as [Hle Hge]; [lia|].
    split; [lia|]. split; [exact Hge|].
    intros ? ? ? -> -> ->. reflexivity. }
  intros Hpos. unfold Quantizer.quantizePalette. cbv zeta.
  destruct (length (Quantizer.histogram opts pixels) <=? Z.to_nat targetColors)%nat
    eqn:Hfew; rewrite length_map.
  - apply Nat.leb_le in Hfew. split; [exact Hfew|].
    intros Hne. pose proof (QuantizerFacts.histogram_nonempty opts pixels Hne) as Hh.
    destruct (Quantizer.histogram opts pixels); [congruence|simpl; lia].
  - match goal with
    | |- context [Quantizer.reduceBoxes ?f ?t ?bs] =>
      pose proof (QuantizerFacts.reduceBoxes_length t f bs) as Hlen
    end.
    simpl in Hlen. specialize (Hlen Hpos). lia.
Qed.

Lemma quantizePalette_length_witness :
  Z.of_nat (length (Quantizer.quantizePalette
                      [Quantizer.mkRgba 255 0 0 255; Quantizer.mkRgba 0 255 0 255;
                       Quantizer.mkRgba 0 0 255 255; Quantizer.mkRgba 9 9 9 255]
                      3 (Quantizer.mkOptions Rgb565 false true))) <= 3 /\
  ([Quantizer.mkRgba 255 0 0 255; Quantizer.mkRgba 0 255 0 255;
    Quantizer.mkRgba 0 0 255 255; Quantizer.mkRgba 9 9 9 255] <> [] ->
   (1 <= length (Quantizer.quantizePalette
                   [Quantizer.mkRgba 255 0 0 255; Quantizer.mkRgba 0 255 0 255;
                    Quantizer.mkRgba 0 0 255 255; Quantizer.mkRgba 9 9 9 255]
                   3 (Quantizer.mkOptions Rgb565 false true)))%nat) /\
  (forall pixels' targetColors' opts',
     pixels' = [Quantizer.mkRgba 255 0 0 255; Quantizer.mkRgba 0 255 0 255;
                Quantizer.mkRgba 0 0 255 255; Quantizer.mkRgba 9 9 9 255] ->
     targetColors' = 3 -> opts' = Quantizer.mkOptions Rgb565 false true ->
     Quantizer.quantizePalette pixels' targetColors' opts'
     = Quantizer.quantizePalette
         [Quantizer.mkRgba 255 0 0 255; Quantizer.mkRgba 0 255 0 255;
          Quantizer.mkRgba 0 0 255 255; Quantizer.mkRgba 9 9 9 255]
         3 (Quantizer.mkOptions Rgb565 false true)).
Proof.
  apply (quantizePalette_length
           [Quantizer.mkRgba 255 0 0 255; Quantizer.mkRgba 0 255 0 255;
            Quantizer.mkRgba 0 0 255 255; Quantizer.mkRgba 9 9 9 255]
           3 (Quantizer.mkOptions Rgb565 false true)).
  lia.
Defined.

(** The quantizer on four colours: three boxes when three are asked for,
    the four colours themselves when four are. *)
Example quantizePalette_four_colours :
  Quantizer.quantizePalette
    [Quantizer.mkRgba 255 0 0 255; Quantizer.mkRgba 0 255 0 255;
     Quantizer.mkRgba 0 0 255 255; Quantizer.mkRgba 9 9 9 255]
    3 (Quantizer.mkOptions Rgb565 false true)
  = [[0; 0; 248]; [248; 0; 0]; [4; 130; 4]] /\
  Quantizer.quantizePalette
    [Quantizer.mkRgba 255 0 0 255; Quantizer.mkRgba 0 255 0 255;
     Quantizer.mkRgba 0 0 255 255; Quantizer.mkRgba 9 9 9 255]
    4 (Quantizer.mkOptions Rgb565 false true)
  = [[0; 0; 248]; [0; 252; 0]; [8; 8; 8]; [248; 0; 0]].
Proof. split; reflexivity. Qed.

(* ===================================================================== *)
(** ** More on [convertImage] *)
(* ===================================================================== *)

Ltac convert_cases browser file :=
  unfold_eff; simpl; load_paths browser file;
  try match goal with
      | |- context [context2d browser] =>
        destruct (context2d browser) eqn:?; simpl
      end;
  try match goal with
      | |- context [(?w =? 0) || (?h =? 0)] =>
        destruct ((w =? 0) || (h =? 0)) eqn:?; simpl
      end;
  try match goal with
      | |- context [match ?config with ConfigJpeg _ => _ | _ => _ end] =>
        destruct config as [?q|?q|?pngOptions|?gifOptions]; simpl;
        try match goal with
            | |- context [readablePixels browser] =>
              destruct (readablePixels browser) eqn:?; simpl
            end
      end.

(** X1. [release] is called exactly once, and last, whenever the image
    source was loaded, whether the conversion then succeeds or throws; it
    is not called when loading fails. *)
Theorem convertImage_releases_once {codecs : Codecs} (browser : Browser)
    (file : File) (config : ConversionConfig) (options : option ConvertImageOptions) :
  match decodeImage browser file with
  | Some _ =>
    last (traceOf (convertImage browser file config options)) = Some EvRelease /\
    length (filter isRelease (traceOf (convertImage browser file config options))) = 1%nat
  | None =>
    filter isRelease (traceOf (convertImage browser file config options)) = [] /\
            exists message,
              outcomeOf (convertImage browser file config options) = inl message
  end.
Proof.
  cbv zeta. convert_cases browser file;
    repeat match goal with
    | |- context [match ?x with _ => _ end] =>
      lazymatch x with
      | context [match _ with _ => _ end] => fail
      | _ => destruct x eqn:?; simpl
      end
    end; try (split; reflexivity); split; eauto.
Qed.

(** X2. A conversion that succeeds answers the width and height of the
    loaded source, both non-zero, and the object URL created for its blob.
    That URL is the only one created when the source is a bitmap; when
    the source is an image element, [loadImageSource] has created one more,
    for the file.  A conversion that throws creates no URL for a blob: it
    has created none at all on the bitmap path and the one of the file on
    the image element path.  When the image itself fails to load, the URL
    of the file has been created and [release], which would revoke it, is
    never called. *)
Theorem convertImage_result {codecs : Codecs} (browser : Browser)
    (file : File) (config : ConversionConfig) (options : option ConvertImageOptions) :
  match outcomeOf (convertImage browser file config options) with
  | inr result =>
    (exists pixels,
       decodeImage browser file = Some (width result, height result, pixels)) /\
    width result <> 0 /\ height result <> 0 /\
    url result = createObjectURL browser (blob result) /\
    length (filter isCreateObjectURL
              (traceOf (convertImage browser file config options)))
    = (if viaImageElement browser file then 2 else 1)%nat
  | inl _ =>
    length (filter isCreateObjectURL
              (traceOf (convertImage browser file config options)))
    = (if viaImageElement browser file then 1 else 0)%nat /\
    (decodeImage browser file = None ->
     viaImageElement browser file = true /\
     filter isRelease (traceOf (convertImage browser file config options)) = [])
  end.
Proof.
  convert_cases browser file;
    repeat match goal with
    | |- context [match ?x with _ => _ end] =>
      lazymatch x with
      | context [match _ with _ => _ end] => fail
      | _ => destruct x eqn:?; simpl
      end
    end;
    try (split; [reflexivity|first [discriminate|intros _; split; reflexivity]]);
    match goal with
    | H : (?w =? 0) || (?h =? 0) = false |- _ =>
      apply orb_false_iff in H as [?%Z.eqb_neq ?%Z.eqb_neq]
    end;
    (split; [eauto|]); repeat split; assumption.
Qed.

(** X3. The lossy path does not fail when the boost does: it encodes the
    boosted canvas when the pixels can be read and the canvas as drawn
    when [getImageData] throws, at the quality [qualityToFloat] answers,
    and throws only when the encoder hands back no blob. *)
Theorem convertImage_lossy {codecs : Codecs} (browser : Browser)
    (file : File) (config : ConversionConfig) (options : option ConvertImageOptions)
    (w h : Z) (pixels : list Z) :
  decodeImage browser file = Some (w, h, pixels) ->
  context2d browser = true ->
  w <> 0 -> h <> 0 ->
  (exists q, config = ConfigJpeg q \/ config = ConfigWebp q) ->
  outcomeOf (convertImage browser file config options) =
  match toBlob browser
          (if readablePixels browser
           then applyBoost (exponentiate browser)
                  match options with
                  | Some {| boost := Some b |} => b
                  | _ => defaultBoost
                  end pixels
           else pixels)
          (mimeMap config) (qualityToFloat (configQuality config)) with
  | Some encoded =>
    inr {| blob := encoded; url := createObjectURL browser encoded;
           width := w; height := h |}
  | None => inl "Conversion failed."
  end.
Proof.
  intros Hload Hctx Hw Hh [q Hq].
  assert (Hz : (w =? 0) || (h =? 0) = false).
  { apply orb_false_iff. split; now apply Z.eqb_neq. }
  unfold_eff. simpl. load_paths browser file; try discriminate Hload;
    injection Hload as -> -> ->;
    rewrite Hctx; simpl; rewrite Hz; simpl;
    (destruct Hq as [-> | ->]; simpl;
     destruct (readablePixels browser); simpl;
     destruct (toBlob browser _ _ _); reflexivity).
Qed.

Lemma convertImage_lossy_witness :
  outcomeOf (convertImage (codecs := exampleCodecs) (exampleBrowser 1 1)
               (mkFile "a.png" "image/png") (ConfigWebp 78) None) =
  match toBlob (exampleBrowser 1 1)
          (if readablePixels (exampleBrowser 1 1)
           then applyBoost (exponentiate (exampleBrowser 1 1)) defaultBoost
                  (replicate (Z.to_nat (4 * 1 * 1)) 200)
           else replicate (Z.to_nat (4 * 1 * 1)) 200)
          (mimeMap (ConfigWebp 78)) (qualityToFloat (configQuality (ConfigWebp 78))) with
  | Some encoded =>
    inr {| blob := encoded; url := createObjectURL (exampleBrowser 1 1) encoded;
           width := 1; height := 1 |}
  | None => inl "Conversion failed."
  end.
Proof.
  apply (convertImage_lossy (codecs := exampleCodecs) (exampleBrowser 1 1)
           (mkFile "a.png" "image/png") (ConfigWebp 78) None 1 1
           (replicate (Z.to_nat (4 * 1 * 1)) 200)).
  - reflexivity.
  - reflexivity.
  - lia.
  - lia.
  - exists 78%float. right. reflexivity.
Defined.

(** X4. The two paths never mix: a GIF or PNG conversion applies no boost
    and calls no canvas encoder; a JPEG or WebP conversion calls neither
    [convertGifWithOptions], nor [convertPng], nor a quantizer, nor the PNG
    encoder. *)
Theorem convertImage_paths_exclusive {codecs : Codecs} (browser : Browser)
    (file : File) (config : ConversionConfig) (options : option ConvertImageOptions) :
  match config with
  | ConfigGif _ | ConfigPng _ => filter isLossyEvent (traceOf (convertImage browser file config options)) = []
  | ConfigJpeg _ | ConfigWebp _ => filter isPaletteEvent (traceOf (convertImage browser file config options)) = []
  end.
Proof.
  cbv zeta. convert_cases browser file;
    repeat match goal with
    | |- context [match ?x with _ => _ end] =>
      lazymatch x with
      | context [match _ with _ => _ end] => fail
      | _ => destruct x eqn:?; simpl
      end
    end; reflexivity.
Qed.

(* ===================================================================== *)
(** ** More on the capability probe *)
(* ===================================================================== *)

Lemma supportsCanvasEncoding_cached host mime st b :
  hasDocument host = true ->
  canvasEncodeSupport st !! mime = Some b ->
  supportsCanvasEncoding host mime st = (b, st).
Proof.
  intros Hdoc Hc. unfold supportsCanvasEncoding. now rewrite Hdoc, Hc.
Qed.

Lemma supportsCanvasEncoding_stores host mime st :
  hasDocument host = true ->
  canvasEncodeSupport (snd (supportsCanvasEncoding host mime st)) !! mime
  = Some (fst (supportsCanvasEncoding host mime st)).
Proof.
  intros Hdoc. unfold supportsCanvasEncoding. rewrite Hdoc. simpl.
  destruct (canvasEncodeSupport st !! mime) as [cached|] eqn:E; simpl.
  - exact E.
  - apply lookup_insert_eq.
Qed.

Lemma supportsCanvasEncoding_queries host mime st :
  (length (hostQueries (snd (supportsCanvasEncoding host mime st)))
   <= S (length (hostQueries st)))%nat.
Proof.
  unfold supportsCanvasEncoding.
  destruct (hasDocument host); simpl; [|lia].
  destruct (canvasEncodeSupport st !! mime); simpl; lia.
Qed.

Lemma getOutputFormatSupport_again (host : Host) (st : ModuleState) :
  getOutputFormatSupport host (snd (getOutputFormatSupport host st))
  = getOutputFormatSupport host st.
Proof.
  unfold getOutputFormatSupport.
  destruct (hasDocument host) eqn:Hdoc.
  - pose proof (supportsCanvasEncoding_stores host "image/jpeg" st Hdoc) as S1.
    destruct (supportsCanvasEncoding host "image/jpeg" st) as [j st1]. simpl in *.
    pose proof (supportsCanvasEncoding_stores host "image/webp" st1 Hdoc) as S2.
    pose proof (supportsCanvasEncoding_keeps host "image/webp" st1 _ _ S1) as K1.
    destruct (supportsCanvasEncoding host "image/webp" st1) as [w st2]. simpl in *.
    rewrite (supportsCanvasEncoding_cached host _ st2 j Hdoc K1).
    now rewrite (supportsCanvasEncoding_cached host _ st2 w Hdoc S2).
  - now rewrite !supportsCanvasEncoding_headless by exact Hdoc.
Qed.

Lemma getDefaultOutputFormat_preferred (host : Host) (st : ModuleState) :
  getDefaultOutputFormat host st
  = (preferredFormat (fst (getOutputFormatSupport host st)),
     snd (getOutputFormatSupport host st)).
Proof.
  unfold getDefaultOutputFormat.
  assert (Hpng : png (fst (getOutputFormatSupport host st)) = true).
  { unfold getOutputFormatSupport.
    destruct (supportsCanvasEncoding host "image/jpeg" st) as [j st1].
    destruct (supportsCanvasEncoding host "image/webp" st1) as [w st2].
    reflexivity. }
  destruct (getOutputFormatSupport host st) as [support st']. simpl in *.
  unfold preferredFormat. now rewrite Hpng.
Qed.

(** X5. [getOutputFormatSupport] queries the host at most twice, and
    calling it again answers the same record without any further query
    and without changing the cache, in every host. *)
Theorem getOutputFormatSupport_idempotent (host : Host) (st : ModuleState) :
  getOutputFormatSupport host (snd (getOutputFormatSupport host st))
  = getOutputFormatSupport host st /\
  (length (hostQueries (snd (getOutputFormatSupport host st)))
   <= 2 + length (hostQueries st))%nat.
Proof.
  split; [apply getOutputFormatSupport_again|].
  unfold getOutputFormatSupport.
  pose proof (supportsCanvasEncoding_queries host "image/jpeg" st) as Q1.
  destruct (supportsCanvasEncoding host "image/jpeg" st) as [j st1]. simpl in Q1.
  pose proof (supportsCanvasEncoding_queries host "image/webp" st1) as Q2.
  destruct (supportsCanvasEncoding host "image/webp" st1) as [w st2]. simpl in *.
  lia.
Qed.

(** X6. [getDefaultOutputFormat] never answers GIF: PNG is always
    supported, so the last fallback is never taken.  It answers WebP when
    the canvas encodes WebP, else JPEG when it encodes JPEG, else PNG; in a
    host without a document it answers WebP; and after
    [getOutputFormatSupport] it agrees with the record that call answered
    and leaves the module state alone. *)
Theorem getDefaultOutputFormat_never_gif (host : Host) (st : ModuleState) :
  fst (getDefaultOutputFormat host st) <> Gif /\
  fst (getDefaultOutputFormat host st)
    = preferredFormat (fst (getOutputFormatSupport host st)) /\
  (if hasDocument host then True
   else fst (getDefaultOutputFormat host st) = Webp) /\
  getDefaultOutputFormat host (snd (getOutputFormatSupport host st))
  = (preferredFormat (fst (getOutputFormatSupport host st)),
     snd (getOutputFormatSupport host st)).
Proof.
  split; [|split; [|split]].
  - rewrite getDefaultOutputFormat_preferred. simpl. unfold preferredFormat.
    destruct (webp _); [discriminate|]. destruct (jpeg _); discriminate.
  - now rewrite getDefaultOutputFormat_preferred.
  - destruct (hasDocument host) eqn:Hdoc; [exact I|].
    rewrite getDefaultOutputFormat_preferred. simpl. unfold getOutputFormatSupport.
    rewrite !supportsCanvasEncoding_headless by exact Hdoc. reflexivity.
  - rewrite getDefaultOutputFormat_preferred.
    now rewrite getOutputFormatSupport_again.
Qed.

(* ===================================================================== *)
(** ** Accepted input files *)
(* ===================================================================== *)

Lemma lowerChar_dot (c : ascii) :
  Ascii.eqb (lowerChar c) "."%char = Ascii.eqb c "."%char.
Proof. destruct c as [[] [] [] [] [] [] [] []]; reflexivity. Qed.

Lemma toLowerCase_app (a b : string) :
  toLowerCase (a +:+ b) = toLowerCase a +:+ toLowerCase b.
Proof. induction a as [|c a IH]; simpl; [reflexivity|]. now rewrite IH. Qed.

(** Lower-casing commutes with taking the last dot-separated segment. *)
Lemma toLowerCase_lastSegmentFrom (s : string) : forall acc,
  toLowerCase (lastSegmentFrom acc s)
  = lastSegmentFrom (toLowerCase acc) (toLowerCase s).
Proof.
  induction s as [|c s IH]; intros acc; simpl; [reflexivity|].
  rewrite lowerChar_dot. destruct (Ascii.eqb c "."%char).
  - apply IH.
  - rewrite IH, toLowerCase_app. reflexivity.
Qed.

Lemma toLowerCase_lastSegment (s : string) :
  toLowerCase (lastSegment s) = lastSegment (toLowerCase s).
Proof. apply (toLowerCase_lastSegmentFrom s EmptyString). Qed.

(** X7. [isSupportedInputFile] does not look at letter case: two files
    whose types and names differ only in the case of their letters are
    both accepted or both refused. *)
Theorem isSupportedInputFile_case_insensitive (f g : File) :
  toLowerCase (fileType f) = toLowerCase (fileType g) ->
  toLowerCase (fileName f) = toLowerCase (fileName g) ->
  isSupportedInputFile f = isSupportedInputFile g.
Proof.
  intros Htype Hname. unfold isSupportedInputFile.
  rewrite !toLowerCase_lastSegment, Htype, Hname. reflexivity.
Qed.

Lemma isSupportedInputFile_case_insensitive_witness :
  isSupportedInputFile (mkFile "HOLIDAY.Tar.JPG" "")
  = isSupportedInputFile (mkFile "holiday.tar.jpg" "").
Proof.
  apply (isSupportedInputFile_case_insensitive
           (mkFile "HOLIDAY.Tar.JPG" "") (mkFile "holiday.tar.jpg" ""));
    reflexivity.
Defined.

(** X8. What the converter writes it also reads: a file carrying the mime
    type of any output format is accepted as input whatever its name, and
    HDR detection guesses that same mime type for it. *)
Theorem output_formats_are_inputs (format : OutputFormat) (name : string) :
  isSupportedInputFile (mkFile name (getMimeType format)) = true /\
  guessMimeType (mkFile name (getMimeType format)) = Some (getMimeType format).
Proof. destruct format; split; reflexivity. Qed.

(** X9. Every file the uploader accepts gets a mime type guessed by HDR
    detection, and no file is ever guessed as ["image/jpg"]. *)
Theorem guessMimeType_of_accepted (file : File) :
  (isSupportedInputFile file = true -> is_Some (guessMimeType file)) /\
  guessMimeType file <> Some "image/jpg".
Proof.
  split.
  - unfold isSupportedInputFile, guessMimeType.
    destruct (String.eqb (fileType file) "") eqn:Etype; simpl.
    + apply String.eqb_eq in Etype. rewrite Etype.
      change (toLowerCase "") with EmptyString.
      set (extension := toLowerCase (lastSegment (fileName file))).
      clearbody extension. change (negb (String.eqb EmptyString EmptyString)) with false.
      cbv iota beta. rewrite andb_false_l.
      intros H. apply andb_true_iff in H as [_ H].
      repeat (apply orb_true_iff in H as [H|H]); try discriminate H;
        apply String.eqb_eq in H; rewrite H; simpl; eauto.
    + intros _. destruct (String.eqb (fileType file) "image/jpg"); eauto.
  - unfold guessMimeType.
    destruct (String.eqb (fileType file) "") eqn:Etype; simpl.
    + repeat match goal with
             | |- context [if ?c then _ else _] => destruct c
             end; discriminate.
    + destruct (String.eqb (fileType file) "image/jpg") eqn:Ejpg; [discriminate|].
      intros H. injection H as H. rewrite H in Ejpg. discriminate.
Qed.

Lemma guessMimeType_of_accepted_witness :
  is_Some (guessMimeType (mkFile "Scan.final.PNG" "")).
Proof.
  apply (proj1 (guessMimeType_of_accepted (mkFile "Scan.final.PNG" ""))).
  reflexivity.
Defined.

(* ===================================================================== *)
(** ** [clampByte] and the clamped store *)
(* ===================================================================== *)

Section ClampFacts.

#[local] Open Scope float_scope.

Lemma Prim2SF_zero : Prim2SF 0 = S754_zero false.
Proof. vm_compute. reflexivity. Qed.

Lemma Prim2SF_255 : Prim2SF 255 = S754_finite false 8972014882652160 (-45).
Proof. vm_compute. reflexivity. Qed.

(** A number is above zero, or at most zero, never both. *)
Lemma leb_zero_ltb (v : num) :
  PrimFloat.is_nan v = false -> (v <=? 0) = negb (0 <? v).
Proof.
  intros Hn. apply not_nan_Prim2SF in Hn.
  rewrite FloatAxioms.leb_spec, FloatAxioms.ltb_spec, Prim2SF_zero.
  unfold SFleb, SFltb.
  destruct (Prim2SF v) as [s|s| |s m e]; try congruence; destruct s; reflexivity.
Qed.

(** A number that is neither below nor above 255 is at least 255. *)
Lemma leb_255_when_equal (v : num) :
  PrimFloat.is_nan v = false ->
  (255 <? v) = false -> (v <? 255) = false -> (255 <=? v) = true.
Proof.
  intros Hn. apply not_nan_Prim2SF in Hn.
  rewrite FloatAxioms.leb_spec, !FloatAxioms.ltb_spec, Prim2SF_255.
  generalize 8972014882652160%positive. intros p.
  unfold SFleb, SFltb, SFcompare.
  destruct (Prim2SF v) as [s|s| |s m e]; try congruence;
    destruct s; cbv beta iota; try (intros; congruence).
  rewrite (Z.compare_antisym (-45) e).
  destruct (Z.compare_spec (-45) e) as [He|He|He]; cbn [CompOpp];
    try (intros; congruence).
  change (PosDef.Pos.compare_cont Eq m p) with (m ?= p)%positive.
  change (PosDef.Pos.compare_cont Eq p m) with (p ?= m)%positive.
  rewrite (Pos.compare_antisym p m).
  destruct (p ?= m)%positive; cbn [CompOpp]; intros; congruence.
Qed.

End ClampFacts.

(** X10. The explicit [clampByte] of [applyBoost] is absorbed by the
    store: writing [clampByte v] into a [Uint8ClampedArray] stores the very
    byte that writing [v] would, for every number [v], NaN and the
    infinities included. *)
Theorem toUint8Clamp_clampByte (v : num) :
  toUint8Clamp (clampByte v) = toUint8Clamp v.
Proof.
  unfold clampByte. destruct (PrimFloat.is_nan v) eqn:Hn.
  - unfold js_max. rewrite Hn, orb_true_r. unfold toUint8Clamp at 2. rewrite Hn.
    reflexivity.
  - pose proof (leb_zero_ltb v Hn) as Hz.
    assert (Hmax : js_max 0 v = if PrimFloat.ltb 0 v then v else 0%float).
    { unfold js_max. rewrite Hn. simpl.
      destruct (PrimFloat.ltb 0 v); [reflexivity|].
      destruct (PrimFloat.ltb v 0); reflexivity. }
    rewrite Hmax. destruct (PrimFloat.ltb 0 v) eqn:Hpos.
    + unfold js_min. rewrite Hn. simpl.
      destruct (PrimFloat.ltb 255 v) eqn:Hgt.
      * unfold toUint8Clamp at 2. rewrite Hn, Hz. simpl.
        now rewrite (ltb_leb _ _ Hgt).
      * destruct (PrimFloat.ltb v 255) eqn:Hlt; [reflexivity|].
        simpl. unfold toUint8Clamp at 2. rewrite Hn, Hz. simpl.
        now rewrite (leb_255_when_equal v Hn Hgt Hlt).
    + unfold toUint8Clamp at 2. rewrite Hn, Hz. reflexivity.
Qed.

(* ===================================================================== *)
(** ** More on [reduceColors] *)
(* ===================================================================== *)

(** What the loop of [reduceColors] leaves in the result, for any
    [preserveAlpha]. *)
Lemma reduceLoop_pixels source palette keep : forall indices i result out,
  reduceLoop source palette keep indices i result = Some out ->
  (4 * (i + length indices) <= length result)%nat ->
  length out = length result /\
  (forall j, (j < 4 * i)%nat \/ (4 * (i + length indices) <= j)%nat ->
             out !! j = result !! j) /\
  forall p index color,
    indices !! p = Some index -> palette !! index = Some color ->
    out !! (4 * (i + p))%nat = Some (storeChannel (color !! 0%nat)) /\
    out !! (4 * (i + p) + 1)%nat = Some (storeChannel (color !! 1%nat)) /\
    out !! (4 * (i + p) + 2)%nat = Some (storeChannel (color !! 2%nat)) /\
    out !! (4 * (i + p) + 3)%nat =
      Some (if keep && (3 <? length color)%nat
            then storeChannel (color !! 3%nat)
            else if keep then storeChannel (source !! (4 * (i + p) + 3)%nat)
                 else 255).
Proof.
  induction indices as [|index rest IH]; intros i result out Hrun Hlen.
  - simpl in Hrun. injection Hrun as <-.
    split; [reflexivity|]. split; [reflexivity|].
    intros [|?] ? ? Hnil; discriminate Hnil.
  - cbn [reduceLoop] in Hrun. cbn [length] in Hlen.
    destruct (palette !! index) as [paletteColor|] eqn:Hpal; [|discriminate].
    apply IH in Hrun; [|rewrite !length_insert; lia].
    destruct Hrun as (Hl & Hout & Hpix).
    rewrite !length_insert in Hl. split; [exact Hl|]. split.
    + intros j Hj. cbn [length] in Hj. rewrite Hout by lia.
      rewrite !list_lookup_insert_ne by lia. reflexivity.
    + intros [|p] index' color Hidx Hcol.
      * simpl in Hidx. injection Hidx as <-. rewrite Hpal in Hcol. injection Hcol as <-.
        rewrite Nat.add_0_r. rewrite !Hout by lia.
        replace (i * 4)%nat with (4 * i)%nat by lia.
        repeat split.
        -- rewrite !list_lookup_insert_ne by lia.
           now rewrite list_lookup_insert_eq by lia.
        -- rewrite !list_lookup_insert_ne by lia.
           now rewrite list_lookup_insert_eq by (rewrite ?length_insert; lia).
        -- rewrite !list_lookup_insert_ne by lia.
           now rewrite list_lookup_insert_eq by (rewrite ?length_insert; lia).
        -- now rewrite list_lookup_insert_eq by (rewrite ?length_insert; lia).
      * simpl in Hidx. replace (i + S p)%nat with (S i + p)%nat by lia.
        now apply (Hpix p index' color).
Qed.

Lemma reduceLoop_throws source palette keep : forall indices i result,
  reduceLoop source palette keep indices i result = None <->
  Exists (fun index => palette !! index = None) indices.
Proof.
  induction indices as [|index rest IH]; intros i result; cbn [reduceLoop].
  - split; [discriminate|]. intros H. inversion H.
  - destruct (palette !! index) as [color|] eqn:Hpal.
    + rewrite IH. split; [now right|].
      intros H. inversion H as [? ? Hx|? ? Hx]; subst; [congruence|exact Hx].
    + split; [intros _; now left|reflexivity].
Qed.

(** X11. Colour reduction with [preserveAlpha]: each pixel takes its alpha
    from the palette entry chosen for it when that entry has a fourth
    channel, and from the source pixel otherwise; its red, green and blue
    come from the entry.  Bytes of the result that belong to no index of
    the mapper stay 0, and the result has the length of the source. *)
Theorem reduceColors_preserving_alpha {codecs : Codecs} (source : list Z)
    (targetColors : Z) (result : list Z) :
  (4 * length (reductionIndices source targetColors true) <= length source)%nat ->
  outcomeOf (reduceColors source targetColors true) = inr result ->
  length result = length source /\
  (forall j,
     (4 * length (reductionIndices source targetColors true) <= j < length source)%nat ->
     result !! j = Some 0) /\
  forall p index color,
    reductionIndices source targetColors true !! p = Some index ->
    reductionPalette source targetColors true !! index = Some color ->
    result !! (4 * p)%nat = Some (storeChannel (color !! 0%nat)) /\
    result !! (4 * p + 1)%nat = Some (storeChannel (color !! 1%nat)) /\
    result !! (4 * p + 2)%nat = Some (storeChannel (color !! 2%nat)) /\
    result !! (4 * p + 3)%nat =
      Some (if (3 <? length color)%nat then storeChannel (color !! 3%nat)
            else storeChannel (source !! (4 * p + 3)%nat)).
Proof.
  unfold reductionIndices, reductionPalette. cbv beta iota.
  set (palette := quantizePalette source targetColors
                    {| format := Rgba4444; oneBitAlpha := None;
                       clearAlpha := Some true |}).
  set (indices := applyPaletteMapping source palette Rgba4444).
  intros Hlen Hrun.
  cbv [outcomeOf reduceColors bind emit ret throw] in Hrun. simpl in Hrun.
  fold palette in Hrun. fold indices in Hrun.
  destruct (reduceLoop source palette true indices 0 (replicate (length source) 0))
    as [out|] eqn:Hloop; [|discriminate].
  injection Hrun as <-.
  destruct (reduceLoop_pixels source palette true indices 0 _ out Hloop)
    as (Hl & Hout & Hpix).
  { rewrite length_replicate. lia. }
  rewrite length_replicate in Hl.
  split; [exact Hl|]. split.
  - intros j Hj. rewrite Hout by lia. apply lookup_replicate_2. lia.
  - intros p index color Hidx Hcol.
    destruct (Hpix p index color Hidx Hcol) as (H0 & H1 & H2 & H3).
    rewrite Nat.add_0_l in H0, H1, H2, H3. cbn [andb] in H3. auto.
Qed.

Lemma reduceColors_preserving_alpha_witness :
  length [17; 34; 51; 255; 17; 34; 51; 255] = length [250; 0; 0; 128; 0; 0; 250; 0] /\
  (forall j, (4 * length (replicate 2 0%nat) <= j < length [250; 0; 0; 128; 0; 0; 250; 0])%nat ->
             [17; 34; 51; 255; 17; 34; 51; 255] !! j = Some 0) /\
  forall p index color,
    replicate 2 0%nat !! p = Some index -> [[17; 34; 51; 255]] !! index = Some color ->
    [17; 34; 51; 255; 17; 34; 51; 255] !! (4 * p)%nat = Some (storeChannel (color !! 0%nat)) /\
    [17; 34; 51; 255; 17; 34; 51; 255] !! (4 * p + 1)%nat = Some (storeChannel (color !! 1%nat)) /\
    [17; 34; 51; 255; 17; 34; 51; 255] !! (4 * p + 2)%nat = Some (storeChannel (color !! 2%nat)) /\
    [17; 34; 51; 255; 17; 34; 51; 255] !! (4 * p + 3)%nat =
      Some (if (3 <? length color)%nat then storeChannel (color !! 3%nat)
            else storeChannel ([250; 0; 0; 128; 0; 0; 250; 0] !! (4 * p + 3)%nat)).
Proof.
  apply (reduceColors_preserving_alpha (codecs := exampleCodecs)
           [250; 0; 0; 128; 0; 0; 250; 0] 16 [17; 34; 51; 255; 17; 34; 51; 255]).
  - simpl. lia.
  - reflexivity.
Defined.

(** X12. [reduceColors] throws exactly when the mapper answers an index
    that lies outside the palette; otherwise it answers a buffer of the
    length of the source. *)
Theorem reduceColors_throws_on_bad_index {codecs : Codecs} (source : list Z)
    (targetColors : Z) (preserveAlpha : bool) :
  match outcomeOf (reduceColors source targetColors preserveAlpha) with
  | inl _ =>
    Exists (fun index => reductionPalette source targetColors preserveAlpha !! index = None)
           (reductionIndices source targetColors preserveAlpha)
  | inr result =>
    Forall (fun index =>
              is_Some (reductionPalette source targetColors preserveAlpha !! index))
           (reductionIndices source targetColors preserveAlpha) /\
    ((4 * length (reductionIndices source targetColors preserveAlpha)
      <= length source)%nat ->
     length result = length source)
  end.
Proof.
  unfold reductionIndices, reductionPalette.
  set (fmt := if preserveAlpha then Rgba4444 else Rgb565).
  set (palette := quantizePalette source targetColors
                    {| format := fmt;
                       oneBitAlpha := if preserveAlpha then None else Some true;
                       clearAlpha := Some true |}).
  set (indices := applyPaletteMapping source palette fmt).
  unfold_eff. simpl. fold fmt palette indices.
  destruct (reduceLoop source palette preserveAlpha indices 0
              (replicate (length source) 0)) as [out|] eqn:Hloop; simpl.
  - split.
    + apply Forall_forall. intros index Hin.
      destruct (palette !! index) eqn:E; [eauto|].
      assert (Hnone : reduceLoop source palette preserveAlpha indices 0
                        (replicate (length source) 0) = None).
      { apply reduceLoop_throws. apply Exists_exists. eauto. }
      rewrite Hloop in Hnone. discriminate.
    + intros Hlen.
      destruct (reduceLoop_pixels _ _ _ _ 0 _ out Hloop) as (Hl & _).
      { rewrite length_replicate. lia. }
      now rewrite length_replicate in Hl.
  - now apply reduceLoop_throws in Hloop.
Qed.

(* ===================================================================== *)
(** ** Searching bytes for a signature *)
(* ===================================================================== *)

Lemma startsWith_spec (needle : list Z) : forall hay,
  startsWith needle hay = true <-> exists post, hay = needle ++ post.
Proof.
  induction needle as [|n needle IH]; intros hay; simpl.
  - split; [eauto|reflexivity].
  - destruct hay as [|h hay].
    + split; [discriminate|]. intros [post H]. discriminate H.
    + rewrite andb_true_iff, Z.eqb_eq, IH. split.
      * intros [-> [post ->]]. eauto.
      * intros [post H]. injection H as -> ->. eauto.
Qed.

Lemma includes_spec (needle : list Z) : forall hay,
  includes hay needle = true <-> exists pre post, hay = pre ++ needle ++ post.
Proof.
  induction hay as [|h hay IH]; simpl.
  - rewrite orb_false_r, startsWith_spec. split.
    + intros [post H]. exists [], post. exact H.
    + intros (pre & post & H). destruct pre as [|p pre]; [eauto|discriminate H].
  - rewrite orb_true_iff, startsWith_spec, IH. split.
    + intros [[post H]|(pre & post & H)].
      * exists [], post. exact H.
      * exists (h :: pre), post. now rewrite H.
    + intros (pre & post & H). destruct pre as [|p pre].
      * left. eauto.
      * right. injection H as -> H. eauto.
Qed.

(** What occurs in a slice occurs in the whole. *)
Lemma includes_slice (l needle : list Z) (n k : nat) :
  includes (take n (drop k l)) needle = true -> includes l needle = true.
Proof.
  rewrite !includes_spec. intros (pre & post & H).
  exists (take k l ++ pre), (post ++ drop n (drop k l)).
  rewrite <- (take_drop k l) at 1. rewrite <- (take_drop n (drop k l)) at 1.
  rewrite H, <- !app_assoc. reflexivity.
Qed.

Lemma includes_short (needle : list Z) : forall hay,
  (length hay < length needle)%nat -> includes hay needle = false.
Proof.
  intros hay Hlen. destruct (includes hay needle) eqn:E; [|reflexivity].
  apply includes_spec in E as (pre & post & ->).
  rewrite !length_app in Hlen. lia.
Qed.

Lemma textScan_slice (l : list Z) (n k : nat) :
  textScan (take n (drop k l)) = true -> textScan l = true.
Proof.
  unfold textScan. rewrite !existsb_exists.
  intros (sig & Hin & H). exists sig. split; [exact Hin|].
  rewrite <- firstn_map, <- skipn_map in H. exact (includes_slice _ _ _ _ H).
Qed.

(** The test [(b | 0x20) === c] of the fallback loop, for the five letters
    it looks for, is the test that the byte lower-cases to [c]. *)
Lemma orSpace_letters :
  forallb (fun b =>
    forallb (fun c => Bool.eqb (Z.lor b 32 =? c) (c =? lowerByte b))
            [104; 100; 114; 103; 109]) allBytes = true.
Proof. vm_compute. reflexivity. Qed.

Lemma orSpace_letter (b c : Z) :
  isByte b -> In c [104; 100; 114; 103; 109] ->
  (Z.lor b 32 =? c) = (c =? lowerByte b).
Proof.
  intros Hb Hc. pose proof orSpace_letters as H.
  rewrite forallb_forall in H. specialize (H b (allBytes_spec b Hb)).
  rewrite forallb_forall in H. specialize (H c Hc).
  now apply Bool.eqb_prop in H.
Qed.

Lemma manualScanFrom_spec (bytes : list Z) :
  Forall isByte bytes ->
  forall fuel i,
    (length bytes <= i + fuel + 4)%nat ->
    manualScanFrom fuel i bytes
    = includes (map lowerByte (drop i bytes)) (codesOf "hdrgm").
Proof.
  intros Hbytes. induction fuel as [|fuel IH]; intros i Hfuel.
  - simpl. symmetry. apply includes_short.
    rewrite length_map, length_drop. simpl. lia.
  - cbn [manualScanFrom]. destruct (i + 5 <=? length bytes)%nat eqn:Hi.
    + apply Nat.leb_le in Hi.
      assert (Hd : exists b0 b1 b2 b3 b4 rest,
                 drop i bytes = b0 :: b1 :: b2 :: b3 :: b4 :: rest).
      { pose proof (length_drop bytes i) as Hl.
        destruct (drop i bytes) as [|b0 [|b1 [|b2 [|b3 [|b4 rest]]]]];
          simpl in Hl; try lia. eauto 10. }
      destruct Hd as (b0 & b1 & b2 & b3 & b4 & rest & Hd).
      assert (Hat : forall k b, (b0 :: b1 :: b2 :: b3 :: b4 :: rest) !! k = Some b ->
                      orSpace bytes (i + k) = Z.lor b 32 /\ isByte b).
      { intros k b Hk. rewrite <- Hd, lookup_drop in Hk.
        unfold orSpace. rewrite Hk. split; [reflexivity|].
        rewrite Forall_lookup in Hbytes. exact (Hbytes _ _ Hk). }
      destruct (Hat 0%nat b0 eq_refl) as [E0 B0].
      destruct (Hat 1%nat b1 eq_refl) as [E1 B1].
      destruct (Hat 2%nat b2 eq_refl) as [E2 B2].
      destruct (Hat 3%nat b3 eq_refl) as [E3 B3].
      destruct (Hat 4%nat b4 eq_refl) as [E4 B4].
      rewrite Nat.add_0_r in E0. rewrite E0, E1, E2, E3, E4.
      rewrite !orSpace_letter by (try assumption; simpl; tauto).
      rewrite (IH (i + 1)%nat) by lia.
      rewrite <- (drop_drop bytes 1 i), Hd.
      cbn [drop skipn map includes startsWith codesOf String.list_ascii_of_string
                       nat_of_ascii Z.of_nat].
      change (Z.of_nat (nat_of_ascii "h")) with 104.
      change (Z.of_nat (nat_of_ascii "d")) with 100.
      change (Z.of_nat (nat_of_ascii "r")) with 114.
      change (Z.of_nat (nat_of_ascii "g")) with 103.
      change (Z.of_nat (nat_of_ascii "m")) with 109.
      rewrite andb_true_r, <- !andb_assoc.
      destruct (_ && _); reflexivity.
    + apply Nat.leb_gt in Hi. symmetry. apply includes_short.
      rewrite length_map, length_drop. simpl. lia.
Qed.

Lemma manualScan_includes (bytes : list Z) :
  Forall isByte bytes ->
  manualScan bytes = includes (map lowerByte bytes) (codesOf "hdrgm").
Proof.
  intros Hbytes. unfold manualScan.
  rewrite (manualScanFrom_spec bytes Hbytes (length bytes) 0) by lia.
  now rewrite drop_0.
Qed.

(** X13. Without a [TextDecoder] the scan is the loop over
    [i <= bytes.length - 5] with the [| 0x20] tests: it answers [true]
    exactly when "hdrgm" occurs in the bytes, letter case ignored. *)
Theorem manualScan_finds_hdrgm (bytes : list Z) :
  Forall isByte bytes ->
  manualScan bytes = true <->
  exists before after,
    map lowerByte bytes = before ++ codesOf "hdrgm" ++ after.
Proof.
  intros Hbytes. rewrite (manualScan_includes bytes Hbytes).
  apply includes_spec.
Qed.

Lemma manualScan_finds_hdrgm_witness :
  manualScan (codesOf "Exif..HdRgM:Version") = true <->
  exists before after,
    map lowerByte (codesOf "Exif..HdRgM:Version")
    = before ++ codesOf "hdrgm" ++ after.
Proof.
  apply (manualScan_finds_hdrgm (codesOf "Exif..HdRgM:Version")).
  repeat constructor; unfold isByte; lia.
Defined.

(* ===================================================================== *)
(** ** The walk over the JPEG segments *)
(* ===================================================================== *)

Lemma scan_sound (textDecoder : bool) (bytes : list Z) :
  Forall isByte bytes ->
  scanBytes textDecoder bytes = true -> textScan bytes = true.
Proof.
  intros Hbytes. destruct textDecoder; simpl; [tauto|].
  rewrite (manualScan_includes bytes Hbytes). intros H.
  unfold textScan. apply existsb_exists. exists "hdrgm"%string.
  split; [simpl; tauto|exact H].
Qed.

Lemma scanBytes_slice (textDecoder : bool) (data : list Z) (n k : nat) :
  Forall isByte data ->
  scanBytes textDecoder (take n (drop k data)) = true ->
  scanBytes textDecoder data = true.
Proof.
  intros Hdata. destruct textDecoder; simpl.
  - apply textScan_slice.
  - rewrite (manualScan_includes data Hdata).
    rewrite manualScan_includes by (apply Forall_take, Forall_drop, Hdata).
    rewrite <- firstn_map, <- skipn_map. apply includes_slice.
Qed.

Lemma skipFill_bounds : forall rest marker offset,
  (offset <= snd (skipFill rest marker offset) <= offset + length rest)%nat.
Proof.
  induction rest as [|next rest IH]; intros marker offset; simpl; [lia|].
  destruct (marker =? 255); simpl; [|lia].
  specialize (IH next (S offset)). lia.
Qed.

Lemma skipFill_stop (rest : list Z) (marker : Z) (offset : nat) :
  marker <> 255 -> skipFill rest marker offset = (marker, offset).
Proof.
  intros H. apply Z.eqb_neq in H. destruct rest; simpl; [reflexivity|].
  now rewrite H.
Qed.

Lemma skipFill_fill : forall k offset,
  skipFill (replicate k 255) 255 offset = (255, (offset + k)%nat).
Proof.
  induction k as [|k IH]; intros offset; simpl.
  - now rewrite Nat.add_0_r.
  - rewrite IH. f_equal. lia.
Qed.

Lemma hasAdjacentFill_lookup : forall data i m,
  hasAdjacentFill data = false ->
  data !! i = Some 255 -> data !! (S i) = Some m -> m <> 255.
Proof.
  induction data as [|a data IH]; intros i m Hfill Hi Hm; [discriminate Hi|].
  destruct data as [|b data]; [discriminate Hm|].
  cbn [hasAdjacentFill] in Hfill. apply orb_false_iff in Hfill as [Hab Hfill].
  destruct i as [|i].
  - simpl in Hi, Hm. injection Hi as ->. injection Hm as ->.
    simpl in Hab. intros ->. discriminate Hab.
  - exact (IH i m Hfill Hi Hm).
Qed.

Lemma segment_in_bounds (textDecoder : bool) (data : list Z)
    (payloadStart payloadEnd : nat) :
  (payloadStart <= payloadEnd <= length data)%nat ->
  exists n,
    segmentContainsHdrSignature textDecoder data payloadStart payloadEnd
    = Some (scanBytes textDecoder (take n (drop payloadStart data))).
Proof.
  intros H. unfold segmentContainsHdrSignature.
  destruct (payloadEnd <? payloadStart)%nat eqn:E.
  { apply Nat.ltb_lt in E. lia. }
  match goal with |- context [(?a <=? ?b)%nat] => destruct (a <=? b)%nat eqn:E' end.
  - eauto.
  - apply Nat.leb_gt in E'. lia.
Qed.

Section Walk.

Variable textDecoder : bool.
Variable data : list Z.

(** The loop ends: the offset grows at every turn. *)
Lemma walkSegments_ends : forall fuel offset,
  (1 <= fuel)%nat -> (length data < offset + fuel)%nat ->
  walkSegments textDecoder data fuel offset <> WalkOutOfFuel.
Proof.
  induction fuel as [|fuel IH]; intros offset Hfuel Hlen; [lia|].
  cbn [walkSegments].
  destruct (offset + 4 <=? length data)%nat eqn:Hin; [|discriminate].
  apply Nat.leb_le in Hin.
  destruct (data !! offset) as [markerPrefix|]; [|discriminate].
  destruct (negb (markerPrefix =? 255)).
  { apply IH; lia. }
  destruct (data !! (offset + 1)%nat) as [marker|]; [|discriminate].
  pose proof (skipFill_bounds (drop (offset + 2) data) marker (offset + 2)) as Hskip.
  destruct (skipFill (drop (offset + 2) data) marker (offset + 2)) as [marker' offset'].
  cbn [snd] in Hskip.
  destruct ((marker' =? 217) || (marker' =? 218)); [discriminate|].
  destruct (getUint16 data offset') as [segmentLength|]; [|discriminate].
  destruct ((segmentLength <? 2) || _) eqn:Hbreak; [discriminate|].
  apply orb_false_iff in Hbreak as [H2 Hend].
  apply Z.ltb_ge in H2. apply Z.ltb_ge in Hend.
  assert (Hnext : walkSegments textDecoder data fuel
            (Z.to_nat (Z.of_nat (offset' + 2) + segmentLength - 2)) <> WalkOutOfFuel).
  { apply IH; lia. }
  destruct ((marker' =? APP11) || (marker' =? APP1)); [|exact Hnext].
  destruct (segmentContainsHdrSignature _ _ _ _) as [[|]|];
    [discriminate|exact Hnext|discriminate].
Qed.

(** A match inside the loop is a match in a slice of the data. *)
Lemma walkSegments_found : forall fuel offset,
  walkSegments textDecoder data fuel offset = Found ->
  exists n k, scanBytes textDecoder (take n (drop k data)) = true.
Proof.
  induction fuel as [|fuel IH]; intros offset; [discriminate|].
  cbn [walkSegments].
  destruct (offset + 4 <=? length data)%nat eqn:Hin; [|discriminate].
  apply Nat.leb_le in Hin.
  destruct (data !! offset) as [markerPrefix|]; [|discriminate].
  destruct (negb (markerPrefix =? 255)).
  { apply IH. }
  destruct (data !! (offset + 1)%nat) as [marker|]; [|discriminate].
  pose proof (skipFill_bounds (drop (offset + 2) data) marker (offset + 2)) as Hskip.
  destruct (skipFill (drop (offset + 2) data) marker (offset + 2)) as [marker' offset'].
  cbn [snd] in Hskip.
  destruct ((marker' =? 217) || (marker' =? 218)); [discriminate|].
  destruct (getUint16 data offset') as [segmentLength|]; [|discriminate].
  destruct ((segmentLength <? 2) || _) eqn:Hbreak; [discriminate|].
  apply orb_false_iff in Hbreak as [H2 Hend].
  apply Z.ltb_ge in H2. apply Z.ltb_ge in Hend.
  destruct ((marker' =? APP11) || (marker' =? APP1)); [|apply IH].
  destruct (segment_in_bounds textDecoder data (offset' + 2)
              (Z.to_nat (Z.of_nat (offset' + 2) + segmentLength - 2))) as [n Hseg];
    [lia|].
  rewrite Hseg.
  destruct (scanBytes textDecoder _) eqn:Hscan; [|apply IH].
  intros _. eauto.
Qed.

(** Without fill bytes no read leaves the buffer. *)
Lemma walkSegments_in_bounds :
  hasAdjacentFill data = false ->
  forall fuel offset, walkSegments textDecoder data fuel offset <> WalkThrows.
Proof.
  intros Hfill. induction fuel as [|fuel IH]; intros offset; [discriminate|].
  cbn [walkSegments].
  destruct (offset + 4 <=? length data)%nat eqn:Hin; [|discriminate].
  apply Nat.leb_le in Hin.
  destruct (lookup_lt_is_Some_2 data offset) as [markerPrefix Hprefix]; [lia|].
  rewrite Hprefix.
  destruct (markerPrefix =? 255) eqn:Hff; cbn [negb]; [|apply IH].
  apply Z.eqb_eq in Hff. subst markerPrefix.
  destruct (lookup_lt_is_Some_2 data (offset + 1)) as [marker Hmarker]; [lia|].
  rewrite Hmarker.
  replace (offset + 1)%nat with (S offset) in Hmarker by lia.
  rewrite (skipFill_stop _ marker (offset + 2)
             (hasAdjacentFill_lookup data offset marker Hfill Hprefix Hmarker)).
  destruct ((marker =? 217) || (marker =? 218)); [discriminate|].
  destruct (lookup_lt_is_Some_2 data (offset + 2)) as [hi Hhi]; [lia|].
  destruct (lookup_lt_is_Some_2 data (offset + 2 + 1)) as [lo Hlo]; [lia|].
  unfold getUint16. rewrite Hhi, Hlo.
  destruct ((hi * 256 + lo <? 2) || _) eqn:Hbreak; [discriminate|].
  apply orb_false_iff in Hbreak as [H2 Hend].
  apply Z.ltb_ge in H2. apply Z.ltb_ge in Hend.
  destruct ((marker =? APP11) || (marker =? APP1)); [|apply IH].
  destruct (segment_in_bounds textDecoder data (offset + 2 + 2)
              (Z.to_nat (Z.of_nat (offset + 2 + 2) + (hi * 256 + lo) - 2))) as [n Hseg];
    [lia|].
  rewrite Hseg.
  destruct (scanBytes textDecoder _); [discriminate|apply IH].
Qed.

End Walk.

(** X14. On data in which no two bytes 0xFF follow each other,
    [hasJpegHdrGainMap] returns an answer: the segment loop ends and no
    read leaves the buffer. *)
Theorem hasJpegHdrGainMap_returns (textDecoder : bool) (data : list Z)
    (mimeType : option string) :
  hasAdjacentFill data = false ->
  exists answer, hasJpegHdrGainMap textDecoder data mimeType = Returns answer.
Proof.
  intros Hfill. unfold hasJpegHdrGainMap.
  destruct (negb (isJpegData data mimeType)); [eauto|].
  pose proof (walkSegments_ends textDecoder data (S (length data)) 2) as Hends.
  pose proof (walkSegments_in_bounds textDecoder data Hfill (S (length data)) 2) as Hin.
  destruct (walkSegments textDecoder data (S (length data)) 2); eauto.
  - contradiction.
  - exfalso. apply Hends; [lia|lia|reflexivity].
Qed.

Lemma hasJpegHdrGainMap_returns_witness :
  exists answer,
    hasJpegHdrGainMap true
      ([255; 216; 255; 225; 0; 7] ++ codesOf "HdRgM" ++ [255; 217])
      (Some "image/jpeg"%string)
    = Returns answer.
Proof.
  apply (hasJpegHdrGainMap_returns true
           ([255; 216; 255; 225; 0; 7] ++ codesOf "HdRgM" ++ [255; 217])
           (Some "image/jpeg"%string)).
  reflexivity.
Defined.

(** X15. Fill bytes up to the end of the file make the parser throw: on
    the two bytes of a JPEG start followed by four or more bytes 0xFF,
    [hasJpegHdrGainMap] reads a segment length past the end of the buffer
    and throws a [RangeError] instead of answering. *)
Theorem hasJpegHdrGainMap_throws_on_trailing_fill (textDecoder : bool)
    (n : nat) (mimeType : option string) :
  (4 <= n)%nat ->
  hasJpegHdrGainMap textDecoder ([255; 216] ++ replicate n 255) mimeType
  = ThrowsRangeError.
Proof.
  intros Hn. do 4 (destruct n as [|n]; [lia|]). clear Hn.
  unfold hasJpegHdrGainMap.
  assert (Hjpeg : isJpegData ([255; 216] ++ replicate (S (S (S (S n)))) 255) mimeType
                  = true).
  { unfold isJpegData. destruct (match mimeType with Some _ => _ | None => _ end);
      reflexivity. }
  rewrite Hjpeg. cbn [negb].
  cbn [walkSegments].
  cbn [app replicate lookup list_lookup Nat.add Z.eqb negb Pos.eqb drop skipn].
  cbn [length]. rewrite length_replicate. cbn [Nat.leb].
  change (255 :: 255 :: replicate n 255) with (replicate (S (S n)) 255).
  rewrite skipFill_fill.
  cbn [Z.eqb Pos.eqb orb].
  unfold getUint16.
  rewrite (lookup_ge_None_2 _ (4 + S (S n))%nat)
    by (simpl; rewrite length_replicate; lia).
  reflexivity.
Qed.

Lemma hasJpegHdrGainMap_throws_on_trailing_fill_witness :
  hasJpegHdrGainMap true ([255; 216] ++ replicate 4 255) None = ThrowsRangeError.
Proof.
  apply (hasJpegHdrGainMap_throws_on_trailing_fill true 4 None). lia.
Defined.

(** X16. On a file of at most 1 500 000 bytes, whenever
    [hasJpegHdrGainMap] returns, its answer is: the data is taken for a
    JPEG and the signature scan matches somewhere in the whole file.  The
    walk over the segments changes nothing to the answer. *)
Theorem hasJpegHdrGainMap_answer (textDecoder : bool) (data : list Z)
    (mimeType : option string) (answer : bool) :
  Forall isByte data ->
  Z.of_nat (length data) <= 1500000 ->
  hasJpegHdrGainMap textDecoder data mimeType = Returns answer ->
  answer = isJpegData data mimeType && scanBytes textDecoder data.
Proof.
  intros Hdata Hlen. unfold hasJpegHdrGainMap.
  destruct (isJpegData data mimeType); cbn [negb andb]; [|congruence].
  destruct (walkSegments textDecoder data (S (length data)) 2) eqn:Hwalk;
    try discriminate.
  - intros [= <-]. symmetry.
    destruct (walkSegments_found textDecoder data _ _ Hwalk) as (n & k & Hscan).
    exact (scanBytes_slice textDecoder data n k Hdata Hscan).
  - intros [= <-]. rewrite Z.min_l by exact Hlen.
    rewrite Nat2Z.id, firstn_all. reflexivity.
Qed.

Lemma hasJpegHdrGainMap_answer_witness :
  true = isJpegData ([255; 216; 255; 224; 0; 7] ++ codesOf "hdrgm" ++ [255; 217]) None
         && scanBytes false ([255; 216; 255; 224; 0; 7] ++ codesOf "hdrgm" ++ [255; 217]).
Proof.
  apply (hasJpegHdrGainMap_answer false
           ([255; 216; 255; 224; 0; 7] ++ codesOf "hdrgm" ++ [255; 217]) None true).
  - repeat constructor; unfold isByte; lia.
  - simpl. lia.
  - reflexivity.
Defined.

(** X17. Whatever the size of the file and with or without a
    [TextDecoder], [hasJpegHdrGainMap] answers [true] only when one of the
    HDR signatures occurs in the bytes, letter case ignored. *)
Theorem hasJpegHdrGainMap_true_has_signature (textDecoder : bool)
    (data : list Z) (mimeType : option string) :
  Forall isByte data ->
  hasJpegHdrGainMap textDecoder data mimeType = Returns true ->
  exists sig, In sig HDR_SIGNATURES /\
    exists before after,
      map lowerByte data = before ++ codesOf sig ++ after.
Proof.
  intros Hdata. unfold hasJpegHdrGainMap.
  destruct (negb (isJpegData data mimeType)); [discriminate|].
  assert (Hslice : (exists n k, scanBytes textDecoder (take n (drop k data)) = true) ->
            exists sig, In sig HDR_SIGNATURES /\
              exists before after, map lowerByte data = before ++ codesOf sig ++ after).
  { intros (n & k & Hscan).
    apply (scanBytes_slice textDecoder data n k Hdata) in Hscan.
    apply (scan_sound textDecoder data Hdata) in Hscan.
    unfold textScan in Hscan. apply existsb_exists in Hscan as (sig & Hin & Hinc).
    exists sig. split; [exact Hin|]. now apply includes_spec. }
  destruct (walkSegments textDecoder data (S (length data)) 2) eqn:Hwalk;
    try discriminate.
  - intros _. apply Hslice. exact (walkSegments_found textDecoder data _ _ Hwalk).
  - intros [= Hscan]. apply Hslice. exists (Z.to_nat (Z.min (Z.of_nat (length data)) 1500000)), 0%nat.
    rewrite drop_0. exact Hscan.
Qed.

Lemma hasJpegHdrGainMap_true_has_signature_witness :
  exists sig, In sig HDR_SIGNATURES /\
    exists before after,
      map lowerByte ([255; 216; 255; 225; 0; 7] ++ codesOf "HdRgM" ++ [255; 217])
      = before ++ codesOf sig ++ after.
Proof.
  apply (hasJpegHdrGainMap_true_has_signature true
           ([255; 216; 255; 225; 0; 7] ++ codesOf "HdRgM" ++ [255; 217])
           (Some "image/jpeg"%string)).
  - repeat constructor; unfold isByte; lia.
  - reflexivity.
Defined.

(* ===================================================================== *)
(** ** The conversion controller *)
(* ===================================================================== *)


Lemma requeue_items (update : ConversionItem -> option ConversionItem)
    (c : Controller) :
  items (requeue update c) = map (fun item => default item (update item)) (items c).
Proof. reflexivity. Qed.

Lemma requeue_pending (update : ConversionItem -> option ConversionItem)
    (c : Controller) :
  pending (requeue update c) = pending c ++ omap update (items c).
Proof. reflexivity. Qed.

Section ControllerFacts.

Context {surroundings : Surroundings}.

(** What the loop of [handleFiles] keeps true carries over to its
    result. *)
Lemma intake_invariant (c : Controller) (P : Intake -> Prop) :
  (forall acc file, P acc -> P (takeFile c acc file)) ->
  forall files acc, P acc -> P (fold_left (takeFile c) files acc).
Proof.
  intros Hstep. induction files as [|file files IH]; intros acc Hacc; simpl.
  - exact Hacc.
  - apply IH, Hstep, Hacc.
Qed.

Lemma takeFile_cases (c : Controller) (acc : Intake) (file : Upload)
    (P : Intake -> Prop) :
  (forall job,
     isSupportedInputFile (uploadFile file) = true ->
     Z.of_N (uploadSize file) <= MAX_FILE_BYTES ->
     runningTotal acc + Z.of_N (uploadSize file) <= MAX_TOTAL_BYTES ->
     itemFile job = uploadFile file ->
     originalSize job = Z.of_N (uploadSize file) ->
     status job = StatusProcessing ->
     version job = 1 ->
     followsGlobals (globalFormat c) (globalQuality c) job ->
     itemId job = createId (filesTaken c + length (additions acc)) /\
     originalUrl job = fileObjectURL (filesTaken c + length (additions acc)) /\
     convertedUrl job = None ->
     P {| additions := additions acc ++ [job];
          unsupportedFiles := unsupportedFiles acc;
          tooLargeFiles := tooLargeFiles acc;
          oversizedFiles := oversizedFiles acc;
          runningTotal := runningTotal acc + Z.of_N (uploadSize file) |}) ->
  (forall unsupported tooLarge oversized,
     (length unsupported + length tooLarge + length oversized
      = S (length (unsupportedFiles acc) + length (tooLargeFiles acc)
           + length (oversizedFiles acc)))%nat ->
     P {| additions := additions acc;
          unsupportedFiles := unsupported;
          tooLargeFiles := tooLarge;
          oversizedFiles := oversized;
          runningTotal := runningTotal acc |}) ->
  P (takeFile c acc file).
Proof.
  intros Hadd Hrefuse. unfold takeFile.
  destruct (isSupportedInputFile (uploadFile file)) eqn:Hsupported; cbn [negb].
  2: { apply Hrefuse. rewrite length_app. simpl. lia. }
  destruct (MAX_FILE_BYTES <? Z.of_N (uploadSize file)) eqn:Hsingle.
  { apply Hrefuse. rewrite length_app. simpl. lia. }
  destruct (MAX_TOTAL_BYTES <? runningTotal acc + Z.of_N (uploadSize file)) eqn:Htotal.
  { apply Hrefuse. rewrite length_app. simpl. lia. }
  apply Z.ltb_ge in Hsingle. apply Z.ltb_ge in Htotal.
  apply Hadd; try reflexivity; try assumption; [|repeat split].
  split; cbn [usesGlobalFormat usesGlobalQuality targetFormat quality].
  - reflexivity.
  - intros H. rewrite H. split; reflexivity.
Qed.

Lemma totalSize_from (l : list ConversionItem) : forall start,
  fold_left (fun acc item => acc + originalSize item) l start
  = start + totalSize l.
Proof.
  unfold totalSize. induction l as [|item l IH]; intros start; simpl; [lia|].
  rewrite IH, (IH (0 + originalSize item)). lia.
Qed.

Lemma totalSize_app (l k : list ConversionItem) :
  totalSize (l ++ k) = totalSize l + totalSize k.
Proof.
  unfold totalSize at 1. rewrite fold_left_app. fold (totalSize l).
  apply totalSize_from.
Qed.

(** The jobs the loop adds. *)
Lemma intake_additions (c : Controller) (files : list Upload) :
  Forall (fun job =>
            admissible job /\
            status job = StatusProcessing /\
            version job = 1 /\
            followsGlobals (globalFormat c) (globalQuality c) job)
         (additions (intake c files)).
Proof.
  unfold intake. apply intake_invariant; [|constructor].
  intros acc file Hacc. apply takeFile_cases.
  - intros job Hs Hsize _ Hfile Hjob Hstatus Hversion Hglobals _.
    cbn [additions]. apply Forall_app. split; [exact Hacc|].
    constructor; [|constructor]. unfold admissible. rewrite Hfile, Hjob.
    pose proof (N2Z.is_nonneg (uploadSize file)). tauto.
  - intros. exact Hacc.
Qed.

Lemma intake_total (c : Controller) (files : list Upload) :
  runningTotal (intake c files)
  = totalSize (items c) + totalSize (additions (intake c files)) /\
  runningTotal (intake c files) <= Z.max (totalSize (items c)) MAX_TOTAL_BYTES.
Proof.
  unfold intake.
  apply (intake_invariant c (fun acc =>
           runningTotal acc = totalSize (items c) + totalSize (additions acc) /\
           runningTotal acc <= Z.max (totalSize (items c)) MAX_TOTAL_BYTES)).
  - intros acc file [Hsum Hmax]. apply takeFile_cases.
    + intros job _ _ Htotal _ Hjob _ _ _ _. cbn [runningTotal additions].
      rewrite totalSize_app. unfold totalSize at 3. simpl. rewrite Hjob. lia.
    + intros. cbn [runningTotal additions]. tauto.
  - simpl. unfold totalSize at 3. simpl. lia.
Qed.

Lemma intake_counts_from (c : Controller) : forall files acc,
  (length (additions (fold_left (takeFile c) files acc))
   + length (unsupportedFiles (fold_left (takeFile c) files acc))
   + length (tooLargeFiles (fold_left (takeFile c) files acc))
   + length (oversizedFiles (fold_left (takeFile c) files acc))
   = length (additions acc) + length (unsupportedFiles acc)
     + length (tooLargeFiles acc) + length (oversizedFiles acc)
     + length files)%nat.
Proof.
  induction files as [|file files IH]; intros acc; simpl; [lia|].
  rewrite IH. apply takeFile_cases.
  - intros. cbn [additions unsupportedFiles tooLargeFiles oversizedFiles].
    rewrite length_app. simpl. lia.
  - intros ? ? ? H. cbn [additions unsupportedFiles tooLargeFiles oversizedFiles]. lia.
Qed.

Lemma intake_counts (c : Controller) (files : list Upload) :
  (length (additions (intake c files)) + length (unsupportedFiles (intake c files))
   + length (tooLargeFiles (intake c files))
   + length (oversizedFiles (intake c files)) = length files)%nat.
Proof. unfold intake. rewrite intake_counts_from. simpl. lia. Qed.

Lemma handleFiles_items (c : Controller) (files : list Upload) :
  files <> [] ->
  items (handleFiles (Some files) c) = items c ++ additions (intake c files).
Proof.
  intros Hfiles. unfold handleFiles. destruct files as [|file files]; [congruence|].
  destruct (additions (intake c (file :: files))); simpl.
  - now rewrite app_nil_r.
  - reflexivity.
Qed.


End ControllerFacts.

Section ControllerInvariants.

Context {surroundings : Surroundings}.

Lemma run_invariant (P : Controller -> Prop) :
  (forall a c, P c -> P (act a c)) ->
  forall actions c, P c -> P (run actions c).
Proof.
  intros Hstep. unfold run. induction actions as [|a actions IH]; intros c Hc; simpl.
  - exact Hc.
  - apply IH, Hstep, Hc.
Qed.

Lemma initialController_items (host : Host) (st : ModuleState) :
  items (initialController host st) = [] /\
  pending (initialController host st) = [].
Proof.
  unfold initialController.
  destruct (getOutputFormatSupport host st) as [support st1].
  destruct (getDefaultOutputFormat host st1) as [format st2].
  destruct (getDefaultOutputFormat host st2) as [qualityFormat st3].
  split; reflexivity.
Qed.

Lemma Forall_map_step {A : Type} (P Q : A -> Prop) (f : A -> A) (l : list A) :
  Forall P l -> (forall x, P x -> Q (f x)) -> Forall Q (map f l).
Proof.
  intros Hl Hf. apply Forall_map. eapply Forall_impl; [exact Hl|]. exact Hf.
Qed.




Lemma elem_of_delete_other {A : Type} (x y : A) : forall (l : list A) (n : nat),
  x ∈ l -> l !! n = Some y -> x <> y -> x ∈ delete n l.
Proof.
  induction l as [|z l IH]; intros n Hx Hn Hne; [discriminate Hn|].
  destruct n as [|n]; simpl in *.
  - injection Hn as ->. apply elem_of_cons in Hx as [Hx|Hx]; [congruence|exact Hx].
  - apply elem_of_cons in Hx as [Hx|Hx].
    + subst z. apply elem_of_cons. now left.
    + apply elem_of_cons. right. exact (IH n Hx Hn Hne).
Qed.

Lemma inFlight_map (c c' : Controller) (f : ConversionItem -> ConversionItem) :
  inFlight c ->
  items c' = map f (items c) ->
  (forall job, job ∈ pending c -> job ∈ pending c') ->
  (forall item,
     status (f item) = StatusProcessing ->
     status item = StatusProcessing /\ itemId (f item) = itemId item
     /\ version (f item) = version item) ->
  inFlight c'.
Proof.
  intros Hc Hitems Hpending Hf. unfold inFlight. rewrite Hitems.
  eapply Forall_map_step; [exact Hc|].
  intros item Hitem Hstatus. destruct (Hf item Hstatus) as (Hs & Hid & Hv).
  destruct (Hitem Hs) as (job & Hjob & Hfor).
  exists job. split; [exact (Hpending job Hjob)|].
  unfold jobFor in *. rewrite Hid, Hv. exact Hfor.
Qed.

Lemma requeue_inFlight (update : ConversionItem -> option ConversionItem)
    (c : Controller) :
  inFlight c -> inFlight (requeue update c).
Proof.
  intros Hc. unfold inFlight. rewrite requeue_items, requeue_pending.
  apply Forall_forall. intros item' Hin.
  apply list_elem_of_fmap in Hin as (item & -> & Hin).
  destruct (update item) as [updated|] eqn:Hupdate; cbn [default].
  - intros _. exists updated. split; [|split; reflexivity].
    apply elem_of_app. right. apply list_elem_of_omap. eauto.
  - intros Hstatus. unfold inFlight in Hc. rewrite Forall_forall in Hc.
    destruct (Hc item Hin Hstatus) as (job & Hjob & Hfor).
    exists job. split; [|exact Hfor]. apply elem_of_app. now left.
Qed.

Lemma act_inFlight (a : Action) (c : Controller) :
  inFlight c -> inFlight (act a c).
Proof.
  intros Hc. destruct a as [files|id fmt|id value|id useGlobal|id options|id options|id options|value|fmt|options|options|id value|id| |n outcome|n answer]; cbn [act].
  - (* handleFiles *)
    destruct files as [[|file files]|]; try exact Hc.
    unfold inFlight. rewrite handleFiles_items by discriminate.
    unfold handleFiles.
    destruct (additions (intake c (file :: files))) as [|job jobs] eqn:Hadd.
    + rewrite app_nil_r. exact Hc.
    + cbn [pending setUploadError setFilesTaken setDetections queueConversions
                setPending setItems].
      apply Forall_app. split.
      * eapply Forall_impl; [exact Hc|]. cbn beta.
        intros item Hitem Hstatus. destruct (Hitem Hstatus) as (j & Hj & Hfor).
        exists j. split; [|exact Hfor]. apply elem_of_app. now left.
      * apply Forall_forall. intros item Hitem _.
        exists item. split; [|split; reflexivity]. apply elem_of_app. now right.
  - unfold handleFormatChange.
    destruct (findItem id (items c)) as [current|]; [|exact Hc].
    match goal with |- inFlight (if ?b then _ else _) => destruct b end;
      [exact Hc|].
    apply requeue_inFlight, Hc.
  - apply requeue_inFlight, Hc.
  - unfold handleUseGlobalSettingsChange.
    destruct (findItem id (items c)) as [current|]; [|exact Hc].
    destruct useGlobal; [apply requeue_inFlight, Hc|].
    destruct (negb (usesGlobalFormat current) && negb (usesGlobalQuality current));
      [exact Hc|].
    eapply inFlight_map; [exact Hc|reflexivity|tauto|].
    intros item. cbv beta. destruct (String.eqb (itemId item) id); cbn; auto.
  - apply requeue_inFlight, Hc.
  - apply requeue_inFlight, Hc.
  - apply requeue_inFlight, Hc.
  - apply (requeue_inFlight _ (setGlobalQuality value c)), Hc.
  - unfold handleGlobalFormatChange.
    destruct (sameFormat fmt (globalFormat c)); [exact Hc|].
    apply (requeue_inFlight _ (setGlobalFormat fmt c)), Hc.
  - exact (requeue_inFlight _ c Hc).
  - exact (requeue_inFlight _ c Hc).
  - eapply inFlight_map; [exact Hc|reflexivity|tauto|].
    intros item. cbv beta. destruct (String.eqb (itemId item) id); cbn; auto.
  - (* removeItem *)
    unfold inFlight. cbn. apply Forall_forall. intros item Hitem.
    apply list_elem_of_filter in Hitem as [_ Hitem].
    unfold inFlight in Hc. rewrite Forall_forall in Hc. exact (Hc item Hitem).
  - constructor.
  - (* a conversion settles *)
    destruct (pending c !! n) as [job|] eqn:Hn; [|exact Hc].
    assert (Hkeep : forall (next : ConversionItem -> ConversionItem),
              (forall item, status (next item) <> StatusProcessing) ->
              Forall (fun item =>
                        status item = StatusProcessing ->
                        exists j, j ∈ delete n (pending c) /\ jobFor item j)
                (map (fun item =>
                        if String.eqb (itemId item) (itemId job)
                           && (version item =? version job)
                        then next item else item) (items c))).
    { intros next Hnext. eapply Forall_map_step; [exact Hc|].
      cbn beta. intros item Hitem.
      destruct (String.eqb (itemId item) (itemId job) && (version item =? version job))
        eqn:Hmatch.
      - intros Hstatus. destruct (Hnext item Hstatus).
      - intros Hstatus. destruct (Hitem Hstatus) as (j & Hj & Hid & Hv).
        exists j. split; [|split; assumption].
        apply (elem_of_delete_other j job _ n Hj Hn).
        intros ->. rewrite Hid, Hv, String.eqb_refl, Z.eqb_refl in Hmatch.
        discriminate Hmatch. }
    unfold inFlight. destruct outcome as [message|result]; cbn.
    + apply (Hkeep (fun item => withError item message)). discriminate.
    + apply (Hkeep (fun item => withResult item result)). discriminate.
  - (* a detection settles *)
    destruct (detections c !! n) as [[id file]|]; [|exact Hc].
    destruct answer as [flag|]; [|exact Hc].
    eapply inFlight_map; [exact Hc|reflexivity|tauto|].
    intros item. cbv beta. destruct (negb (String.eqb (itemId item) id)); cbn; auto.
Qed.

(** X19. Whatever handlers are called and whatever settles, an item shown
    as processing has a conversion queued for exactly its current version
    that has not settled yet: no item is left processing with nothing in
    flight. *)
Theorem controller_processing_in_flight (host : Host) (st : ModuleState)
    (actions : list Action) :
  Forall (fun item =>
            status item = StatusProcessing ->
            exists job,
              job ∈ pending (run actions (initialController host st)) /\
              itemId job = itemId item /\ version job = version item)
         (items (run actions (initialController host st))).
Proof.
  apply (run_invariant inFlight).
  - exact act_inFlight.
  - unfold inFlight. destruct (initialController_items host st) as [-> _].
    constructor.
Qed.

End ControllerInvariants.

Section ControllerLimits.

Context {surroundings : Surroundings}.

Lemma totalSize_cons (item : ConversionItem) (l : list ConversionItem) :
  totalSize (item :: l) = originalSize item + totalSize l.
Proof.
  change (item :: l) with ([item] ++ l). rewrite totalSize_app.
  unfold totalSize at 1. simpl. reflexivity.
Qed.

Lemma totalSize_map (f : ConversionItem -> ConversionItem) (l : list ConversionItem) :
  (forall item, originalSize (f item) = originalSize item) ->
  totalSize (map f l) = totalSize l.
Proof.
  intros Hf. induction l as [|item l IH]; [reflexivity|].
  cbn [map]. rewrite !totalSize_cons, IH, Hf. reflexivity.
Qed.

Lemma totalSize_filter (P : ConversionItem -> Prop) `{!forall item, Decision (P item)}
    (l : list ConversionItem) :
  Forall (fun item => 0 <= originalSize item) l ->
  0 <= totalSize (filter P l) <= totalSize l.
Proof.
  induction l as [|item l IH]; intros Hl.
  - unfold totalSize. simpl. lia.
  - apply Forall_cons in Hl as [Hitem Hl]. specialize (IH Hl).
    rewrite filter_cons, totalSize_cons.
    destruct (decide (P item)); [rewrite totalSize_cons|]; lia.
Qed.

Lemma withinLimits_map (c c' : Controller) (f : ConversionItem -> ConversionItem) :
  withinLimits c ->
  items c' = map f (items c) ->
  (forall item,
     itemFile (f item) = itemFile item /\ originalSize (f item) = originalSize item) ->
  withinLimits c'.
Proof.
  intros [Hitems Htotal] Hmap Hf. unfold withinLimits. rewrite Hmap. split.
  - eapply Forall_map_step; [exact Hitems|].
    intros item. unfold admissible. destruct (Hf item) as [-> ->]. tauto.
  - fold (totalSize (map f (items c))). rewrite totalSize_map; [exact Htotal|].
    intros item. apply Hf.
Qed.

Lemma requeue_withinLimits (update : ConversionItem -> option ConversionItem)
    (c c' : Controller) :
  withinLimits c ->
  items c' = items c ->
  (forall item updated,
     update item = Some updated ->
     itemFile updated = itemFile item /\ originalSize updated = originalSize item) ->
  withinLimits (requeue update c').
Proof.
  intros Hc Hitems Hupdate.
  apply (withinLimits_map c _ (fun item => default item (update item)));
    [exact Hc|now rewrite requeue_items, Hitems|].
  intros item. destruct (update item) as [updated|] eqn:E; cbn [default].
  - exact (Hupdate item updated E).
  - split; reflexivity.
Qed.

Ltac updated_same :=
  let item := fresh "item" in
  let updated := fresh "updated" in
  intros item updated;
  match goal with
  | |- (if ?b then _ else _) = _ -> _ => destruct b
  end;
  intros [= <-]; split; reflexivity.

Lemma act_withinLimits (a : Action) (c : Controller) :
  withinLimits c -> withinLimits (act a c).
Proof.
  intros Hc. destruct a as [files|id fmt|id value|id useGlobal|id options|id options|id options|value|fmt|options|options|id value|id| |n outcome|n answer]; cbn [act].
  - (* handleFiles *)
    destruct files as [[|file files]|]; try exact Hc.
    destruct Hc as [Hitems Htotal]. fold (totalSize (items c)) in Htotal.
    unfold withinLimits. rewrite handleFiles_items by discriminate. split.
    + apply Forall_app. split; [exact Hitems|].
      eapply Forall_impl; [apply intake_additions|]. cbn beta. tauto.
    + fold (totalSize (items c ++ additions (intake c (file :: files)))).
      rewrite totalSize_app.
      destruct (intake_total c (file :: files)) as [Hsum Hmax]. lia.
  - unfold handleFormatChange.
    destruct (findItem id (items c)) as [current|]; [|exact Hc].
    match goal with |- withinLimits (if ?b then _ else _) => destruct b end;
      [exact Hc|].
    apply (requeue_withinLimits _ c c Hc eq_refl). updated_same.
  - apply (requeue_withinLimits _ c c Hc eq_refl). updated_same.
  - unfold handleUseGlobalSettingsChange.
    destruct (findItem id (items c)) as [current|]; [|exact Hc].
    destruct useGlobal.
    + apply (requeue_withinLimits _ c c Hc eq_refl). updated_same.
    + destruct (negb (usesGlobalFormat current) && negb (usesGlobalQuality current));
        [exact Hc|].
      eapply withinLimits_map; [exact Hc|reflexivity|].
      intros item. cbv beta. destruct (String.eqb (itemId item) id); cbn; auto.
  - apply (requeue_withinLimits _ c c Hc eq_refl). updated_same.
  - apply (requeue_withinLimits _ c c Hc eq_refl). updated_same.
  - apply (requeue_withinLimits _ c c Hc eq_refl). updated_same.
  - apply (requeue_withinLimits _ c (setGlobalQuality value c) Hc eq_refl).
    updated_same.
  - unfold handleGlobalFormatChange.
    destruct (sameFormat fmt (globalFormat c)); [exact Hc|].
    apply (requeue_withinLimits _ c (setGlobalFormat fmt c) Hc eq_refl).
    updated_same.
  - unfold handleGlobalGifOptionsChange.
    eapply withinLimits_map; [exact Hc|reflexivity|].
    intros item. cbv beta.
    destruct (negb (sameFormat (targetFormat item) Gif) || negb (usesGlobalFormat item));
      cbn; auto.
  - unfold handleGlobalPngOptionsChange.
    eapply withinLimits_map; [exact Hc|reflexivity|].
    intros item. cbv beta.
    destruct (negb (sameFormat (targetFormat item) Png) || negb (usesGlobalFormat item));
      cbn; auto.
  - eapply withinLimits_map; [exact Hc|reflexivity|].
    intros item. cbv beta. destruct (String.eqb (itemId item) id); cbn; auto.
  - (* removeItem *)
    destruct Hc as [Hitems Htotal]. fold (totalSize (items c)) in Htotal.
    unfold withinLimits. cbn. split.
    + apply Forall_forall. intros item Hitem.
      apply list_elem_of_filter in Hitem as [_ Hitem].
      rewrite Forall_forall in Hitems. exact (Hitems item Hitem).
    + assert (Hsizes : Forall (fun item => 0 <= originalSize item) (items c)).
      { eapply Forall_impl; [exact Hitems|]. unfold admissible. cbn beta. tauto. }
      match goal with |- fold_left _ (filter ?P _) 0 <= _ =>
        pose proof (totalSize_filter P (items c) Hsizes) as Hfilter
      end.
      unfold totalSize in Hfilter, Htotal. lia.
  - (* clearAll *)
    split; [constructor|]. cbn. lia.
  - (* a conversion settles *)
    destruct (pending c !! n) as [job|]; [|exact Hc].
    destruct outcome as [message|result].
    + eapply withinLimits_map; [exact Hc|reflexivity|].
      intros item. cbv beta. destruct (_ && _); cbn; auto.
    + eapply withinLimits_map; [exact Hc|reflexivity|].
      intros item. cbv beta. destruct (_ && _); cbn; auto.
  - (* a detection settles *)
    destruct (detections c !! n) as [[id file]|]; [|exact Hc].
    destruct answer as [flag|]; [|exact Hc].
    eapply withinLimits_map; [exact Hc|reflexivity|].
    intros item. cbv beta. destruct (negb (String.eqb (itemId item) id)); cbn; auto.
Qed.

Lemma controller_withinLimits (host : Host) (st : ModuleState)
    (actions : list Action) :
  withinLimits (run actions (initialController host st)).
Proof.
  apply (run_invariant withinLimits).
  - exact act_withinLimits.
  - unfold withinLimits. destruct (initialController_items host st) as [-> _].
    split; [constructor|]. simpl. lia.
Qed.

(** X20. Whatever handlers are called and whatever settles, every item of
    the list holds a file that [isSupportedInputFile] accepts and whose
    size is at most [MAX_FILE_BYTES]. *)
Theorem controller_items_checked (host : Host) (st : ModuleState)
    (actions : list Action) :
  Forall (fun item =>
            isSupportedInputFile (itemFile item) = true /\
            0 <= originalSize item <= MAX_FILE_BYTES)
         (items (run actions (initialController host st))).
Proof. exact (proj1 (controller_withinLimits host st actions)). Qed.


Lemma uploadMessages_none (acc : Intake) :
  uploadMessages acc = [] <->
  unsupportedFiles acc = [] /\ tooLargeFiles acc = [] /\ oversizedFiles acc = [].
Proof.
  unfold uploadMessages.
  destruct (unsupportedFiles acc) as [|u [|u' us]];
    destruct (tooLargeFiles acc) as [|t [|t' ts]];
    destruct (oversizedFiles acc) as [|o [|o' os]];
    simpl; split; try tauto; try discriminate;
    intros (H1 & H2 & H3); discriminate.
Qed.

(** X22. After [handleFiles] on a list that is not empty, no upload error
    is shown exactly when every file of the list was added to the items;
    as soon as one file is refused a message is set. *)
Theorem handleFiles_upload_error (files : list Upload) (c : Controller) :
  files <> [] ->
  uploadError (handleFiles (Some files) c) = None <->
  length (items (handleFiles (Some files) c)) = (length (items c) + length files)%nat.
Proof.
  intros Hfiles. rewrite handleFiles_items by exact Hfiles. rewrite length_app.
  pose proof (intake_counts c files) as Hcount.
  assert (Herror : uploadError (handleFiles (Some files) c) = None <->
                   uploadMessages (intake c files) = []).
  { unfold handleFiles. destruct files as [|file files]; [congruence|].
    destruct (additions (intake c (file :: files)));
      cbn [uploadError setUploadError];
      destruct (uploadMessages (intake c (file :: files))); split;
      congruence. }
  rewrite Herror, uploadMessages_none. split.
  - intros (Hu & Ht & Ho). rewrite Hu, Ht, Ho in Hcount. simpl in Hcount. lia.
  - intros Hlen.
    destruct (unsupportedFiles (intake c files));
      destruct (tooLargeFiles (intake c files));
      destruct (oversizedFiles (intake c files)); simpl in Hcount;
      try (exfalso; lia). tauto.
Qed.

End ControllerLimits.

Lemma handleFiles_upload_error_witness :
  uploadError
    (handleFiles (surroundings := exampleSurroundings)
       (Some [mkUpload (mkFile "a.png" "image/png") 4;
              mkUpload (mkFile "notes.txt" "text/plain") 1])
       (initialController browserHost freshModule)) = None <->
  length (items
    (handleFiles (surroundings := exampleSurroundings)
       (Some [mkUpload (mkFile "a.png" "image/png") 4;
              mkUpload (mkFile "notes.txt" "text/plain") 1])
       (initialController browserHost freshModule)))
  = (length (items (initialController browserHost freshModule)) + 2)%nat.
Proof.
  apply (handleFiles_upload_error (surroundings := exampleSurroundings)
           [mkUpload (mkFile "a.png" "image/png") 4;
            mkUpload (mkFile "notes.txt" "text/plain") 1]
           (initialController browserHost freshModule)).
  discriminate.
Defined.

Lemma unmatched_map {A : Type} (matches : A -> bool) (next : A -> A) (l : list A) :
  Forall (fun x => matches x = false) l ->
  map (fun x => if matches x then next x else x) l = l.
Proof.
  induction 1 as [|x l Hx Hl IH]; [reflexivity|].
  cbn [map]. rewrite Hx, IH. reflexivity.
Qed.

Lemma unmatched_omap {A B : Type} (matches first second : A -> bool)
    (pick : A -> option B) (l : list A) :
  Forall (fun x => matches x = false) l ->
  omap (fun x => if matches x && first x && second x then pick x else None) l = [].
Proof.
  induction 1 as [|x l Hx Hl IH]; [reflexivity|].
  cbn [omap list_omap]. rewrite Hx. cbn [andb]. exact IH.
Qed.

Lemma unmatched_existsb {A : Type} (matches : A -> bool) (l : list A) :
  Forall (fun x => matches x = false) l -> existsb matches l = false.
Proof.
  induction 1 as [|x l Hx Hl IH]; [reflexivity|].
  cbn [existsb]. rewrite Hx, IH. reflexivity.
Qed.

(** A result for which no item has the job's id and version: the list is
    left as it is and the URL of the result is revoked. *)
Lemma settle_stale (job : ConversionItem) (outcome : string + ConversionResult)
    (c : Controller) :
  Forall (fun item =>
            String.eqb (itemId item) (itemId job) && (version item =? version job)
            = false) (items c) ->
  items (settle job outcome c) = items c /\
  revoked (settle job outcome c)
  = revoked c ++ match outcome with
                 | inr result => [url result]
                 | inl _ => []
                 end.
Proof.
  intros Hstale. destruct outcome as [message|result]; cbn.
  - rewrite (unmatched_map _ _ _ Hstale), app_nil_r. split; reflexivity.
  - rewrite (unmatched_map _ _ _ Hstale). split; [reflexivity|].
    rewrite (unmatched_existsb _ _ Hstale).
    rewrite (unmatched_omap _ _ _ _ _ Hstale), app_nil_r. reflexivity.
Qed.

(** X23. A result that arrives late is dropped.  When every item with the
    job's id is at the job's version and the item is scheduled again
    before the conversion settles, settling the job changes no item, and
    the URL of a successful result is revoked. *)
Theorem settle_after_reschedule (job : ConversionItem)
    (overrides : ConversionItem -> Overrides)
    (outcome : string + ConversionResult) (c : Controller) :
  (forall item, item ∈ items c -> itemId item = itemId job ->
                version item = version job) ->
  items (settle job outcome (scheduleConversion (itemId job) overrides c))
  = items (scheduleConversion (itemId job) overrides c) /\
  revoked (settle job outcome (scheduleConversion (itemId job) overrides c))
  = revoked c ++ match outcome with
                 | inr result => [url result]
                 | inl _ => []
                 end.
Proof.
  intros Hcurrent.
  apply (settle_stale job outcome (scheduleConversion (itemId job) overrides c)).
  unfold scheduleConversion. rewrite requeue_items.
  apply Forall_forall. intros item' Hin.
  apply list_elem_of_fmap in Hin as (item & -> & Hin).
  destruct (String.eqb (itemId item) (itemId job)) eqn:Hid; cbn.
  - rewrite Hid. cbn. apply String.eqb_eq in Hid.
    rewrite (Hcurrent item Hin Hid). apply Z.eqb_neq. lia.
  - rewrite Hid. reflexivity.
Qed.

Lemma settle_after_reschedule_witness :
  items (settle exampleJob (inr exampleResult)
           (scheduleConversion (itemId exampleJob) (fun _ => noOverrides)
              exampleController))
  = items (scheduleConversion (itemId exampleJob) (fun _ => noOverrides)
             exampleController) /\
  revoked (settle exampleJob (inr exampleResult)
             (scheduleConversion (itemId exampleJob) (fun _ => noOverrides)
                exampleController))
  = revoked exampleController ++ [url exampleResult].
Proof.
  apply (settle_after_reschedule exampleJob (fun _ => noOverrides)
           (inr exampleResult) exampleController).
  intros item Hitem _. apply list_elem_of_singleton in Hitem. now subst item.
Defined.

(** X24. A result for an item that was removed in the meantime is
    dropped: after [removeItem] settling a job of that item changes no
    item, and the URL of a successful result is revoked. *)
Theorem settle_after_removeItem (job : ConversionItem)
    (outcome : string + ConversionResult) (c : Controller) :
  items (settle job outcome (removeItem (itemId job) c))
  = items (removeItem (itemId job) c) /\
  revoked (settle job outcome (removeItem (itemId job) c))
  = revoked (removeItem (itemId job) c)
    ++ match outcome with
       | inr result => [url result]
       | inl _ => []
       end.
Proof.
  apply settle_stale. cbn. apply Forall_forall. intros item Hitem.
  apply list_elem_of_filter in Hitem as [Hid _].
  destruct (String.eqb (itemId item) (itemId job)); [destruct Hid|reflexivity].
Qed.

(** X25. At its first render the hook holds a global format that is not
    GIF together with the default quality of that very format, although
    it asks [getDefaultOutputFormat] twice and the host may answer a probe
    differently from one query to the next: the cache of
    [supportsCanvasEncoding] makes the two calls agree. *)
Theorem initialController_defaults (host : Host) (st : ModuleState) :
  globalFormat (initialController host st) <> Gif /\
  globalQuality (initialController host st)
  = defaultQuality (globalFormat (initialController host st)) /\
  globalFormat (initialController host st)
  = preferredFormat (fst (getOutputFormatSupport host st)).
Proof.
  unfold initialController.
  pose proof (getOutputFormatSupport_again host st) as Hagain.
  destruct (getOutputFormatSupport host st) as [support st1] eqn:Hfirst.
  cbn [snd fst] in *.
  rewrite (getDefaultOutputFormat_preferred host st1), Hagain. cbn [fst snd].
  rewrite (getDefaultOutputFormat_preferred host st1), Hagain. cbn [fst snd].
  cbn [globalFormat globalQuality].
  split; [|split; reflexivity].
  unfold preferredFormat. destruct (webp support); [discriminate|].
  destruct (jpeg support); discriminate.
Qed.

Section ControllerUrls.

Context {surroundings : Surroundings}.

Lemma heldUrls_spec (c : Controller) (u : string) :
  u ∈ heldUrls c <->
  exists item, item ∈ items c /\ (originalUrl item = u \/ convertedUrl item = Some u).
Proof.
  unfold heldUrls. rewrite elem_of_app, list_elem_of_fmap, list_elem_of_omap. split.
  - intros [(item & -> & Hin)|(item & Hin & Hu)]; eauto.
  - intros (item & Hin & [<-|Hu]); eauto.
Qed.

Lemma heldUrls_map (c c' : Controller) (f : ConversionItem -> ConversionItem)
    (u : string) :
  items c' = map f (items c) ->
  (forall item,
     originalUrl (f item) = originalUrl item /\
     convertedUrl (f item) = convertedUrl item) ->
  u ∈ heldUrls c -> u ∈ heldUrls c'.
Proof.
  intros Hitems Hf. rewrite !heldUrls_spec, Hitems.
  intros (item & Hin & Hu). exists (f item). split.
  - apply list_elem_of_fmap. eauto.
  - destruct (Hf item) as [-> ->]. exact Hu.
Qed.

Lemma heldUrls_requeue (update : ConversionItem -> option ConversionItem)
    (c c' : Controller) (u : string) :
  items c' = items c ->
  (forall item updated,
     update item = Some updated ->
     originalUrl updated = originalUrl item /\
     convertedUrl updated = convertedUrl item) ->
  u ∈ heldUrls c -> u ∈ heldUrls (requeue update c').
Proof.
  intros Hitems Hupdate.
  apply (heldUrls_map c _ (fun item => default item (update item)));
    [now rewrite requeue_items, Hitems|].
  intros item. destruct (update item) as [updated|] eqn:E; cbn [default].
  - exact (Hupdate item updated E).
  - split; reflexivity.
Qed.

Lemma findItem_unique (id : string) : forall (l : list ConversionItem) item,
  NoDup (map itemId l) -> item ∈ l -> itemId item = id ->
  findItem id l = Some item.
Proof.
  induction l as [|first l IH]; intros item Hnodup Hin Hid.
  - apply elem_of_nil in Hin. destruct Hin.
  - cbn [map] in Hnodup. apply NoDup_cons in Hnodup as [Hfirst Hnodup].
    unfold findItem. cbn [find].
    apply elem_of_cons in Hin as [->|Hin].
    + rewrite Hid, String.eqb_refl. reflexivity.
    + destruct (String.eqb (itemId first) id) eqn:E.
      * exfalso. apply Hfirst. apply String.eqb_eq in E.
        apply list_elem_of_fmap. exists item. split; [congruence|exact Hin].
      * exact (IH item Hnodup Hin Hid).
Qed.

Lemma intake_ids (c : Controller) (files : list Upload) :
  map itemId (additions (intake c files))
  = map createId (seq (filesTaken c) (length (additions (intake c files)))).
Proof.
  unfold intake.
  apply (intake_invariant c (fun acc =>
           map itemId (additions acc)
           = map createId (seq (filesTaken c) (length (additions acc)))));
    [|reflexivity].
  intros acc file Hacc. apply takeFile_cases.
  - intros job _ _ _ _ _ _ _ _ (Hid & _). cbn [additions].
    rewrite length_app, Nat.add_comm. cbn [length Nat.add].
    rewrite seq_S, !map_app, Hacc. cbn [map]. now rewrite Hid.
  - intros. exact Hacc.
Qed.

Lemma freshIds_map (c c' : Controller) (f : ConversionItem -> ConversionItem) :
  freshIds c ->
  items c' = map f (items c) ->
  filesTaken c' = filesTaken c ->
  (forall item, itemId (f item) = itemId item) ->
  freshIds c'.
Proof.
  intros [Hnodup Hfrom] Hitems Htaken Hf. unfold freshIds.
  rewrite Hitems, Htaken, map_map. split.
  - rewrite (map_ext _ itemId Hf). exact Hnodup.
  - eapply Forall_map_step; [exact Hfrom|].
    intros item. cbn beta. now rewrite Hf.
Qed.

Lemma freshIds_requeue (update : ConversionItem -> option ConversionItem)
    (c c' : Controller) :
  freshIds c ->
  items c' = items c ->
  filesTaken c' = filesTaken c ->
  (forall item updated, update item = Some updated -> itemId updated = itemId item) ->
  freshIds (requeue update c').
Proof.
  intros Hc Hitems Htaken Hupdate.
  apply (freshIds_map c _ (fun item => default item (update item)));
    [exact Hc|now rewrite requeue_items, Hitems|exact Htaken|].
  intros item. destruct (update item) as [updated|] eqn:E; cbn [default].
  - exact (Hupdate item updated E).
  - reflexivity.
Qed.

Ltac updated_keeps :=
  let item := fresh "item" in
  let updated := fresh "updated" in
  intros item updated;
  match goal with
  | |- (if ?b then _ else _) = _ -> _ => destruct b
  end;
  intros [= <-]; try split; reflexivity.

Section UniqueIds.

Hypothesis createId_inj : forall m n, createId m = createId n -> m = n.

Lemma act_freshIds (a : Action) (c : Controller) :
  freshIds c -> freshIds (act a c).
Proof.
  intros Hc.
  destruct a as [files|id fmt|id value|id useGlobal|id options|id options
                |id options|value|fmt|options|options|id value|id| |n outcome
                |n answer]; cbn [act].
  - (* handleFiles *)
    destruct files as [[|file files]|]; try exact Hc.
    destruct Hc as [Hnodup Hfrom].
    pose proof (intake_ids c (file :: files)) as Hids.
    unfold freshIds. rewrite handleFiles_items by discriminate.
    assert (Htaken : filesTaken (handleFiles (Some (file :: files)) c)
                     = (filesTaken c
                        + length (additions (intake c (file :: files))))%nat).
    { unfold handleFiles.
      destruct (additions (intake c (file :: files))); cbn; lia. }
    rewrite Htaken, map_app. split.
    + apply NoDup_app. split; [exact Hnodup|]. split.
      * intros id Hold Hnew. rewrite Hids in Hnew.
        apply list_elem_of_fmap in Hold as (item & -> & Hitem).
        apply list_elem_of_fmap in Hnew as (k & Hk & Hseq).
        apply elem_of_seq in Hseq.
        rewrite Forall_forall in Hfrom.
        destruct (Hfrom item Hitem) as (k' & Hk' & Hid).
        rewrite Hid in Hk. apply createId_inj in Hk. lia.
      * rewrite Hids. apply NoDup_fmap_2; [|apply NoDup_seq].
        intros m n. apply createId_inj.
    + apply Forall_app. split.
      * eapply Forall_impl; [exact Hfrom|]. cbn beta.
        intros item (k & Hk & Hid). exists k. split; [lia|exact Hid].
      * apply Forall_forall. intros item Hitem.
        assert (Hin : itemId item ∈ map itemId (additions (intake c (file :: files)))).
        { apply list_elem_of_fmap. eauto. }
        rewrite Hids in Hin. apply list_elem_of_fmap in Hin as (k & Hk & Hseq).
        apply elem_of_seq in Hseq. exists k. split; [lia|exact Hk].
  - unfold handleFormatChange.
    destruct (findItem id (items c)) as [current|]; [|exact Hc].
    match goal with |- freshIds (if ?b then _ else _) => destruct b end;
      [exact Hc|].
    apply (freshIds_requeue _ c c Hc eq_refl eq_refl). updated_keeps.
  - apply (freshIds_requeue _ c c Hc eq_refl eq_refl). updated_keeps.
  - unfold handleUseGlobalSettingsChange.
    destruct (findItem id (items c)) as [current|]; [|exact Hc].
    destruct useGlobal.
    + apply (freshIds_requeue _ c c Hc eq_refl eq_refl). updated_keeps.
    + destruct (negb (usesGlobalFormat current) && negb (usesGlobalQuality current));
        [exact Hc|].
      eapply freshIds_map; [exact Hc|reflexivity|reflexivity|].
      intros item. cbv beta. destruct (String.eqb (itemId item) id); reflexivity.
  - apply (freshIds_requeue _ c c Hc eq_refl eq_refl). updated_keeps.
  - apply (freshIds_requeue _ c c Hc eq_refl eq_refl). updated_keeps.
  - apply (freshIds_requeue _ c c Hc eq_refl eq_refl). updated_keeps.
  - apply (freshIds_requeue _ c (setGlobalQuality value c) Hc eq_refl eq_refl).
    updated_keeps.
  - unfold handleGlobalFormatChange.
    destruct (sameFormat fmt (globalFormat c)); [exact Hc|].
    apply (freshIds_requeue _ c (setGlobalFormat fmt c) Hc eq_refl eq_refl).
    updated_keeps.
  - unfold handleGlobalGifOptionsChange.
    eapply freshIds_map; [exact Hc|reflexivity|reflexivity|].
    intros item. cbv beta.
    destruct (negb (sameFormat (targetFormat item) Gif) || negb (usesGlobalFormat item));
      reflexivity.
  - unfold handleGlobalPngOptionsChange.
    eapply freshIds_map; [exact Hc|reflexivity|reflexivity|].
    intros item. cbv beta.
    destruct (negb (sameFormat (targetFormat item) Png) || negb (usesGlobalFormat item));
      reflexivity.
  - eapply freshIds_map; [exact Hc|reflexivity|reflexivity|].
    intros item. cbv beta. destruct (String.eqb (itemId item) id); reflexivity.
  - (* removeItem *)
    destruct Hc as [Hnodup Hfrom]. unfold freshIds. cbn. split.
    + eapply sublist_NoDup; [exact Hnodup|].
      apply fmap_sublist, sublist_filter.
    + apply Forall_forall. intros item Hitem.
      apply list_elem_of_filter in Hitem as [_ Hitem].
      rewrite Forall_forall in Hfrom. exact (Hfrom item Hitem).
  - (* clearAll *)
    split; cbn; constructor.
  - (* a conversion settles *)
    destruct (pending c !! n) as [job|]; [|exact Hc].
    destruct outcome as [message|result].
    + eapply freshIds_map; [exact Hc|reflexivity|reflexivity|].
      intros item. cbv beta. destruct (_ && _); reflexivity.
    + eapply freshIds_map; [exact Hc|reflexivity|reflexivity|].
      intros item. cbv beta. destruct (_ && _); reflexivity.
  - (* a detection settles *)
    destruct (detections c !! n) as [[id file]|]; [|exact Hc].
    destruct answer as [flag|]; [|exact Hc].
    eapply freshIds_map; [exact Hc|reflexivity|reflexivity|].
    intros item. cbv beta. destruct (negb (String.eqb (itemId item) id)); reflexivity.
Qed.

Lemma controller_freshIds (host : Host) (st : ModuleState) (actions : list Action) :
  freshIds (run actions (initialController host st)).
Proof.
  apply (run_invariant freshIds).
  - exact act_freshIds.
  - unfold freshIds. destruct (initialController_items host st) as [-> _].
    split; constructor.
Qed.

End UniqueIds.

(** One step never drops a URL without revoking it, when ids are not
    shared. *)
Lemma act_keeps_urls (a : Action) (c : Controller) (u : string) :
  NoDup (map itemId (items c)) ->
  u <> EmptyString ->
  u ∈ heldUrls c ->
  u ∈ heldUrls (act a c) \/ u ∈ revoked (act a c).
Proof.
  intros Hnodup Hu Hheld.
  destruct a as [files|id fmt|id value|id useGlobal|id options|id options
                |id options|value|fmt|options|options|id value|id| |n outcome
                |n answer]; cbn [act].
  - (* handleFiles *)
    left. destruct files as [[|file files]|]; try exact Hheld.
    rewrite heldUrls_spec in *. rewrite handleFiles_items by discriminate.
    destruct Hheld as (item & Hin & Hitem). exists item.
    split; [apply elem_of_app; now left|exact Hitem].
  - left. unfold handleFormatChange.
    destruct (findItem id (items c)) as [current|]; [|exact Hheld].
    match goal with |- _ ∈ heldUrls (if ?b then _ else _) => destruct b end;
      [exact Hheld|].
    apply (heldUrls_requeue _ c c u eq_refl); [updated_keeps|exact Hheld].
  - left. apply (heldUrls_requeue _ c c u eq_refl); [updated_keeps|exact Hheld].
  - left. unfold handleUseGlobalSettingsChange.
    destruct (findItem id (items c)) as [current|]; [|exact Hheld].
    destruct useGlobal.
    + apply (heldUrls_requeue _ c c u eq_refl); [updated_keeps|exact Hheld].
    + destruct (negb (usesGlobalFormat current) && negb (usesGlobalQuality current));
        [exact Hheld|].
      eapply heldUrls_map; [reflexivity| |exact Hheld].
      intros item. cbv beta. destruct (String.eqb (itemId item) id); split; reflexivity.
  - left. apply (heldUrls_requeue _ c c u eq_refl); [updated_keeps|exact Hheld].
  - left. apply (heldUrls_requeue _ c c u eq_refl); [updated_keeps|exact Hheld].
  - left. apply (heldUrls_requeue _ c c u eq_refl); [updated_keeps|exact Hheld].
  - left. apply (heldUrls_requeue _ c (setGlobalQuality value c) u eq_refl);
      [updated_keeps|exact Hheld].
  - left. unfold handleGlobalFormatChange.
    destruct (sameFormat fmt (globalFormat c)); [exact Hheld|].
    apply (heldUrls_requeue _ c (setGlobalFormat fmt c) u eq_refl);
      [updated_keeps|exact Hheld].
  - left. unfold handleGlobalGifOptionsChange.
    eapply heldUrls_map; [reflexivity| |exact Hheld].
    intros item. cbv beta.
    destruct (negb (sameFormat (targetFormat item) Gif) || negb (usesGlobalFormat item));
      split; reflexivity.
  - left. unfold handleGlobalPngOptionsChange.
    eapply heldUrls_map; [reflexivity| |exact Hheld].
    intros item. cbv beta.
    destruct (negb (sameFormat (targetFormat item) Png) || negb (usesGlobalFormat item));
      split; reflexivity.
  - left. eapply heldUrls_map; [reflexivity| |exact Hheld].
    intros item. cbv beta. destruct (String.eqb (itemId item) id); split; reflexivity.
  - (* removeItem *)
    apply heldUrls_spec in Hheld as (item & Hin & Hitem).
    destruct (String.eqb (itemId item) id) eqn:Hid.
    + right. apply String.eqb_eq in Hid.
      unfold removeItem. rewrite (findItem_unique id _ item Hnodup Hin Hid).
      cbn. apply elem_of_app. right. unfold releaseResources.
      destruct Hitem as [<-|Hconverted].
      * apply elem_of_cons. now left.
      * apply elem_of_cons. right. rewrite Hconverted. cbn.
        destruct (String.eqb u "") eqn:E;
          [apply String.eqb_eq in E; contradiction|].
        cbn. apply list_elem_of_singleton. reflexivity.
    + left. apply heldUrls_spec. exists item. split; [|exact Hitem].
      cbn. apply list_elem_of_filter. split; [|exact Hin].
      rewrite Hid. exact I.
  - (* clearAll *)
    right. apply heldUrls_spec in Hheld as (item & Hin & Hitem).
    cbn. apply elem_of_app. right.
    apply list_elem_of_In, in_concat. exists (releaseResources item). split.
    + apply in_map, list_elem_of_In, Hin.
    + apply list_elem_of_In. unfold releaseResources.
      destruct Hitem as [<-|Hconverted].
      * apply elem_of_cons. now left.
      * apply elem_of_cons. right. rewrite Hconverted. cbn.
        destruct (String.eqb u "") eqn:E;
          [apply String.eqb_eq in E; contradiction|].
        cbn. apply list_elem_of_singleton. reflexivity.
  - (* a conversion settles *)
    destruct (pending c !! n) as [job|]; [|left; exact Hheld].
    destruct outcome as [message|result].
    + left. eapply heldUrls_map; [reflexivity| |exact Hheld].
      intros item. cbv beta. destruct (_ && _); split; reflexivity.
    + apply heldUrls_spec in Hheld as (item & Hin & Hitem).
      destruct (String.eqb (itemId item) (itemId job) && (version item =? version job))
        eqn:Hmatch.
      * destruct Hitem as [Horiginal|Hconverted].
        { left. apply heldUrls_spec. exists (withResult item result). split.
          - cbn. apply list_elem_of_fmap. exists item. rewrite Hmatch. eauto.
          - left. exact Horiginal. }
        destruct (String.eqb u (url result)) eqn:Hsame.
        { left. apply String.eqb_eq in Hsame. apply heldUrls_spec.
          exists (withResult item result). split.
          - cbn. apply list_elem_of_fmap. exists item. rewrite Hmatch. eauto.
          - right. cbn. now rewrite Hsame. }
        right. cbn. apply elem_of_app. left. apply elem_of_app. right.
        apply list_elem_of_omap. exists item. split; [exact Hin|].
        rewrite Hmatch, Hconverted. cbn. rewrite Hsame.
        destruct (String.eqb u "") eqn:E;
          [apply String.eqb_eq in E; contradiction|].
        reflexivity.
      * left. apply heldUrls_spec. exists item. split; [|exact Hitem].
        cbn. apply list_elem_of_fmap. exists item. rewrite Hmatch. eauto.
  - (* a detection settles *)
    left. destruct (detections c !! n) as [[id file]|]; [|exact Hheld].
    destruct answer as [flag|]; [|exact Hheld].
    eapply heldUrls_map; [reflexivity| |exact Hheld].
    intros item. cbv beta.
    destruct (negb (String.eqb (itemId item) id)); split; reflexivity.
Qed.

(** X26. No object URL leaks.  When [createId] never answers the same id
    twice, whatever the hook has done so far, a URL held by an item (the
    URL of its file, or of its converted blob) is, after any further step,
    still held by an item or has been given to [URL.revokeObjectURL]; and
    when a conversion settles with a result, the URL of that result is
    held by an item or revoked. *)
Theorem controller_never_leaks_urls (host : Host) (st : ModuleState)
    (actions : list Action) :
  (forall m n, createId m = createId n -> m = n) ->
  (forall a u,
     u <> EmptyString ->
     u ∈ heldUrls (run actions (initialController host st)) ->
     u ∈ heldUrls (act a (run actions (initialController host st))) \/
     u ∈ revoked (act a (run actions (initialController host st)))) /\
  (forall n job result,
     pending (run actions (initialController host st)) !! n = Some job ->
     url result ∈ heldUrls (act (ConversionSettles n (inr result))
                              (run actions (initialController host st))) \/
     url result ∈ revoked (act (ConversionSettles n (inr result))
                             (run actions (initialController host st)))).
Proof.
  intros Hinj. split.
  - intros a u Hu Hheld.
    apply act_keeps_urls; [|exact Hu|exact Hheld].
    exact (proj1 (controller_freshIds Hinj host st actions)).
  - intros n job result Hjob. cbn [act]. rewrite Hjob.
    generalize (setPending (delete n (pending (run actions (initialController host st))))
                  (run actions (initialController host st))).
    intros c.
    destruct (existsb (fun item => String.eqb (itemId item) (itemId job)
                                   && (version item =? version job)) (items c))
      eqn:Happlied.
    + left. apply existsb_exists in Happlied as (item & Hin & Hmatch).
      apply heldUrls_spec. exists (withResult item result). split.
      * cbn. apply list_elem_of_fmap. exists item. rewrite Hmatch.
        split; [reflexivity|apply list_elem_of_In, Hin].
      * right. reflexivity.
    + right. cbn. rewrite Happlied. apply elem_of_app. right.
      apply list_elem_of_singleton. reflexivity.
Qed.

End ControllerUrls.

Lemma tally_inj : forall m n, tally m = tally n -> m = n.
Proof.
  induction m as [|m IH]; intros [|n] H; try discriminate H; [reflexivity|].
  injection H as H. f_equal. exact (IH n H).
Qed.

Lemma controller_never_leaks_urls_witness :
  "blob:"%string ∈ heldUrls
    (act (surroundings := exampleSurroundings) (RemoveItem EmptyString)
       (run (surroundings := exampleSurroundings)
          [HandleFiles (Some [mkUpload (mkFile "a.png" "image/png") 4])]
          (initialController browserHost freshModule))) \/
  "blob:"%string ∈ revoked
    (act (surroundings := exampleSurroundings) (RemoveItem EmptyString)
       (run (surroundings := exampleSurroundings)
          [HandleFiles (Some [mkUpload (mkFile "a.png" "image/png") 4])]
          (initialController browserHost freshModule))).
Proof.
  apply (proj1 (controller_never_leaks_urls (surroundings := exampleSurroundings)
                  browserHost freshModule
                  [HandleFiles (Some [mkUpload (mkFile "a.png" "image/png") 4])]
                  tally_inj)
           (RemoveItem EmptyString) "blob:"%string).
  - discriminate.
  - vm_compute. constructor.
Defined.

(* ===================================================================== *)
(** ** HDR detection *)
(* ===================================================================== *)

(** A colour space is flagged only when its transfer function is set and
    is not bt709. *)
Lemma shouldFlagHdr_transfer (colorSpace : option VideoColorSpace) :
  shouldFlagHdr colorSpace = true ->
  exists cs t, colorSpace = Some cs /\ transfer cs = Some t /\
               t <> EmptyString /\ t <> "bt709"%string.
Proof.
  destruct colorSpace as [cs|]; [|discriminate]. unfold shouldFlagHdr.
  destruct (transfer cs) as [t|] eqn:Htransfer;
    [|cbn; rewrite andb_false_r; discriminate].
  intros H. exists cs, t. split; [reflexivity|]. split; [exact Htransfer|].
  destruct (existsb (optionIs (Some t)) HDR_TRANSFERS) eqn:Hhdr.
  - apply existsb_exists in Hhdr as (u & Hin & Hu).
    apply String.eqb_eq in Hu. subst u. simpl in Hin.
    destruct Hin as [<-|[<-|[]]]; split; discriminate.
  - destruct (optionIs (primaries cs) "bt2020" && truthy (Some t)
              && negb (optionIs (Some t) "bt709")) eqn:Hwide; [|discriminate H].
    apply andb_true_iff in Hwide as [Hwide Hnot].
    apply andb_true_iff in Hwide as [_ Hset].
    split; intros ->; [discriminate Hset|discriminate Hnot].
Qed.

Lemma hasJpegHdrGainMap_ends (textDecoder : bool) (data : list Z)
    (mimeType : option string) :
  hasJpegHdrGainMap textDecoder data mimeType <> OutOfFuel.
Proof.
  unfold hasJpegHdrGainMap.
  destruct (negb (isJpegData data mimeType)); [discriminate|].
  pose proof (walkSegments_ends textDecoder data (S (length data)) 2) as Hends.
  destruct (walkSegments textDecoder data (S (length data)) 2); try discriminate.
  exfalso. apply Hends; [lia|lia|reflexivity].
Qed.

(** X27. [detectHdrImage] resolves to [true] only in two cases: the bytes
    of the file hold a gain-map signature found by [hasJpegHdrGainMap], or
    the decoder made for the file reports, on a track or on the decoded
    frame, a colour space whose transfer function is set and is not
    bt709. *)
Theorem detectHdrImage_true (host : HdrHost) (file : File) :
  verdict (detectHdrImage host file) = Resolves true ->
  exists data mimeType,
    arrayBuffer host file = Some data /\ guessMimeType file = Some mimeType /\
    (hasJpegHdrGainMap (hasTextDecoder host) data (Some mimeType) = Returns true
     \/ exists decoder cs t,
          newImageDecoder host data mimeType = Some decoder /\
          (trackColorSpace decoder = Some cs \/ decodeFrame decoder = Some (Some cs)) /\
          transfer cs = Some t /\ t <> EmptyString /\ t <> "bt709"%string).
Proof.
  unfold detectHdrImage.
  destruct (negb (hasImageDecoder host)); [discriminate|].
  destruct (guessMimeType file) as [mimeType|]; [|discriminate].
  destruct (negb (default false (isTypeSupported host mimeType))); [discriminate|].
  destruct (arrayBuffer host file) as [data|]; [|discriminate].
  intros H. exists data, mimeType. split; [reflexivity|]. split; [reflexivity|].
  destruct (hasJpegHdrGainMap (hasTextDecoder host) data (Some mimeType))
    as [[|]| |]; try discriminate H.
  { left. reflexivity. }
  right. destruct (newImageDecoder host data mimeType) as [decoder|];
    [|discriminate H].
  unfold inspectDecoder in H.
  destruct (trackColorSpace decoder) as [tracked|] eqn:Htrack.
  - destruct (shouldFlagHdr (Some tracked)) eqn:Hflag.
    + destruct (shouldFlagHdr_transfer _ Hflag) as (cs & t & [= <-] & Ht & Hne & Hbt).
      exists decoder, tracked, t. auto 10.
    + destruct (decodeFrame decoder) as [imageColorSpace|] eqn:Hframe; [|discriminate H].
      destruct (imageCloseThrows decoder); [discriminate H|].
      destruct (decoderCloseThrows decoder 0); [discriminate H|].
      injection H as Hflag'.
      destruct (shouldFlagHdr_transfer _ Hflag') as (cs & t & -> & Ht & Hne & Hbt).
      exists decoder, cs, t. auto 10.
  - destruct (decodeFrame decoder) as [imageColorSpace|] eqn:Hframe; [|discriminate H].
    destruct (imageCloseThrows decoder); [discriminate H|].
    destruct (decoderCloseThrows decoder 0); [discriminate H|].
    injection H as Hflag'.
    destruct (shouldFlagHdr_transfer _ Hflag') as (cs & t & -> & Ht & Hne & Hbt).
    exists decoder, cs, t. auto 10.
Qed.

Lemma detectHdrImage_true_witness :
  exists data mimeType,
    arrayBuffer exampleHdrHost (mkFile "photo.avif" "") = Some data /\
    guessMimeType (mkFile "photo.avif" "") = Some mimeType /\
    (hasJpegHdrGainMap (hasTextDecoder exampleHdrHost) data (Some mimeType)
     = Returns true
     \/ exists decoder cs t,
          newImageDecoder exampleHdrHost data mimeType = Some decoder /\
          (trackColorSpace decoder = Some cs \/ decodeFrame decoder = Some (Some cs)) /\
          transfer cs = Some t /\ t <> EmptyString /\ t <> "bt709"%string).
Proof.
  apply (detectHdrImage_true exampleHdrHost (mkFile "photo.avif" "")).
  reflexivity.
Defined.

(** X28. Every call of [detectHdrImage] settles, and a decoder it creates
    is closed before it does.  [decoder.close()] is called once in the
    [try] block when nothing throws; once there and once more in the
    [catch] block exactly when that first call throws; and once, in the
    [catch] block only, when decoding rejects or [image.close()] throws.
    Whenever the [catch] block runs the answer is [false].  Without a
    decoder [close] is not called. *)
Theorem detectHdrImage_closes_decoder (host : HdrHost) (file : File) :
  verdict (detectHdrImage host file) <> DetectionOutOfFuel /\
  match decoderCreated (detectHdrImage host file) with
  | None => closeCalls (detectHdrImage host file) = []
  | Some decoder =>
    (exists data mimeType,
       arrayBuffer host file = Some data /\
       guessMimeType file = Some mimeType /\
       newImageDecoder host data mimeType = Some decoder) /\
    ((closeCalls (detectHdrImage host file) = [CloseInTry false] /\
      decoderCloseThrows decoder 0 = false)
     \/ (closeCalls (detectHdrImage host file)
          = [CloseInTry true; CloseInCatch (decoderCloseThrows decoder 1)] /\
         decoderCloseThrows decoder 0 = true /\
         verdict (detectHdrImage host file) = Resolves false)
     \/ (closeCalls (detectHdrImage host file)
          = [CloseInCatch (decoderCloseThrows decoder 0)] /\
         (decodeFrame decoder = None \/ imageCloseThrows decoder = true) /\
         verdict (detectHdrImage host file) = Resolves false))
  end.
Proof.
  unfold detectHdrImage.
  destruct (negb (hasImageDecoder host)); [split; [discriminate|reflexivity]|].
  destruct (guessMimeType file) as [mimeType|]; [|split; [discriminate|reflexivity]].
  destruct (negb (default false (isTypeSupported host mimeType)));
    [split; [discriminate|reflexivity]|].
  destruct (arrayBuffer host file) as [data|]; [|split; [discriminate|reflexivity]].
  pose proof (hasJpegHdrGainMap_ends (hasTextDecoder host) data (Some mimeType)) as Hends.
  destruct (hasJpegHdrGainMap (hasTextDecoder host) data (Some mimeType))
    as [[|]| |]; try (split; [discriminate|reflexivity]); [|congruence].
  destruct (newImageDecoder host data mimeType) as [decoder|] eqn:Hnew;
    [|split; [discriminate|reflexivity]].
  unfold inspectDecoder.
  destruct (match trackColorSpace decoder with
            | Some colorSpace => shouldFlagHdr (Some colorSpace)
            | None => false
            end).
  - destruct (decoderCloseThrows decoder 0) eqn:Hclose; cbn;
      (split; [discriminate|]); (split; [eauto|]); auto.
  - destruct (decodeFrame decoder) as [imageColorSpace|] eqn:Hframe;
      [|cbn; (split; [discriminate|]); (split; [eauto|]); auto 6].
    destruct (imageCloseThrows decoder) eqn:Himage;
      [cbn; (split; [discriminate|]); (split; [eauto|]); auto 6|].
    destruct (decoderCloseThrows decoder 0) eqn:Hclose; cbn;
      (split; [discriminate|]); (split; [eauto|]); auto.
Qed.
